(** * CodeThreat AppSec GitHub Action: a shallow embedding and its properties

    The action is a linear pipeline (inputs.ts, action.ts, sarif-uploader.ts,
    outputs.ts, logger.ts, index.ts).  This development embeds the TypeScript
    sources as Rocq functions:

    - JavaScript strings are [string] (byte strings, UTF-8); the string
      helpers follow [String.prototype] for the ASCII patterns the sources
      use, and case mapping acts on the ASCII letters only;
    - JavaScript numbers are [jsnum]: an exact integer or [NaN] (fractions,
      infinities and the rounding of integers beyond 2^53 are left out);
    - parsed JSON documents are [JsValue];
    - code that logs, throws or calls a collaborator lives in the monad [M]
      (state = process environment + the history of observable effects,
      result = a value or a thrown exception);
    - everything the repository imports but does not define (the Actions
      runtime, the file system, the CodeThreat client, Octokit, JSON) is a
      field of the [Host] record or of the objects it hands out, an
      arbitrary oracle that may depend on all that happened before. *)

From Stdlib Require Import ZArith String Ascii List Lia Bool.
From Stdlib Require Import DecimalString DecimalZ DecimalPos DecimalFacts.
From stdpp Require Import gmap strings.
Import ListNotations.

Open Scope string_scope.
Open Scope Z_scope.

(** ** JavaScript strings *)

(** [s.startsWith(p)] *)
Fixpoint startsWith (s p : string) {struct p} : bool :=
  match p, s with
  | EmptyString, _ => true
  | String _ _, EmptyString => false
  | String c p', String d s' => Ascii.eqb c d && startsWith s' p'
  end.

(** [s.substring(n)]: the characters of [s] from index [n] on. *)
Fixpoint substringFrom (n : nat) (s : string) : string :=
  match n, s with
  | O, _ => s
  | S n', String _ s' => substringFrom n' s'
  | S _, EmptyString => EmptyString
  end.

(** [s.endsWith(suf)]: some tail of [s] is [suf]. *)
Fixpoint endsWith (s suf : string) : bool :=
  String.eqb s suf ||
  match s with
  | EmptyString => false
  | String _ s' => endsWith s' suf
  end.

(** [s.replace(/^p/, r)] for a literal [p]: only a match at index 0 counts. *)
Definition replacePrefix (s p r : string) : string :=
  if startsWith s p then r +:+ substringFrom (String.length p) s else s.

(** [s.replace(/suf$/, '')] for a literal, non-empty [suf]: the tail equal
    to [suf] is dropped, a string that does not end in [suf] is unchanged. *)
Fixpoint stripSuffix (s suf : string) : string :=
  if String.eqb s suf then EmptyString
  else match s with
       | EmptyString => EmptyString
       | String c s' => String c (stripSuffix s' suf)
       end.

(** [s.replace(pat, rep)] with a string pattern: the first occurrence only. *)
Fixpoint replace (s pat rep : string) : string :=
  if startsWith s pat then rep +:+ substringFrom (String.length pat) s
  else match s with
       | EmptyString => EmptyString
       | String c s' => String c (replace s' pat rep)
       end.

(** [s.includes(pat)] *)
Fixpoint includes (s pat : string) : bool :=
  startsWith s pat ||
  match s with
  | EmptyString => false
  | String _ s' => includes s' pat
  end.

(** [s.split(sep)] for a one-character separator. *)
Fixpoint split (s : string) (sep : ascii) : list string :=
  match s with
  | EmptyString => [EmptyString]
  | String c s' =>
      if Ascii.eqb c sep then EmptyString :: split s' sep
      else match split s' sep with
           | h :: t => String c h :: t
           | [] => [String c EmptyString]
           end
  end.

Definition inRange (lo hi : nat) (c : ascii) : bool :=
  let n := nat_of_ascii c in (Nat.leb lo n && Nat.leb n hi)%bool.

Definition isUpper : ascii -> bool := inRange 65 90.
Definition isLower : ascii -> bool := inRange 97 122.
Definition isDigit : ascii -> bool := inRange 48 57.

Definition upperChar (c : ascii) : ascii :=
  if isLower c then ascii_of_nat (nat_of_ascii c - 32) else c.
Definition lowerChar (c : ascii) : ascii :=
  if isUpper c then ascii_of_nat (nat_of_ascii c + 32) else c.

Fixpoint mapString (f : ascii -> ascii) (s : string) : string :=
  match s with
  | EmptyString => EmptyString
  | String c s' => String (f c) (mapString f s')
  end.

(** Case mapping of ASCII text: the letters a-z and A-Z are mapped, every
    other character is kept. *)
Definition upperAscii : string -> string := mapString upperChar.
Definition lowerAscii : string -> string := mapString lowerChar.

(** A character of ASCII: one byte of the UTF-8 text, one UTF-16 unit of the
    JavaScript string. *)
Definition isAsciiChar (c : ascii) : bool := Nat.ltb (nat_of_ascii c) 128%nat.

Fixpoint isAscii (s : string) : bool :=
  match s with
  | EmptyString => true
  | String c s' => (isAsciiChar c && isAscii s')%bool
  end.

(** The number of UTF-8 bytes of a first character that is one UTF-16 unit
    of the JavaScript string, from its leading byte: one byte for ASCII, two
    or three for the rest of the Basic Multilingual Plane.  A character
    beyond it is two UTF-16 units, and [substring(0, 1)] cuts it in half. *)
Definition firstUnitLength (c : ascii) : option nat :=
  let n := nat_of_ascii c in
  if isAsciiChar c then Some 1%nat
  else if (Nat.leb 192 n && Nat.ltb n 224)%bool then Some 2%nat
  else if (Nat.leb 224 n && Nat.ltb n 240)%bool then Some 3%nat
  else None.

(** The character class [[\w-]] of the repository-name pattern. *)
Definition isWordDash (c : ascii) : bool :=
  (isUpper c || isLower c || isDigit c || Ascii.eqb c "_" || Ascii.eqb c "-")%bool.

(** The longest prefix matched by [[\w-]*], and what follows it. *)
Fixpoint spanWordDash (s : string) : string * string :=
  match s with
  | EmptyString => (EmptyString, EmptyString)
  | String c s' =>
      if isWordDash c
      then let (w, r) := spanWordDash s' in (String c w, r)
      else (EmptyString, s)
  end.

(** ** JavaScript numbers *)

Inductive jsnum : Type :=
| Num (z : Z)
| NaN.

(** [a < b] and [a > b]: false as soon as one side is [NaN]. *)
Definition js_lt (a b : jsnum) : bool :=
  match a, b with
  | Num x, Num y => x <? y
  | _, _ => false
  end.
Definition js_gt (a b : jsnum) : bool := js_lt b a.

(** [a === b] on numbers: [NaN] is not equal to itself. *)
Definition js_eq (a b : jsnum) : bool :=
  match a, b with
  | Num x, Num y => x =? y
  | _, _ => false
  end.

Definition Z_toString (z : Z) : string := NilZero.string_of_int (Z.to_int z).

(** [n.toString()] and the rendering of a number in a template literal. *)
Definition Number_toString (n : jsnum) : string :=
  match n with
  | Num z => Z_toString z
  | NaN => "NaN"
  end.

Definition Boolean_toString (b : bool) : string := if b then "true" else "false".

Definition isWhiteSpace (c : ascii) : bool :=
  (inRange 9 13 c || Ascii.eqb c " ")%bool.

Fixpoint trimStart (s : string) : string :=
  match s with
  | String c s' => if isWhiteSpace c then trimStart s' else s
  | EmptyString => EmptyString
  end.

Definition digitValue (c : ascii) : option Z :=
  if isDigit c then Some (Z.of_nat (nat_of_ascii c - 48)) else None.

Definition hexDigitValue (c : ascii) : option Z :=
  if isDigit c then Some (Z.of_nat (nat_of_ascii c - 48))
  else if inRange 97 102 c then Some (Z.of_nat (nat_of_ascii c - 87))
  else if inRange 65 70 c then Some (Z.of_nat (nat_of_ascii c - 55))
  else None.

(** The value of the longest prefix of digits in radix [radix], [None] when
    that prefix is empty. *)
Fixpoint readDigits (digit : ascii -> option Z) (radix : Z)
         (s : string) (acc : option Z) : option Z :=
  match s with
  | String c s' =>
      match digit c with
      | Some d =>
          readDigits digit radix s'
            (Some (radix * match acc with Some a => a | None => 0 end + d))
      | None => acc
      end
  | EmptyString => acc
  end.

(** [parseInt(s)] with no radix argument: leading white space and one sign
    are skipped, a [0x]/[0X] prefix selects radix 16, otherwise radix 10;
    the longest prefix of digits is read; [NaN] when there is none.  White
    space is the ASCII one; [core.getInput] trims its result anyway. *)
Definition parseInt (s : string) : jsnum :=
  let s1 := trimStart s in
  let (sign, s2) :=
    match s1 with
    | String "-" r => (-1, r)
    | String "+" r => (1, r)
    | _ => (1, s1)
    end in
  let value :=
    if (startsWith s2 "0x" || startsWith s2 "0X")%bool
    then readDigits hexDigitValue 16 (substringFrom 2 s2) None
    else readDigits digitValue 10 s2 None in
  match value with
  | Some v => Num (sign * v)
  | None => NaN
  end.

(** ** Values produced by [JSON.parse] *)

#[warnings="-register-all"]
Inductive JsValue : Type :=
| JUndefined
| JNull
| JBool (b : bool)
| JNum (n : jsnum)
| JStr (s : string)
| JArr (items : list JsValue)
| JObj (fields : list (string * JsValue)).

(** [!!v] *)
Definition truthy (v : JsValue) : bool :=
  match v with
  | JUndefined | JNull => false
  | JBool b => b
  | JNum (Num z) => negb (z =? 0)
  | JNum NaN => false
  | JStr s => negb (String.eqb s EmptyString)
  | JArr _ | JObj _ => true
  end.

Fixpoint lookupField (fields : list (string * JsValue)) (k : string) : JsValue :=
  match fields with
  | [] => JUndefined
  | (k', v) :: rest => if String.eqb k' k then v else lookupField rest k
  end.

(** [Array.isArray(v)] *)
Definition isArray (v : JsValue) : bool :=
  match v with
  | JArr _ => true
  | _ => false
  end.

Definition joinWith (sep : string) (parts : list string) : string :=
  match parts with
  | [] => EmptyString
  | p :: ps => fold_left (fun acc q => acc +:+ sep +:+ q) ps p
  end.

(** [String(v)], as used when a value becomes a property key or a part of a
    template literal. *)
Fixpoint ToString (v : JsValue) : string :=
  match v with
  | JUndefined => "undefined"
  | JNull => "null"
  | JBool b => Boolean_toString b
  | JNum n => Number_toString n
  | JStr s => s
  | JArr items =>
      joinWith ","
        (List.map (fun e => match e with
                            | JUndefined | JNull => EmptyString
                            | _ => ToString e
                            end) items)
  | JObj _ => "[object Object]"
  end.

(** ** Exceptions, effects and the host *)

(** What a [throw] carries: an [Error] instance with its message, or some
    other value. *)
Inductive exn : Type :=
| JsError (message : string)
| Thrown.

(** [error instanceof Error ? error.message : 'Unknown error'] *)
Definition errorMessage (e : exn) : string :=
  match e with
  | JsError m => m
  | Thrown => "Unknown error"
  end.

Inductive Completion (A : Type) : Type :=
| Return (a : A)
| Throw (e : exn).
Arguments Return {A} a.
Arguments Throw {A} e.

(** [github.context], as far as the action reads it. *)
Record GithubContext : Type := {
  ctx_owner : string;
  ctx_repo : string;
  ctx_ref : string;
  ctx_sha : string;
  ctx_actor : string;
  ctx_workflow : string;
  ctx_runId : jsnum;
  ctx_eventName : string
}.

(** Arguments and results of the CodeThreat client. *)
Record ImportRepositoryArgs : Type := {
  ira_url : string;
  ira_organizationSlug : string;
  ira_name : string;
  ira_branch : string;
  ira_provider : string;
  ira_autoScan : bool;
  ira_scanTypes : list string;
  ira_isPrivate : bool
}.

Record Repository : Type := {
  repo_id : string;
  repo_name : string;
  repo_fullName : string;
  repo_provider : string;
  repo_url : string
}.

Record ImportResult : Type := {
  alreadyExists : bool;
  repository : Repository
}.

Record RunScanArgs : Type := {
  rsa_repositoryId : string;
  rsa_organizationSlug : string;
  rsa_branch : string;
  rsa_scanTypes : list string;
  rsa_wait : bool;
  rsa_timeout : jsnum;
  rsa_pollInterval : jsnum;
  rsa_scanTrigger : string;
  rsa_commitSha : string;
  rsa_metadata : list (string * string)
}.

Record ScanCounts : Type := {
  sc_total : jsnum;
  sc_critical : jsnum;
  sc_high : jsnum
}.

Record ScanResult : Type := {
  synchronous : bool;
  duration : option jsnum;
  scan_results : option ScanCounts;
  scan_id : string
}.

Record ExportArgs : Type := {
  ea_scanId : string;
  ea_format : string;
  ea_includeMetadata : bool;
  ea_includeFixed : option bool;
  ea_includeSuppressed : option bool
}.

Record Summary : Type := {
  total : jsnum;
  critical : jsnum;
  high : jsnum;
  medium : jsnum;
  low : jsnum
}.

Record ExportResult : Type := {
  er_results : JsValue;
  er_summary : option Summary;
  er_repositoryId : string;
  er_securityScore : option jsnum;
  er_scanDuration : option jsnum
}.

Record UploadSarifArgs : Type := {
  us_owner : string;
  us_repo : string;
  us_commit_sha : string;
  us_ref : string;
  us_sarif : string;
  us_tool_name : string
}.

Record UploadResult : Type := {
  upload_id : string;
  upload_url : string
}.

(** Everything observable that a run does, in order. *)
Inductive Event : Type :=
| CoreInfo (message : string)
| CoreWarning (message : string)
| CoreError (message : string)
| CoreStartGroup (title : string)
| CoreEndGroup
| CoreSetOutput (name value : string)
| CoreSetFailed (message : string)
| ConsoleError (message : string) (e : exn)
| ProcessExit (code : Z)
| ApiValidateAuth
| ApiImportRepository (args : ImportRepositoryArgs)
| ApiRunScan (args : RunScanArgs)
| ApiExportScanResults (args : ExportArgs)
| FsPathExists (path : string)
| FsReadFile (path : string)
| FsWriteFile (path data : string)
| OctokitUploadSarif (args : UploadSarifArgs)
| OctokitListAlerts (owner repo : string).

(** The state a run threads: [process.env] and the history of events. *)
Record World : Type := {
  processEnv : gmap string string;
  history : list Event
}.

Definition M (A : Type) : Type := World -> Completion A * World.

Definition ret {A} (a : A) : M A := fun w => (Return a, w).
Definition throw {A} (e : exn) : M A := fun w => (Throw e, w).
Definition bind {A B} (m : M A) (k : A -> M B) : M B :=
  fun w =>
    match m w with
    | (Return a, w') => k a w'
    | (Throw e, w') => (Throw e, w')
    end.

(** [try { body } catch (error) { handler }] *)
Definition tryCatch {A} (body : M A) (handler : exn -> M A) : M A :=
  fun w =>
    match body w with
    | (Return a, w') => (Return a, w')
    | (Throw e, w') => handler e w'
    end.

Notation "'let!' x ':=' m 'in' k" := (bind m (fun x => k))
  (at level 10, x name, m at level 100, k at level 200).
Notation "m ';;' k" := (bind m (fun _ => k))
  (at level 100, k at level 200, right associativity).

(** [if (c) { m }] *)
Definition when (c : bool) (m : M unit) : M unit := if c then m else ret tt.

Definition emit (e : Event) : M unit :=
  fun w => (Return tt, {| processEnv := processEnv w; history := history w ++ [e] |}).

(** A call to a collaborator: the call is recorded, the answer is the
    collaborator's, which may depend on all that happened before. *)
Definition call {A} (e : Event) (oracle : World -> Completion A) : M A :=
  fun w => (oracle w, {| processEnv := processEnv w; history := history w ++ [e] |}).

(** A pure answer of the runtime that may be an exception. *)
Definition lift {A} (c : Completion A) : M A := fun w => (c, w).

(** [process.env[name] = value] *)
Definition setEnv (name value : string) : M unit :=
  fun w => (Return tt, {| processEnv := <[name := value]> (processEnv w); history := history w |}).

(** [process.env[name]] *)
Definition getEnv (name : string) : M (option string) :=
  fun w => (Return (processEnv w !! name), w).

(** The object returned by [github.getOctokit]. *)
Record Octokit : Type := {
  codeScanning_uploadSarif : World -> UploadSarifArgs -> Completion UploadResult;
  codeScanning_listAlertsForRepo : World -> string -> string -> Completion unit
}.

(** An instance of [CodeThreatApiClient]. *)
Record CodeThreatApiClient : Type := {
  client_validateAuth : World -> Completion unit;
  client_importRepository : World -> ImportRepositoryArgs -> Completion ImportResult;
  client_runScan : World -> RunScanArgs -> Completion ScanResult;
  client_exportScanResults : World -> ExportArgs -> Completion ExportResult
}.

(** The collaborators the repository imports. *)
Record Host : Type := {
  (* @actions/core *)
  getInput : string -> bool -> Completion string;
  getBooleanInput : string -> Completion bool;
  (* @actions/github *)
  context : GithubContext;
  getOctokit : string -> Completion Octokit;
  (* @codethreat/appsec-cli *)
  newCodeThreatApiClient : World -> Completion CodeThreatApiClient;
  (* fs-extra and path *)
  pathExists : World -> string -> Completion bool;
  readFile : World -> string -> Completion string;
  writeFile : World -> string -> string -> Completion unit;
  path_resolve : string -> string;
  (* the JavaScript runtime *)
  JSON_parse : string -> Completion JsValue;
  JSON_stringify : JsValue -> string;
  base64 : string -> string;
  Error_stack : exn -> JsValue;
  (* the Unicode case mapping of text that is not ASCII, and
     [s.substring(0, 1).toUpperCase() + s.substring(1).toLowerCase()] for
     a text [s] whose first character is two UTF-16 units *)
  String_toUpperCase : string -> string;
  String_toLowerCase : string -> string;
  String_capitalize : string -> string
}.

(** ** logger.ts *)

Record Logger : Type := { verbose : bool }.

Section Action.

Variable host : Host.

Definition core_info (message : string) : M unit := emit (CoreInfo message).
Definition core_warning (message : string) : M unit := emit (CoreWarning message).
Definition core_error (message : string) : M unit := emit (CoreError message).

(** [JSON.stringify(data, null, 2)] *)
Definition stringify (data : JsValue) : string := JSON_stringify host data.

Definition dataTruthy (data : option JsValue) : bool :=
  match data with
  | Some d => truthy d
  | None => false
  end.

Definition dataOrUndefined (data : option JsValue) : JsValue :=
  match data with
  | Some d => d
  | None => JUndefined
  end.

(** [new Logger(verbose)]: [verbose ?? core.getBooleanInput('verbose')] *)
Definition Logger_new (v : option bool) : M Logger :=
  match v with
  | Some b => ret {| verbose := b |}
  | None =>
      let! b := lift (getBooleanInput host "verbose") in
      ret {| verbose := b |}
  end.

Definition Logger_info (this : Logger) (message : string) (data : option JsValue) : M unit :=
  core_info message ;;
  when (dataTruthy data && verbose this)
    (core_info ("  Data: " +:+ stringify (dataOrUndefined data))).

Definition Logger_warning (this : Logger) (message : string) (data : option JsValue) : M unit :=
  core_warning message ;;
  when (dataTruthy data && verbose this)
    (core_info ("  Data: " +:+ stringify (dataOrUndefined data))).

Definition Logger_error (this : Logger) (message : string) (data : option JsValue) : M unit :=
  core_error message ;;
  when (dataTruthy data)
    (core_error ("  Error Details: " +:+ stringify (dataOrUndefined data))).

Definition Logger_debug (this : Logger) (message : string) (data : option JsValue) : M unit :=
  when (verbose this)
    (core_info ("[DEBUG] " +:+ message) ;;
     when (dataTruthy data)
       (core_info ("  Debug Data: " +:+ stringify (dataOrUndefined data)))).

Definition Logger_startGroup (this : Logger) (title : string) : M unit :=
  emit (CoreStartGroup title).

Definition Logger_endGroup (this : Logger) : M unit := emit CoreEndGroup.

Definition Logger_isDebugEnabled (this : Logger) : bool := verbose this.

(** [message ? `${stepName}: ${message}` : stepName] *)
Definition fullMessage (stepName : string) (message : option string) : string :=
  match message with
  | Some m => if String.eqb m EmptyString then stepName else stepName +:+ ": " +:+ m
  | None => stepName
  end.

Definition Logger_step (this : Logger) (stepName : string) (message : option string) : M unit :=
  core_info ("🔄 " +:+ fullMessage stepName message).

Definition Logger_success (this : Logger) (stepName : string) (message : option string) : M unit :=
  core_info ("✅ " +:+ fullMessage stepName message).

Definition Logger_failure (this : Logger) (stepName : string) (message : option string) : M unit :=
  core_error ("❌ " +:+ fullMessage stepName message).

(** ** inputs.ts *)

Record ActionInputs : Type := {
  apiKey : string;
  serverUrl : string;
  organizationSlug : string;
  repositoryUrl : string;
  branch : string;
  scanTypes : list string;
  waitForCompletion : bool;
  timeout : jsnum;
  pollInterval : jsnum;
  outputFormat : string;
  outputFile : string;
  uploadSarif : bool;
  failOnCritical : bool;
  failOnHigh : bool;
  maxViolations : jsnum;
  skipImport : bool;
  verboseInput : bool
}.

(** [core.getInput(name)] and [core.getInput(name, { required: true })] *)
Definition core_getInput (name : string) (required : bool) : M string :=
  lift (getInput host name required).

Definition core_getBooleanInput (name : string) : M bool :=
  lift (getBooleanInput host name).

(** [a || b] on strings *)
Definition orElse (a b : string) : string :=
  if String.eqb a EmptyString then b else a.

Definition validFormats : list string := ["json"; "sarif"; "csv"; "xml"; "junit"].

Definition stringIn (s : string) (l : list string) : bool :=
  existsb (String.eqb s) l.

Definition timeoutMessage : string :=
  "Timeout must be between 60 and 86400 seconds (1 minute to 24 hours)".
Definition pollIntervalMessage : string :=
  "Poll interval must be between 10 and 60 seconds".

Definition parseInputs : M ActionInputs :=
  let! logger := Logger_new None in
  let! apiKey := core_getInput "api-key" true in
  when (String.eqb apiKey EmptyString)
    (throw (JsError "API key is required. Please set the api-key input or CT_API_KEY secret.")) ;;
  let! organizationSlug := core_getInput "organization-slug" true in
  when (String.eqb organizationSlug EmptyString)
    (throw (JsError "Organization slug is required. Please provide your CodeThreat organization slug.")) ;;
  let scanTypes : list string := [] in
  let! waitForCompletion := core_getBooleanInput "wait-for-completion" in
  let! uploadSarif := core_getBooleanInput "upload-sarif" in
  let! failOnCritical := core_getBooleanInput "fail-on-critical" in
  let! failOnHigh := core_getBooleanInput "fail-on-high" in
  let! skipImport := core_getBooleanInput "skip-import" in
  let! verbose := core_getBooleanInput "verbose" in
  let! timeoutInput := core_getInput "timeout" false in
  let timeout := parseInt (orElse timeoutInput "43200") in
  let! pollIntervalInput := core_getInput "poll-interval" false in
  let pollInterval := parseInt (orElse pollIntervalInput "30") in
  let! maxViolationsInput := core_getInput "max-violations" false in
  let maxViolations := parseInt (orElse maxViolationsInput "0") in
  when (js_lt timeout (Num 60) || js_gt timeout (Num 86400))
    (throw (JsError timeoutMessage)) ;;
  when (js_lt pollInterval (Num 10) || js_gt pollInterval (Num 60))
    (throw (JsError pollIntervalMessage)) ;;
  let! outputFormatInput := core_getInput "output-format" false in
  let outputFormat := orElse outputFormatInput "sarif" in
  when (negb (stringIn outputFormat validFormats))
    (throw (JsError ("Invalid output format: " +:+ outputFormat +:+ ". Valid formats: "
                     +:+ joinWith ", " validFormats))) ;;
  let! outputFileInput := core_getInput "output-file" false in
  let outputFile :=
    orElse outputFileInput
      ("codethreat-results." +:+
       (if String.eqb outputFormat "junit" then "xml" else outputFormat)) in
  let! repositoryUrlInput := core_getInput "repository-url" false in
  let repositoryUrl :=
    orElse repositoryUrlInput
      ("https://github.com/" +:+ ctx_owner (context host) +:+ "/"
       +:+ ctx_repo (context host) +:+ ".git") in
  let! branchInput := core_getInput "branch" false in
  let branch := orElse branchInput (replace (ctx_ref (context host)) "refs/heads/" "") in
  let! serverUrl := core_getInput "server-url" true in
  let inputs := {|
    apiKey := apiKey;
    serverUrl := serverUrl;
    organizationSlug := organizationSlug;
    repositoryUrl := repositoryUrl;
    branch := branch;
    scanTypes := scanTypes;
    waitForCompletion := waitForCompletion;
    timeout := timeout;
    pollInterval := pollInterval;
    outputFormat := outputFormat;
    outputFile := outputFile;
    uploadSarif := uploadSarif;
    failOnCritical := failOnCritical;
    failOnHigh := failOnHigh;
    maxViolations := maxViolations;
    skipImport := skipImport;
    verboseInput := verbose
  |} in
  Logger_debug logger "Parsed action inputs"
    (Some (JObj [("serverUrl", JStr serverUrl);
                 ("repositoryUrl", JStr repositoryUrl);
                 ("branch", JStr branch);
                 ("scanTypes", JArr (List.map JStr scanTypes));
                 ("outputFormat", JStr outputFormat);
                 ("waitForCompletion", JBool waitForCompletion);
                 ("timeout", JNum timeout);
                 ("apiKeySet", JBool (negb (String.eqb apiKey EmptyString)))])) ;;
  ret inputs.

(** ** sarif-uploader.ts *)

Definition dquote : string := String (ascii_of_nat 34) EmptyString.
Definition nl : string := String (ascii_of_nat 10) EmptyString.

Record SarifUploader : Type := {
  su_logger : Logger;
  su_octokit : Octokit
}.

Definition githubTokenMessage : string :=
  "GitHub token is required for SARIF upload. Please add " +:+ dquote
  +:+ "github-token: ${{ secrets.GITHUB_TOKEN }}" +:+ dquote
  +:+ " to action inputs or ensure proper permissions are set.".

(** [core.getInput('github-token') || process.env.GITHUB_TOKEN] *)
Definition resolveToken (input : string) (env : option string) : option string :=
  if String.eqb input EmptyString then env else Some input.

Definition SarifUploader_new (logger : Logger) : M SarifUploader :=
  let! input := core_getInput "github-token" false in
  let! env := getEnv "GITHUB_TOKEN" in
  let token := resolveToken input env in
  match token with
  | Some t =>
      if String.eqb t EmptyString then throw (JsError githubTokenMessage)
      else
        let! octokit := lift (getOctokit host t) in
        ret {| su_logger := logger; su_octokit := octokit |}
  | None => throw (JsError githubTokenMessage)
  end.

(** [v.k] for the property names the action reads ([$schema], [version],
    [runs], [results], [violations], [type]), none of which is built in:
    reading a property of [undefined] or [null] throws a TypeError, a
    value that is not an object has no such property. *)
Definition getProp (v : JsValue) (k : string) : M JsValue :=
  match v with
  | JUndefined =>
      throw (JsError ("Cannot read properties of undefined (reading '" +:+ k +:+ "')"))
  | JNull =>
      throw (JsError ("Cannot read properties of null (reading '" +:+ k +:+ "')"))
  | JObj fields => ret (lookupField fields k)
  | _ => ret JUndefined
  end.

(** The callback of [sarifData.runs.reduce(..., 0)], run over the list. *)
Fixpoint countResults (runs : list JsValue) (sum : Z) : M Z :=
  match runs with
  | [] => ret sum
  | run :: rest =>
      let! results := getProp run "results" in
      countResults rest
        (sum + match results with
               | JArr items => Z.of_nat (List.length items)
               | _ => 0
               end)
  end.

Definition noRunsWarning : string :=
  "SARIF file contains no runs - this may indicate no results were found".

Definition validateSarifFormat (this : SarifUploader) (sarifData : JsValue) : M unit :=
  let! schema := getProp sarifData "$schema" in
  when (negb (truthy schema))
    (throw (JsError "Invalid SARIF: Missing $schema property")) ;;
  let! version := getProp sarifData "version" in
  when (negb (truthy version))
    (throw (JsError "Invalid SARIF: Missing version property")) ;;
  let! runs := getProp sarifData "runs" in
  match runs with
  | JArr items =>
      when (Nat.eqb (List.length items) 0)
        (Logger_warning (su_logger this) noRunsWarning None) ;;
      let! totalResults := countResults items 0 in
      Logger_debug (su_logger this) "SARIF validation passed"
        (Some (JObj [("version", version);
                     ("runs", JNum (Num (Z.of_nat (List.length items))));
                     ("totalResults", JNum (Num totalResults))]))
  | _ => throw (JsError "Invalid SARIF: Missing or invalid runs array")
  end.

Definition advancedSecurityMessage : string :=
  "GitHub Advanced Security is required for SARIF upload. Please enable it in repository settings or set upload-sarif: false".

Definition SarifUploader_uploadSarif (this : SarifUploader) (sarifFilePath : string) : M unit :=
  tryCatch
    (let! found := call (FsPathExists sarifFilePath)
                        (fun w => pathExists host w sarifFilePath) in
     when (negb found)
       (throw (JsError ("SARIF file not found: " +:+ sarifFilePath))) ;;
     let! sarifContent := call (FsReadFile sarifFilePath)
                               (fun w => readFile host w sarifFilePath) in
     let! sarifData := lift (JSON_parse host sarifContent) in
     validateSarifFormat this sarifData ;;
     let sarifBase64 := base64 host sarifContent in
     Logger_step (su_logger this) "SARIF Upload" (Some "Uploading to GitHub Code Scanning API") ;;
     let args := {|
       us_owner := ctx_owner (context host);
       us_repo := ctx_repo (context host);
       us_commit_sha := ctx_sha (context host);
       us_ref := ctx_ref (context host);
       us_sarif := sarifBase64;
       us_tool_name := "CodeThreat"
     |} in
     let! uploadResult := call (OctokitUploadSarif args)
                               (fun w => codeScanning_uploadSarif (su_octokit this) w args) in
     Logger_debug (su_logger this) "SARIF upload response"
       (Some (JObj [("id", JStr (upload_id uploadResult));
                    ("url", JStr (upload_url uploadResult))])) ;;
     Logger_info (su_logger this) "✅ SARIF uploaded successfully" None ;;
     Logger_info (su_logger this) ("Upload ID: " +:+ upload_id uploadResult) None ;;
     let securityTabUrl :=
       "https://github.com/" +:+ ctx_owner (context host) +:+ "/"
       +:+ ctx_repo (context host) +:+ "/security/code-scanning" in
     Logger_info (su_logger this) ("View results: " +:+ securityTabUrl) None)
    (fun error =>
       match error with
       | JsError m =>
           if includes m "Advanced Security"
           then throw (JsError advancedSecurityMessage)
           else throw (JsError ("SARIF upload failed: " +:+ errorMessage error))
       | Thrown => throw (JsError ("SARIF upload failed: " +:+ errorMessage error))
       end).

Definition SarifUploader_checkAdvancedSecurityStatus (this : SarifUploader) : M bool :=
  tryCatch
    (let owner := ctx_owner (context host) in
     let repo := ctx_repo (context host) in
     call (OctokitListAlerts owner repo)
          (fun w => codeScanning_listAlertsForRepo (su_octokit this) w owner repo) ;;
     ret true)
    (fun error =>
       match error with
       | JsError m => if includes m "Advanced Security" then ret false else ret true
       | Thrown => ret true
       end).

(** ** outputs.ts *)

(** [Omit<ActionOutputs, 'repositoryId' | 'scanId'>] *)
Record ScanResults : Type := {
  resultsFile : option string;
  violationCount : jsnum;
  criticalCount : jsnum;
  highCount : jsnum;
  mediumCount : jsnum;
  lowCount : jsnum;
  securityScore : option jsnum;
  scanDuration : option jsnum;
  scanUrl : option string
}.

(** [ActionOutputs]; the object [{ ...results, repositoryId, scanId }] that
    [execute] returns is [{| scanId; repositoryId; results |}]. *)
Record ActionOutputs : Type := {
  scanId : string;
  repositoryId : string;
  results : ScanResults
}.

(** [if (s) { body(s) }] on an optional string *)
Definition whenString (s : option string) (body : string -> M unit) : M unit :=
  match s with
  | Some v => when (negb (String.eqb v EmptyString)) (body v)
  | None => ret tt
  end.

Definition core_setOutput (name value : string) : M unit := emit (CoreSetOutput name value).

Definition setOutputs (outputs : ActionOutputs) : M unit :=
  let r := results outputs in
  core_setOutput "scan-id" (scanId outputs) ;;
  core_setOutput "repository-id" (repositoryId outputs) ;;
  core_setOutput "violation-count" (Number_toString (violationCount r)) ;;
  core_setOutput "critical-count" (Number_toString (criticalCount r)) ;;
  core_setOutput "high-count" (Number_toString (highCount r)) ;;
  core_setOutput "medium-count" (Number_toString (mediumCount r)) ;;
  core_setOutput "low-count" (Number_toString (lowCount r)) ;;
  whenString (resultsFile r) (core_setOutput "results-file") ;;
  match securityScore r with
  | Some n => core_setOutput "security-score" (Number_toString n)
  | None => ret tt
  end ;;
  match scanDuration r with
  | Some n => core_setOutput "scan-duration" (Number_toString n)
  | None => ret tt
  end ;;
  whenString (scanUrl r) (core_setOutput "scan-url").

(** ** action.ts *)

Record CodeThreatAction : Type := {
  inputs : ActionInputs;
  logger : Logger;
  apiClient : CodeThreatApiClient;
  sarifUploader : SarifUploader
}.

Definition setupEnvironment (inputs : ActionInputs) : M unit :=
  setEnv "CT_API_KEY" (apiKey inputs) ;;
  setEnv "CT_SERVER_URL" (serverUrl inputs) ;;
  setEnv "CT_ORG_SLUG" (organizationSlug inputs) ;;
  when (verboseInput inputs) (setEnv "CT_VERBOSE" "true") ;;
  setEnv "CT_COLORS" "false".

Definition CodeThreatAction_new (inputs : ActionInputs) (logger : Logger) : M CodeThreatAction :=
  setupEnvironment inputs ;;
  let! apiClient := (fun w => (newCodeThreatApiClient host w, w)) in
  let! sarifUploader := SarifUploader_new logger in
  ret {| inputs := inputs; logger := logger;
         apiClient := apiClient; sarifUploader := sarifUploader |}.

Definition validateAuthentication (this : CodeThreatAction) : M unit :=
  tryCatch
    (Logger_step (logger this) "Validating API credentials" None ;;
     call ApiValidateAuth (client_validateAuth (apiClient this)) ;;
     Logger_info (logger this) "✅ Authentication validated successfully" None)
    (fun error => throw (JsError ("Authentication failed: " +:+ errorMessage error))).

(** The value [normalizeGitHubUrl] computes for a non-empty [url]. *)
Definition normalizedUrl (url : string) : string :=
  let url := replacePrefix url "git://" "https://" in
  let url := replacePrefix url "git@github.com:" "https://github.com/" in
  let url :=
    if negb (startsWith url "https://") && negb (startsWith url "http://")
    then (if startsWith url "github.com" then "https://" +:+ url else url)
    else url in
  if negb (endsWith url ".git") then url +:+ ".git" else url.

Definition normalizeGitHubUrl (this : CodeThreatAction) (url : string) : M string :=
  if String.eqb url EmptyString then ret url
  else
    let normalized := normalizedUrl url in
    Logger_debug (logger this) "URL normalized"
      (Some (JObj [("original", JStr url); ("normalized", JStr normalized)])) ;;
    ret normalized.

(** [/github\.com[:/][\w-]+\/([\w-]+)/] tried at the start of [s]; the
    capture on success.  Both [[\w-]+] are greedy and what may follow them
    is outside the class, so each takes the longest run. *)
Definition matchGithubHere (s : string) : option string :=
  if startsWith s "github.com" then
    match substringFrom 10 s with
    | String c rest =>
        if Ascii.eqb c ":" || Ascii.eqb c "/" then
          match spanWordDash rest with
          | (String _ _, String "/" rest') =>
              match spanWordDash rest' with
              | (String c1 name, _) => Some (String c1 name)
              | (EmptyString, _) => None
              end
          | _ => None
          end
        else None
    | EmptyString => None
    end
  else None.

(** [s.match(/github\.com[:/][\w-]+\/([\w-]+)/)]: the leftmost match. *)
Fixpoint matchGithub (s : string) : option string :=
  match matchGithubHere s with
  | Some name => Some name
  | None =>
      match s with
      | EmptyString => None
      | String _ s' => matchGithub s'
      end
  end.

(** The URL once the extension, the protocol and [git@] are removed. *)
Definition cleanUrl (url : string) : string :=
  let clean := stripSuffix url ".git" in
  let clean :=
    if startsWith clean "https://" then substringFrom 8 clean
    else if startsWith clean "http://" then substringFrom 7 clean
    else if startsWith clean "git://" then substringFrom 6 clean
    else if startsWith clean "ssh://" then substringFrom 6 clean
    else clean in
  replacePrefix clean "git@" "".

(** [cleanUrl.split('/').filter(s => s.length > 0)] *)
Definition segments (clean : string) : list string :=
  List.filter (fun s => negb (String.eqb s EmptyString)) (split clean "/").

Definition extractRepoName (url : string) : string :=
  if String.eqb url EmptyString then "unknown-repository"
  else
    let clean := cleanUrl url in
    match matchGithub clean with
    | Some name => name
    | None =>
        match List.rev (segments clean) with
        | name :: _ => name
        | [] => "unknown-repository"
        end
    end.

Definition importFailedMessage (this : CodeThreatAction) (errorMessage normalizedUrl : string) : string :=
  "Repository import failed: " +:+ errorMessage +:+ nl
  +:+ nl +:+ "Original URL: " +:+ repositoryUrl (inputs this)
  +:+ nl +:+ "Normalized URL: " +:+ normalizedUrl
  +:+ nl +:+ "Organization: " +:+ organizationSlug (inputs this)
  +:+ nl +:+ nl +:+ "💡 Troubleshooting:"
  +:+ nl +:+ "1. Verify the repository URL is correct"
  +:+ nl +:+ "2. Check that the organization slug is correct"
  +:+ nl +:+ "3. Ensure your API key has permission to import repositories"
  +:+ nl +:+ "4. Import the repository manually via CodeThreat web interface first"
  +:+ nl +:+ "5. Make sure the repository exists in your CodeThreat organization"
  +:+ nl +:+ nl +:+ "🔗 The backend supports flexible URL matching for GitHub repositories.".

Definition setupRepository (this : CodeThreatAction) : M string :=
  tryCatch
    (let! normalizedUrl := normalizeGitHubUrl this (repositoryUrl (inputs this)) in
     Logger_step (logger this) "Repository Setup" (Some ("Finding repository: " +:+ normalizedUrl)) ;;
     tryCatch
       (let args := {|
          ira_url := normalizedUrl;
          ira_organizationSlug := organizationSlug (inputs this);
          ira_name := extractRepoName normalizedUrl;
          ira_branch := branch (inputs this);
          ira_provider := "github";
          ira_autoScan := false;
          ira_scanTypes := [];
          ira_isPrivate := false
        |} in
        let! importResult := call (ApiImportRepository args)
                                  (fun w => client_importRepository (apiClient this) w args) in
        let repo := repository importResult in
        if alreadyExists importResult then
          Logger_info (logger this) ("✅ Repository found in organization: " +:+ repo_name repo) None ;;
          Logger_info (logger this) ("   Repository ID: " +:+ repo_id repo) None ;;
          when (skipImport (inputs this))
            (Logger_debug (logger this) "Skip import enabled - using existing repository" None) ;;
          Logger_debug (logger this) "Repository details"
            (Some (JObj [("id", JStr (repo_id repo));
                         ("name", JStr (repo_name repo));
                         ("fullName", JStr (repo_fullName repo));
                         ("provider", JStr (repo_provider repo));
                         ("url", JStr (repo_url repo))])) ;;
          ret (repo_id repo)
        else
          Logger_warning (logger this)
            "⚠️ Repository was auto-imported - this means it wasn't pre-imported in CodeThreat" None ;;
          Logger_info (logger this) ("✅ Repository created: " +:+ repo_name repo) None ;;
          Logger_info (logger this) ("   Repository ID: " +:+ repo_id repo) None ;;
          Logger_info (logger this)
            "   💡 Tip: Pre-import repositories via CodeThreat web interface for better organization" None ;;
          Logger_debug (logger this) "New repository details"
            (Some (JObj [("id", JStr (repo_id repo));
                         ("name", JStr (repo_name repo));
                         ("provider", JStr (repo_provider repo))])) ;;
          ret (repo_id repo))
       (fun importError =>
          throw (JsError (importFailedMessage this (errorMessage importError) normalizedUrl))))
    (fun error => throw (JsError ("Repository setup failed: " +:+ errorMessage error))).

(** [s.toUpperCase()] and [s.toLowerCase()]: ASCII text is mapped letter by
    letter; the case mapping of any other text is the runtime's. *)
Definition toUpperCase (s : string) : string :=
  if isAscii s then upperAscii s else String_toUpperCase host s.
Definition toLowerCase (s : string) : string :=
  if isAscii s then lowerAscii s else String_toLowerCase host s.

(** [type.substring(0, 1).toUpperCase() + type.substring(1).toLowerCase()]:
    [substring] counts UTF-16 units. *)
Definition capitalize (type : string) : string :=
  match type with
  | EmptyString => EmptyString
  | String c _ =>
      match firstUnitLength c with
      | Some n => toUpperCase (String.substring 0 n type) +:+ toLowerCase (substringFrom n type)
      | None => String_capitalize host type
      end
  end.

Definition getViolationTypeFriendlyName (type : string) : string :=
  let upper := toUpperCase type in
  if String.eqb upper "SCA" then "📦 Dependencies"
  else if String.eqb upper "SAST" || String.eqb upper "AGENTIC_SAST" then "🔒 Security Issues"
  else if String.eqb upper "SECRET" || String.eqb upper "SECRETS" then "🔑 Secrets"
  else if String.eqb upper "IAC" then "☁️ Infrastructure"
  else if String.eqb upper "SBOM" then "📋 Software Bill of Materials"
  else capitalize type.

(** [typeBreakdown[type] = (typeBreakdown[type] || 0) + 1] on the record of
    counts, kept in insertion order (the order of [Object.entries] for keys
    that are not array indices). *)
Fixpoint countType (typeBreakdown : list (string * Z)) (type : string) : list (string * Z) :=
  match typeBreakdown with
  | [] => [(type, 1)]
  | (k, n) :: rest =>
      if String.eqb k type then (k, n + 1) :: rest
      else (k, n) :: countType rest type
  end.

(** [results.violations.forEach(violation => ...)] *)
Fixpoint countViolations (violations : list JsValue) (typeBreakdown : list (string * Z))
  : M (list (string * Z)) :=
  match violations with
  | [] => ret typeBreakdown
  | violation :: rest =>
      let! t := getProp violation "type" in
      let type := if truthy t then ToString t else "UNKNOWN" in
      countViolations rest (countType typeBreakdown type)
  end.

(** [Object.entries(typeBreakdown).forEach(([type, count]) => ...)] *)
Definition logBreakdown (this : CodeThreatAction) : list (string * Z) -> M unit :=
  fix each (entries : list (string * Z)) : M unit :=
    match entries with
    | [] => ret tt
    | (type, count) :: rest =>
        let friendlyName := getViolationTypeFriendlyName type in
        Logger_info (logger this) ("   " +:+ friendlyName +:+ ": " +:+ Z_toString count) None ;;
        each rest
    end.

(** [x || 0] on an optional number *)
Definition orZero (x : option jsnum) : jsnum :=
  match x with
  | Some (Num z) => Num z
  | Some NaN | None => Num 0
  end.

(** The inner [try] block of [executeScan]: the best-effort breakdown of
    the violations by type. *)
Definition logViolationTypes (this : CodeThreatAction) (scanResult : ScanResult) : M unit :=
  tryCatch
    (let args := {|
       ea_scanId := scan_id scanResult;
       ea_format := "json";
       ea_includeMetadata := true;
       ea_includeFixed := None;
       ea_includeSuppressed := None
     |} in
     let! detailedResults := call (ApiExportScanResults args)
                                  (fun w => client_exportScanResults (apiClient this) w args) in
     let results := er_results detailedResults in
     match results with
     | JArr _ | JObj _ =>
         let! violations := getProp results "violations" in
         match violations with
         | JArr items =>
             let! typeBreakdown := countViolations items [] in
             when (negb (Nat.eqb (List.length typeBreakdown) 0))
               (Logger_info (logger this) "📊 Violation Types:" None ;;
                logBreakdown this typeBreakdown)
         | _ => ret tt
         end
     | _ => ret tt
     end)
    (fun error =>
       Logger_debug (logger this) "Could not fetch violation type breakdown"
         (Some (JObj [("error", JStr (errorMessage error))]))).

Definition executeScan (this : CodeThreatAction) (repositoryId : string) : M string :=
  tryCatch
    (Logger_step (logger this) "Scan Execution" (Some "Starting comprehensive security scan") ;;
     let args := {|
       rsa_repositoryId := repositoryId;
       rsa_organizationSlug := organizationSlug (inputs this);
       rsa_branch := branch (inputs this);
       rsa_scanTypes := [];
       rsa_wait := waitForCompletion (inputs this);
       rsa_timeout := timeout (inputs this);
       rsa_pollInterval := pollInterval (inputs this);
       rsa_scanTrigger := "github_actions";
       rsa_commitSha := ctx_sha (context host);
       rsa_metadata :=
         [("github.actor", ctx_actor (context host));
          ("github.workflow", ctx_workflow (context host));
          ("github.run_id", Number_toString (ctx_runId (context host)));
          ("github.event_name", ctx_eventName (context host))]
     |} in
     let! scanResult := call (ApiRunScan args)
                             (fun w => client_runScan (apiClient this) w args) in
     (if synchronous scanResult then
        Logger_info (logger this)
          ("✅ Scan completed in " +:+ Number_toString (orZero (duration scanResult)) +:+ " seconds")
          None ;;
        match scan_results scanResult with
        | Some counts =>
            Logger_info (logger this)
              ("Violations found: " +:+ Number_toString (sc_total counts)
               +:+ " (Critical: " +:+ Number_toString (sc_critical counts)
               +:+ ", High: " +:+ Number_toString (sc_high counts) +:+ ")") None ;;
            logViolationTypes this scanResult
        | None => ret tt
        end
      else
        Logger_info (logger this) "✅ Scan started asynchronously" None ;;
        Logger_warning (logger this)
          "Consider setting wait-for-completion: true for CI/CD workflows" None) ;;
     ret (scan_id scanResult))
    (fun error => throw (JsError ("Scan execution failed: " +:+ errorMessage error))).

Definition generateScanUrl (this : CodeThreatAction) (scanId repositoryId : string) : string :=
  let baseUrl := replace (replace (serverUrl (inputs this)) "/api" "") "api." "app." in
  baseUrl +:+ "/" +:+ organizationSlug (inputs this) +:+ "/scans/" +:+ scanId.

Definition emptySummary : Summary :=
  {| total := Num 0; critical := Num 0; high := Num 0; medium := Num 0; low := Num 0 |}.

Definition processResults (this : CodeThreatAction) (scanId : string) : M ScanResults :=
  tryCatch
    (Logger_step (logger this) "Results Export"
       (Some ("Exporting in " +:+ outputFormat (inputs this) +:+ " format")) ;;
     let args := {|
       ea_scanId := scanId;
       ea_format := outputFormat (inputs this);
       ea_includeMetadata := true;
       ea_includeFixed := Some false;
       ea_includeSuppressed := Some false
     |} in
     let! scanResults := call (ApiExportScanResults args)
                              (fun w => client_exportScanResults (apiClient this) w args) in
     let outputPath := path_resolve host (outputFile (inputs this)) in
     let resultsData :=
       match er_results scanResults with
       | JStr text => text
       | other => stringify other
       end in
     call (FsWriteFile outputPath resultsData)
          (fun w => writeFile host w outputPath resultsData) ;;
     Logger_info (logger this) ("✅ Results saved to: " +:+ outputPath) None ;;
     let summary := default emptySummary (er_summary scanResults) in
     let scanUrl := generateScanUrl this scanId (er_repositoryId scanResults) in
     ret {|
       resultsFile := Some outputPath;
       violationCount := total summary;
       criticalCount := critical summary;
       highCount := high summary;
       mediumCount := medium summary;
       lowCount := low summary;
       securityScore := er_securityScore scanResults;
       scanDuration := er_scanDuration scanResults;
       scanUrl := Some scanUrl
     |})
    (fun error => throw (JsError ("Results processing failed: " +:+ errorMessage error))).

Definition uploadSarifResults (this : CodeThreatAction) (resultsFile : string) : M unit :=
  tryCatch
    (Logger_step (logger this) "SARIF Upload" (Some "Uploading to GitHub Security tab") ;;
     SarifUploader_uploadSarif (sarifUploader this) resultsFile ;;
     Logger_info (logger this) "✅ SARIF results uploaded successfully" None ;;
     Logger_info (logger this) "Results will appear in the GitHub Security tab" None)
    (fun error =>
       Logger_warning (logger this) ("SARIF upload failed: " +:+ errorMessage error) None ;;
       Logger_info (logger this) "Scan results are still available in the output file" None).

Definition criticalMessage (criticalCount : jsnum) : string :=
  "Build failed: " +:+ Number_toString criticalCount +:+ " critical vulnerabilities found".
Definition highMessage (highCount : jsnum) : string :=
  "Build failed: " +:+ Number_toString highCount +:+ " high severity vulnerabilities found".
Definition maxViolationsMessage (violationCount maxViolations : jsnum) : string :=
  "Build failed: " +:+ Number_toString violationCount
  +:+ " violations exceed maximum allowed (" +:+ Number_toString maxViolations +:+ ")".

Definition checkFailureConditions (this : CodeThreatAction) (results : ScanResults) : M unit :=
  let criticalCount := criticalCount results in
  let highCount := highCount results in
  let violationCount := violationCount results in
  when (failOnCritical (inputs this) && js_gt criticalCount (Num 0))
    (throw (JsError (criticalMessage criticalCount))) ;;
  when (failOnHigh (inputs this) && js_gt highCount (Num 0))
    (throw (JsError (highMessage highCount))) ;;
  when (js_gt (maxViolations (inputs this)) (Num 0)
        && js_gt violationCount (maxViolations (inputs this)))
    (throw (JsError (maxViolationsMessage violationCount (maxViolations (inputs this))))) ;;
  when (js_eq criticalCount (Num 0))
    (Logger_info (logger this) "✅ No critical vulnerabilities found" None) ;;
  when (js_eq highCount (Num 0) || negb (failOnHigh (inputs this)))
    (Logger_info (logger this)
       ("✅ High severity check passed (" +:+ Number_toString highCount
        +:+ " found, fail-on-high: " +:+ Boolean_toString (failOnHigh (inputs this)) +:+ ")")
       None) ;;
  when (js_gt (maxViolations (inputs this)) (Num 0))
    (Logger_info (logger this)
       ("✅ Violation count check passed (" +:+ Number_toString violationCount
        +:+ "/" +:+ Number_toString (maxViolations (inputs this)) +:+ ")") None).

Definition execute (this : CodeThreatAction) : M ActionOutputs :=
  tryCatch
    (Logger_startGroup (logger this) "🔐 Authentication" ;;
     validateAuthentication this ;;
     Logger_success (logger this) "Authentication" (Some "Valid") ;;
     Logger_endGroup (logger this) ;;
     Logger_startGroup (logger this) "📁 Repository Setup" ;;
     let! repositoryId := setupRepository this in
     Logger_success (logger this) "Repository Setup" (Some ("Repository ID: " +:+ repositoryId)) ;;
     Logger_endGroup (logger this) ;;
     Logger_startGroup (logger this) "🔍 Security Scan" ;;
     let! scanId := executeScan this repositoryId in
     Logger_success (logger this) "Security Scan" (Some ("Scan ID: " +:+ scanId)) ;;
     Logger_endGroup (logger this) ;;
     Logger_startGroup (logger this) "📊 Results Processing" ;;
     let! results := processResults this scanId in
     Logger_success (logger this) "Results Processing"
       (Some (Number_toString (violationCount results) +:+ " violations found")) ;;
     Logger_endGroup (logger this) ;;
     when (uploadSarif (inputs this) && String.eqb (outputFormat (inputs this)) "sarif")
       (whenString (resultsFile results)
          (fun file =>
             Logger_startGroup (logger this) "📤 SARIF Upload" ;;
             uploadSarifResults this file ;;
             Logger_success (logger this) "SARIF Upload"
               (Some "Results uploaded to GitHub Security tab") ;;
             Logger_endGroup (logger this))) ;;
     checkFailureConditions this results ;;
     ret {| scanId := scanId; repositoryId := repositoryId; results := results |})
    (fun error =>
       Logger_error (logger this) "Action execution failed"
         (Some (JObj [("error", JStr (errorMessage error))])) ;;
       throw error).

(** ** index.ts *)

(** [if (n) { body(n) }] on an optional number *)
Definition whenNumber (n : option jsnum) (body : jsnum -> M unit) : M unit :=
  match n with
  | Some v => when (truthy (JNum v)) (body v)
  | None => ret tt
  end.

Definition run : M unit :=
  let! logger := Logger_new None in
  tryCatch
    (Logger_info logger "🚀 Starting CodeThreat Security Scan Action" None ;;
     Logger_info logger
       ("Repository: " +:+ ctx_owner (context host) +:+ "/" +:+ ctx_repo (context host)) None ;;
     Logger_info logger ("Branch: " +:+ ctx_ref (context host)) None ;;
     Logger_info logger ("Event: " +:+ ctx_eventName (context host)) None ;;
     let! inputs := parseInputs in
     Logger_debug logger "Action inputs parsed successfully"
       (Some (JObj [("scanTypes", JArr (List.map JStr (scanTypes inputs)));
                    ("outputFormat", JStr (outputFormat inputs));
                    ("waitForCompletion", JBool (waitForCompletion inputs))])) ;;
     let! action := CodeThreatAction_new inputs logger in
     let! outputs := execute action in
     setOutputs outputs ;;
     Logger_info logger "✅ CodeThreat Security Scan completed successfully" None ;;
     Logger_info logger ("Scan ID: " +:+ scanId outputs) None ;;
     Logger_info logger
       ("Violations: " +:+ Number_toString (violationCount (results outputs))
        +:+ " (Critical: " +:+ Number_toString (criticalCount (results outputs))
        +:+ ", High: " +:+ Number_toString (highCount (results outputs)) +:+ ")") None ;;
     whenNumber (securityScore (results outputs))
       (fun score =>
          Logger_info logger ("Security Score: " +:+ Number_toString score +:+ "/100") None) ;;
     whenString (resultsFile (results outputs))
       (fun file => Logger_info logger ("Results saved to: " +:+ file) None) ;;
     whenString (scanUrl (results outputs))
       (fun url => Logger_info logger ("View detailed results: " +:+ url) None))
    (fun error =>
       let errorStack :=
         match error with
         | JsError _ => Error_stack host error
         | Thrown => JUndefined
         end in
       Logger_error logger "❌ CodeThreat Security Scan failed"
         (Some (JObj [("error", JStr (errorMessage error))])) ;;
       when (Logger_isDebugEnabled logger)
         (Logger_debug logger "Error stack trace" (Some (JObj [("stack", errorStack)]))) ;;
       emit (CoreSetFailed (errorMessage error))).

(** The module body: [run().catch(error => { console.error(...); process.exit(1) })] *)
Definition main : M unit :=
  tryCatch run
    (fun error =>
       emit (ConsoleError "Fatal error in action execution:" error) ;;
       emit (ProcessExit 1)).

End Action.

(** * Specification vocabulary *)

(** ** Inputs of a run *)

(** The texts and flags the Actions runtime hands to [parseInputs]. *)
Record RawInputs : Type := {
  raw_verbose : bool;
  raw_apiKey : string;
  raw_organizationSlug : string;
  raw_waitForCompletion : bool;
  raw_uploadSarif : bool;
  raw_failOnCritical : bool;
  raw_failOnHigh : bool;
  raw_skipImport : bool;
  raw_timeout : string;
  raw_pollInterval : string;
  raw_maxViolations : string;
  raw_outputFormat : string;
  raw_outputFile : string;
  raw_repositoryUrl : string;
  raw_branch : string;
  raw_serverUrl : string
}.

(** [host] answers every input that [parseInputs] reads with the value
    recorded in [raw]. *)
Definition supplies (host : Host) (raw : RawInputs) : Prop :=
  getBooleanInput host "verbose" = Return (raw_verbose raw) /\
  getInput host "api-key" true = Return (raw_apiKey raw) /\
  getInput host "organization-slug" true = Return (raw_organizationSlug raw) /\
  getBooleanInput host "wait-for-completion" = Return (raw_waitForCompletion raw) /\
  getBooleanInput host "upload-sarif" = Return (raw_uploadSarif raw) /\
  getBooleanInput host "fail-on-critical" = Return (raw_failOnCritical raw) /\
  getBooleanInput host "fail-on-high" = Return (raw_failOnHigh raw) /\
  getBooleanInput host "skip-import" = Return (raw_skipImport raw) /\
  getInput host "timeout" false = Return (raw_timeout raw) /\
  getInput host "poll-interval" false = Return (raw_pollInterval raw) /\
  getInput host "max-violations" false = Return (raw_maxViolations raw) /\
  getInput host "output-format" false = Return (raw_outputFormat raw) /\
  getInput host "output-file" false = Return (raw_outputFile raw) /\
  getInput host "repository-url" false = Return (raw_repositoryUrl raw) /\
  getInput host "branch" false = Return (raw_branch raw) /\
  getInput host "server-url" true = Return (raw_serverUrl raw).

(** What does not depend on the numeric inputs is in order: the required
    texts are there and the output format is a known one. *)
Definition wellFormed (raw : RawInputs) : Prop :=
  raw_apiKey raw <> EmptyString /\
  raw_organizationSlug raw <> EmptyString /\
  stringIn (orElse (raw_outputFormat raw) "sarif") validFormats = true.

Definition timeoutOf (raw : RawInputs) : jsnum := parseInt (orElse (raw_timeout raw) "43200").
Definition pollIntervalOf (raw : RawInputs) : jsnum := parseInt (orElse (raw_pollInterval raw) "30").
Definition maxViolationsOf (raw : RawInputs) : jsnum := parseInt (orElse (raw_maxViolations raw) "0").

(** The configuration that corresponds to [raw]: every field is the input,
    parsed, or its default. *)
Definition configOf (ctx : GithubContext) (raw : RawInputs) : ActionInputs :=
  let format := orElse (raw_outputFormat raw) "sarif" in
  {| apiKey := raw_apiKey raw;
     serverUrl := raw_serverUrl raw;
     organizationSlug := raw_organizationSlug raw;
     repositoryUrl :=
       orElse (raw_repositoryUrl raw)
         ("https://github.com/" +:+ ctx_owner ctx +:+ "/" +:+ ctx_repo ctx +:+ ".git");
     branch := orElse (raw_branch raw) (replace (ctx_ref ctx) "refs/heads/" "");
     scanTypes := [];
     waitForCompletion := raw_waitForCompletion raw;
     timeout := timeoutOf raw;
     pollInterval := pollIntervalOf raw;
     outputFormat := format;
     outputFile :=
       orElse (raw_outputFile raw)
         ("codethreat-results." +:+ (if String.eqb format "junit" then "xml" else format));
     uploadSarif := raw_uploadSarif raw;
     failOnCritical := raw_failOnCritical raw;
     failOnHigh := raw_failOnHigh raw;
     maxViolations := maxViolationsOf raw;
     skipImport := raw_skipImport raw;
     verboseInput := raw_verbose raw |}.

(** [s] is the decimal numeral of [n], or any other non-empty text that
    [parseInt] reads as [n]. *)
Definition integerText (s : string) (n : Z) : Prop :=
  s = Z_toString n \/ (s <> EmptyString /\ parseInt s = Num n).

(** After white space and one optional sign, [s] goes on with a decimal
    digit. *)
Definition beginsWithDigit (s : string) : bool :=
  match trimStart s with
  | String c rest =>
      if Ascii.eqb c "-" || Ascii.eqb c "+"
      then match rest with
           | String d _ => isDigit d
           | EmptyString => false
           end
      else isDigit c
  | EmptyString => false
  end.

(** A non-empty text that does not parse as an integer. *)
Definition nonNumeric (s : string) : Prop :=
  s <> EmptyString /\ beginsWithDigit s = false.

(** A parsed number that passes a range check: in range, or [NaN]. *)
Definition passesRange (lo hi : Z) (x : jsnum) : Prop :=
  match x with
  | Num z => lo <= z <= hi
  | NaN => True
  end.

(** The outcome of [parseInputs] on a host that supplies [raw]. *)
Definition parseOutcome (ctx : GithubContext) (raw : RawInputs) : Completion ActionInputs :=
  if js_lt (timeoutOf raw) (Num 60) || js_gt (timeoutOf raw) (Num 86400)
  then Throw (JsError timeoutMessage)
  else if js_lt (pollIntervalOf raw) (Num 10) || js_gt (pollIntervalOf raw) (Num 60)
  then Throw (JsError pollIntervalMessage)
  else Return (configOf ctx raw).

(** ** Effects *)

Definition isLog (e : Event) : Prop :=
  match e with
  | CoreInfo _ | CoreWarning _ | CoreError _ | CoreStartGroup _ | CoreEndGroup => True
  | _ => False
  end.

Definition addEvents (w : World) (evs : list Event) : World :=
  {| processEnv := processEnv w; history := (history w ++ evs)%list |}.

(** A computation that only logs: it returns, leaves [process.env] alone
    and appends log events. *)
Definition logged (m : M unit) : Prop :=
  forall w, exists evs, m w = (Return tt, addEvents w evs) /\ Forall isLog evs.

(** ** URLs *)

(** The URL after the protocol rewrites of [normalizedUrl], before the
    extension is added. *)
Definition protocolFixed (url : string) : string :=
  let url := replacePrefix url "git://" "https://" in
  let url := replacePrefix url "git@github.com:" "https://github.com/" in
  if negb (startsWith url "https://") && negb (startsWith url "http://")
  then (if startsWith url "github.com" then "https://" +:+ url else url)
  else url.

(** No rewrite of [normalizedUrl] applies to a settled URL. *)
Definition settled (url : string) : Prop :=
  startsWith url "git://" = false /\
  startsWith url "git@github.com:" = false /\
  (startsWith url "https://" = true \/ startsWith url "http://" = true \/
   startsWith url "github.com" = false).

Fixpoint prefixes (p : string) : list string :=
  EmptyString ::
  match p with
  | EmptyString => []
  | String c p' => List.map (String c) (prefixes p')
  end.

(** Every character of [s] is in [[\w-]]. *)
Fixpoint allWordDash (s : string) : bool :=
  match s with
  | EmptyString => true
  | String c s' => isWordDash c && allWordDash s'
  end.

Fixpoint hasChar (c : ascii) (s : string) : bool :=
  match s with
  | EmptyString => false
  | String d s' => Ascii.eqb c d || hasChar c s'
  end.

(** [rest] does not go on with a character of [[\w-]]. *)
Definition wordStops (rest : string) : Prop :=
  match rest with
  | EmptyString => True
  | String c _ => isWordDash c = false
  end.

(** What may precede [github.com] in a repository URL. *)
Definition githubPrefixes : list string :=
  ["https://"; "http://"; "git://"; "ssh://"; "git@"; "ssh://git@"; ""].

(** ** Letter case *)

(** Two characters that are the same letter, in either case. *)
Definition sameLetter (c d : ascii) : Prop :=
  c = d \/
  (isUpper c = true /\ nat_of_ascii d = (nat_of_ascii c + 32)%nat) \/
  (isUpper d = true /\ nat_of_ascii c = (nat_of_ascii d + 32)%nat).

(** Two strings equal up to letter case. *)
Fixpoint equalUpToCase (a b : string) : Prop :=
  match a, b with
  | EmptyString, EmptyString => True
  | String c a', String d b' => sameLetter c d /\ equalUpToCase a' b'
  | _, _ => False
  end.

(** The violation types that have a bucket of their own, in upper case. *)
Definition knownTypes : list string :=
  ["SCA"; "SAST"; "AGENTIC_SAST"; "SECRET"; "SECRETS"; "IAC"; "SBOM"].

(** An ASCII text with its first character in upper case and the rest in
    lower case. *)
Definition capitalized (type : string) : string :=
  match type with
  | EmptyString => EmptyString
  | String c rest => String (upperChar c) (lowerAscii rest)
  end.

(** ** Decimal numerals *)

(** The value of a decimal numeral read from the left, starting at [acc]. *)
Fixpoint uintValue (d : Decimal.uint) (acc : Z) : Z :=
  match d with
  | Decimal.Nil => acc
  | Decimal.D0 l => uintValue l (10 * acc)
  | Decimal.D1 l => uintValue l (10 * acc + 1)
  | Decimal.D2 l => uintValue l (10 * acc + 2)
  | Decimal.D3 l => uintValue l (10 * acc + 3)
  | Decimal.D4 l => uintValue l (10 * acc + 4)
  | Decimal.D5 l => uintValue l (10 * acc + 5)
  | Decimal.D6 l => uintValue l (10 * acc + 6)
  | Decimal.D7 l => uintValue l (10 * acc + 7)
  | Decimal.D8 l => uintValue l (10 * acc + 8)
  | Decimal.D9 l => uintValue l (10 * acc + 9)
  end.

(** ** A concrete host *)

Definition demoRaw : RawInputs :=
  {| raw_verbose := false;
     raw_apiKey := "ct_key";
     raw_organizationSlug := "acme";
     raw_waitForCompletion := true;
     raw_uploadSarif := true;
     raw_failOnCritical := false;
     raw_failOnHigh := false;
     raw_skipImport := true;
     raw_timeout := "";
     raw_pollInterval := "";
     raw_maxViolations := "";
     raw_outputFormat := "";
     raw_outputFile := "";
     raw_repositoryUrl := "";
     raw_branch := "";
     raw_serverUrl := "https://app.codethreat.com" |}.

(** [demoRaw] with the three numeric inputs replaced. *)
Definition withNumbers (timeout pollInterval maxViolations : string) : RawInputs :=
  {| raw_verbose := raw_verbose demoRaw;
     raw_apiKey := raw_apiKey demoRaw;
     raw_organizationSlug := raw_organizationSlug demoRaw;
     raw_waitForCompletion := raw_waitForCompletion demoRaw;
     raw_uploadSarif := raw_uploadSarif demoRaw;
     raw_failOnCritical := raw_failOnCritical demoRaw;
     raw_failOnHigh := raw_failOnHigh demoRaw;
     raw_skipImport := raw_skipImport demoRaw;
     raw_timeout := timeout;
     raw_pollInterval := pollInterval;
     raw_maxViolations := maxViolations;
     raw_outputFormat := raw_outputFormat demoRaw;
     raw_outputFile := raw_outputFile demoRaw;
     raw_repositoryUrl := raw_repositoryUrl demoRaw;
     raw_branch := raw_branch demoRaw;
     raw_serverUrl := raw_serverUrl demoRaw |}.

Definition demoContext : GithubContext :=
  {| ctx_owner := "acme";
     ctx_repo := "widget";
     ctx_ref := "refs/heads/main";
     ctx_sha := "abc123";
     ctx_actor := "octocat";
     ctx_workflow := "security";
     ctx_runId := Num 123;
     ctx_eventName := "push" |}.

Definition demoSummary : Summary :=
  {| total := Num 5; critical := Num 0; high := Num 1; medium := Num 2; low := Num 2 |}.

(** A client whose remote side knows the repository and scans it
    synchronously. *)
Definition demoClient (document : JsValue) : CodeThreatApiClient :=
  {| client_validateAuth := fun _ => Return tt;
     client_importRepository := fun _ args =>
       Return {| alreadyExists := true;
                 repository := {| repo_id := "repo-1";
                                  repo_name := ira_name args;
                                  repo_fullName := "acme/widget";
                                  repo_provider := "github";
                                  repo_url := ira_url args |} |};
     client_runScan := fun _ _ =>
       Return {| synchronous := true;
                 duration := Some (Num 42);
                 scan_results := Some {| sc_total := Num 5; sc_critical := Num 0; sc_high := Num 1 |};
                 scan_id := "scan-1" |};
     client_exportScanResults := fun _ _ =>
       Return {| er_results := document;
                 er_summary := Some demoSummary;
                 er_repositoryId := "repo-1";
                 er_securityScore := Some (Num 87);
                 er_scanDuration := Some (Num 42) |} |}.

Definition demoOctokit (upload : Completion UploadResult) : Octokit :=
  {| codeScanning_uploadSarif := fun _ _ => upload;
     codeScanning_listAlertsForRepo := fun _ _ _ => Return tt |}.

Definition uploadAccepted : Completion UploadResult :=
  Return {| upload_id := "upload-1"; upload_url := "https://api.github.com/sarifs/upload-1" |}.

Definition uploadRejected : Completion UploadResult :=
  Throw (JsError "Resource not accessible by integration").

(** A host that supplies [raw] and [githubToken], whose exported document
    is [document] and whose code-scanning endpoint answers [upload]. *)
Definition demoHost (raw : RawInputs) (githubToken : string)
           (document : JsValue) (upload : Completion UploadResult) : Host :=
  {| getInput := fun name required =>
       Return (if String.eqb name "api-key" then raw_apiKey raw
               else if String.eqb name "organization-slug" then raw_organizationSlug raw
               else if String.eqb name "timeout" then raw_timeout raw
               else if String.eqb name "poll-interval" then raw_pollInterval raw
               else if String.eqb name "max-violations" then raw_maxViolations raw
               else if String.eqb name "output-format" then raw_outputFormat raw
               else if String.eqb name "output-file" then raw_outputFile raw
               else if String.eqb name "repository-url" then raw_repositoryUrl raw
               else if String.eqb name "branch" then raw_branch raw
               else if String.eqb name "server-url" then raw_serverUrl raw
               else if String.eqb name "github-token" then githubToken
               else EmptyString);
     getBooleanInput := fun name =>
       Return (if String.eqb name "verbose" then raw_verbose raw
               else if String.eqb name "wait-for-completion" then raw_waitForCompletion raw
               else if String.eqb name "upload-sarif" then raw_uploadSarif raw
               else if String.eqb name "fail-on-critical" then raw_failOnCritical raw
               else if String.eqb name "fail-on-high" then raw_failOnHigh raw
               else if String.eqb name "skip-import" then raw_skipImport raw
               else false);
     context := demoContext;
     getOctokit := fun _ => Return (demoOctokit upload);
     newCodeThreatApiClient := fun _ => Return (demoClient document);
     pathExists := fun _ _ => Return true;
     readFile := fun _ _ => Return "{}";
     writeFile := fun _ _ _ => Return tt;
     path_resolve := fun p => "/github/workspace/" +:+ p;
     JSON_parse := fun _ => Return document;
     JSON_stringify := fun _ => "{}";
     base64 := fun s => s;
     Error_stack := fun _ => JUndefined;
     String_toUpperCase := upperAscii;
     String_toLowerCase := lowerAscii;
     String_capitalize := fun s => s |}.

Definition emptyWorld : World := {| processEnv := ∅; history := [] |}.

(** A host whose runtime maps the case of two Greek texts as Unicode does:
    in lower case a capital sigma that ends a word takes the final form,
    a small sigma is kept. *)
Definition sigmaHost : Host :=
  let host := demoHost demoRaw "" (JObj []) uploadAccepted in
  {| getInput := getInput host;
     getBooleanInput := getBooleanInput host;
     context := context host;
     getOctokit := getOctokit host;
     newCodeThreatApiClient := newCodeThreatApiClient host;
     pathExists := pathExists host;
     readFile := readFile host;
     writeFile := writeFile host;
     path_resolve := path_resolve host;
     JSON_parse := JSON_parse host;
     JSON_stringify := JSON_stringify host;
     base64 := base64 host;
     Error_stack := Error_stack host;
     String_toUpperCase := fun s => if String.eqb s "ABσ" then "ABΣ" else s;
     String_toLowerCase := fun s =>
       if String.eqb s "BΣ" then "bς" else if String.eqb s "Bσ" then "bσ" else s;
     String_capitalize := String_capitalize host |}.

(** A SARIF document with no runs. *)
Definition emptySarif : JsValue :=
  JObj [("$schema", JStr "https://json.schemastore.org/sarif-2.1.0.json");
        ("version", JStr "2.1.0");
        ("runs", JArr [])].

Definition demoAction : CodeThreatAction :=
  {| inputs := configOf demoContext demoRaw;
     logger := {| verbose := false |};
     apiClient := demoClient emptySarif;
     sarifUploader := {| su_logger := {| verbose := false |};
                         su_octokit := demoOctokit uploadAccepted |} |}.

(** A URL that carries a protocol. *)
Definition hasProtocol (url : string) : bool := includes url "://".






(** A URL without protocol or user, in bare [host/owner/repo] form. *)
Definition bareHostPath (url : string) : bool :=
  negb (hasProtocol url) && negb (hasChar "@" url) &&
  match split url "/" with
  | [host; owner; repo] =>
      negb (String.eqb host EmptyString) && negb (String.eqb owner EmptyString)
      && negb (String.eqb repo EmptyString)
  | _ => false
  end.

(** ** Failure thresholds *)

(** The three fatal conditions of the last stage, as the specification
    words them. *)
Definition criticalCheckFails (inputs : ActionInputs) (r : ScanResults) : bool :=
  failOnCritical inputs && js_gt (criticalCount r) (Num 0).
Definition highCheckFails (inputs : ActionInputs) (r : ScanResults) : bool :=
  failOnHigh inputs && js_gt (highCount r) (Num 0).
Definition maxViolationsCheckFails (inputs : ActionInputs) (r : ScanResults) : bool :=
  js_gt (maxViolations inputs) (Num 0) && js_gt (violationCount r) (maxViolations inputs).

Definition thresholdCrossed (inputs : ActionInputs) (r : ScanResults) : bool :=
  criticalCheckFails inputs r || highCheckFails inputs r || maxViolationsCheckFails inputs r.

(** [demoAction] with the three thresholds replaced. *)
Definition withThresholds (failOnCritical failOnHigh : bool) (maxViolations : jsnum)
  : CodeThreatAction :=
  let i := inputs demoAction in
  {| inputs :=
       {| apiKey := apiKey i; serverUrl := serverUrl i;
          organizationSlug := organizationSlug i; repositoryUrl := repositoryUrl i;
          branch := branch i; scanTypes := scanTypes i;
          waitForCompletion := waitForCompletion i; timeout := timeout i;
          pollInterval := pollInterval i; outputFormat := outputFormat i;
          outputFile := outputFile i; uploadSarif := uploadSarif i;
          failOnCritical := failOnCritical; failOnHigh := failOnHigh;
          maxViolations := maxViolations;
          skipImport := skipImport i; verboseInput := verboseInput i |};
     logger := logger demoAction;
     apiClient := apiClient demoAction;
     sarifUploader := sarifUploader demoAction |}.

(** Scan results with the given total, critical and high counts. *)
Definition withCounts (violations critical high : Z) : ScanResults :=
  {| resultsFile := Some "/github/workspace/codethreat-results.sarif";
     violationCount := Num violations;
     criticalCount := Num critical;
     highCount := Num high;
     mediumCount := Num 0;
     lowCount := Num 0;
     securityScore := None;
     scanDuration := None;
     scanUrl := None |}.

(** ** SARIF documents *)

(** The top-level field [k] of a parsed document; [JUndefined] when the
    document is not an object or has no such field. *)
Definition field (document : JsValue) (k : string) : JsValue :=
  match document with
  | JObj fields => lookupField fields k
  | _ => JUndefined
  end.

Definition missing (document : JsValue) (k : string) : Prop :=
  field document k = JUndefined.

Definition present (document : JsValue) (k : string) : Prop :=
  field document k <> JUndefined.

(** A document with the three fields and no runs, whose schema identifier
    is the empty string. *)
Definition blankSchemaSarif : JsValue :=
  JObj [("$schema", JStr ""); ("version", JStr "2.1.0"); ("runs", JArr [])].

Definition demoUploader : SarifUploader :=
  {| su_logger := {| verbose := false |}; su_octokit := demoOctokit uploadAccepted |}.

Definition isDebugLine (e : Event) : Prop := exists message, e = CoreInfo message.

(** ** The pipeline *)

(** [this] with another SARIF uploader: the same run, with a code-scanning
    endpoint that may answer differently. *)
Definition withUploader (this : CodeThreatAction) (uploader : SarifUploader) : CodeThreatAction :=
  {| inputs := inputs this;
     logger := logger this;
     apiClient := apiClient this;
     sarifUploader := uploader |}.

(** A computation that always returns. *)
Definition alwaysReturns {A} (m : M A) : Prop :=
  forall w, exists a w', m w = (Return a, w').

(** A computation whose result, value or exception, does not depend on the
    state it starts from. *)
Definition worldFree {A} (m : M A) : Prop :=
  forall w1 w2, fst (m w1) = fst (m w2).

Definition rejectingUploader : SarifUploader :=
  {| su_logger := {| verbose := false |}; su_octokit := demoOctokit uploadRejected |}.

Definition demoOutputs : ActionOutputs :=
  {| scanId := "scan-1";
     repositoryId := "repo-1";
     results :=
       {| resultsFile := Some "/github/workspace/codethreat-results.sarif";
          violationCount := Num 5;
          criticalCount := Num 0;
          highCount := Num 1;
          mediumCount := Num 2;
          lowCount := Num 2;
          securityScore := Some (Num 87);
          scanDuration := Some (Num 42);
          scanUrl := Some "https://app.codethreat.com/acme/scans/scan-1" |} |}.

(** ** A run without a GitHub token *)

(** A value of [process.env] that counts as not set. *)
Definition unset (v : option string) : Prop := v = None \/ v = Some EmptyString.

(** Neither the [github-token] input nor [GITHUB_TOKEN] is set. *)
Definition tokenMissing (host : Host) (w : World) : Prop :=
  getInput host "github-token" false = Return EmptyString /\
  unset (processEnv w !! "GITHUB_TOKEN").

(** Plain log lines and the report of a failure: no group is opened, no
    output is set and no collaborator is called. *)
Definition isReport (e : Event) : Prop :=
  match e with
  | CoreInfo _ | CoreError _ | CoreSetFailed _ | ConsoleError _ _ | ProcessExit _ => True
  | _ => False
  end.

(** Every event a computation appends satisfies [P], and [process.env] is
    left alone. *)
Definition emitsOnly {A} (P : Event -> Prop) (m : M A) : Prop :=
  forall w, exists evs, snd (m w) = addEvents w evs /\ Forall P evs.

(** Without a token, the computation throws an exception that satisfies
    [Q], after nothing but reports. *)
Definition abortsWith {A} (host : Host) (Q : exn -> Prop) (m : M A) : Prop :=
  forall w, tokenMissing host w ->
    exists e w' evs,
      m w = (Throw e, w') /\ Q e /\
      history w' = (history w ++ evs)%list /\
      processEnv w' !! "GITHUB_TOKEN" = processEnv w !! "GITHUB_TOKEN" /\
      Forall isReport evs.

(** [demoRaw] with the upload switched off, JSON output and verbose
    logging. *)
Definition demoRawNoUpload : RawInputs :=
  {| raw_verbose := true;
     raw_apiKey := raw_apiKey demoRaw;
     raw_organizationSlug := raw_organizationSlug demoRaw;
     raw_waitForCompletion := raw_waitForCompletion demoRaw;
     raw_uploadSarif := false;
     raw_failOnCritical := raw_failOnCritical demoRaw;
     raw_failOnHigh := raw_failOnHigh demoRaw;
     raw_skipImport := raw_skipImport demoRaw;
     raw_timeout := raw_timeout demoRaw;
     raw_pollInterval := raw_pollInterval demoRaw;
     raw_maxViolations := raw_maxViolations demoRaw;
     raw_outputFormat := "json";
     raw_outputFile := raw_outputFile demoRaw;
     raw_repositoryUrl := raw_repositoryUrl demoRaw;
     raw_branch := raw_branch demoRaw;
     raw_serverUrl := raw_serverUrl demoRaw |}.

(** The client and the file system answer every call of stages 1 to 4, and
    no export they hand out crosses a threshold of [this]. *)
Definition scanSucceeds (host : Host) (this : CodeThreatAction) : Prop :=
  (forall w, exists u, client_validateAuth (apiClient this) w = Return u) /\
  (forall w args, exists r, client_importRepository (apiClient this) w args = Return r) /\
  (forall w args, exists r, client_runScan (apiClient this) w args = Return r) /\
  (forall w path data, exists u, writeFile host w path data = Return u) /\
  (forall w args, exists r,
      client_exportScanResults (apiClient this) w args = Return r /\
      forall file score duration url,
        thresholdCrossed (inputs this)
          {| resultsFile := file;
             violationCount := total (default emptySummary (er_summary r));
             criticalCount := critical (default emptySummary (er_summary r));
             highCount := high (default emptySummary (er_summary r));
             mediumCount := medium (default emptySummary (er_summary r));
             lowCount := low (default emptySummary (er_summary r));
             securityScore := score;
             scanDuration := duration;
             scanUrl := url |} = false).

(** ** Further vocabulary *)

(** [rest] does not go on with a decimal digit, nor with the [x] that
    would turn a leading [0] into a radix prefix. *)
Definition numeralStops (rest : string) : Prop :=
  match rest with
  | EmptyString => True
  | String c _ => isDigit c = false /\ c <> "x"%char /\ c <> "X"%char
  end.

(** The number of violations a breakdown accounts for. *)
Fixpoint breakdownTotal (typeBreakdown : list (string * Z)) : Z :=
  match typeBreakdown with
  | [] => 0
  | (_, n) :: rest => n + breakdownTotal rest
  end.

(** A violation whose [type] cannot be read. *)
Definition unreadable (violation : JsValue) : bool :=
  match violation with
  | JUndefined | JNull => true
  | _ => false
  end.

(** ** Outcomes of a computation *)

(** Every value a computation returns satisfies [P]. *)
Definition returnsOnly {A} (P : A -> Prop) (m : M A) : Prop :=
  forall w a w', m w = (Return a, w') -> P a.

(** Every exception a computation throws satisfies [Q]. *)
Definition throwsOnly {A} (Q : exn -> Prop) (m : M A) : Prop :=
  forall w e w', m w = (Throw e, w') -> Q e.

(** Every event a computation appends satisfies [P]; [process.env] may
    change. *)
Definition appends {A} (P : Event -> Prop) (m : M A) : Prop :=
  forall w, exists evs,
    history (snd (m w)) = (history w ++ evs)%list /\ Forall P evs.

(** A configuration as the resolver promises it: the required texts are
    there, the scan types are left to the service, the two durations passed
    their range check, the format is a known one and there is a file to
    write to. *)
Definition validConfiguration (cfg : ActionInputs) : Prop :=
  apiKey cfg <> EmptyString /\
  organizationSlug cfg <> EmptyString /\
  scanTypes cfg = [] /\
  passesRange 60 86400 (timeout cfg) /\
  passesRange 10 60 (pollInterval cfg) /\
  stringIn (outputFormat cfg) validFormats = true /\
  outputFile cfg <> EmptyString.

(** How the message of a failed stage begins. *)
Definition stagePrefixes : list string :=
  ["Authentication failed: "; "Repository setup failed: "; "Scan execution failed: ";
   "Results processing failed: "; "Build failed: "].

(** An [Error] whose message names the stage that failed. *)
Definition stageFailure (e : exn) : Prop :=
  exists m p, e = JsError m /\ In p stagePrefixes /\ startsWith m p = true.

(** [demoClient] with credentials the service rejects. *)
Definition rejectedClient (reason : exn) : CodeThreatApiClient :=
  {| client_validateAuth := fun _ => Throw reason;
     client_importRepository := client_importRepository (demoClient emptySarif);
     client_runScan := client_runScan (demoClient emptySarif);
     client_exportScanResults := client_exportScanResults (demoClient emptySarif) |}.

Definition withClient (this : CodeThreatAction) (client : CodeThreatApiClient) : CodeThreatAction :=
  {| inputs := inputs this;
     logger := logger this;
     apiClient := client;
     sarifUploader := sarifUploader this |}.

(** Reading, parsing or uploading the results file, and every other call
    to GitHub. *)
Definition isPublishing (e : Event) : Prop :=
  match e with
  | FsPathExists _ | FsReadFile _ | OctokitUploadSarif _ | OctokitListAlerts _ _ => True
  | _ => False
  end.

(** [demoAction] configured from [raw]. *)
Definition actionFor (raw : RawInputs) : CodeThreatAction :=
  {| inputs := configOf demoContext raw;
     logger := {| verbose := raw_verbose raw |};
     apiClient := apiClient demoAction;
     sarifUploader := sarifUploader demoAction |}.

Definition isLogb (e : Event) : bool :=
  match e with
  | CoreInfo _ | CoreWarning _ | CoreError _ | CoreStartGroup _ | CoreEndGroup => true
  | _ => false
  end.

(** What is left of a history once the log lines are dropped: the calls to
    the service, the file system and GitHub, and the outputs. *)
Definition requests (evs : list Event) : list Event :=
  List.filter (fun e => negb (isLogb e)) evs.

(** [this] with another value of the skip-import input. *)
Definition withSkipImport (this : CodeThreatAction) (skip : bool) : CodeThreatAction :=
  let i := inputs this in
  {| inputs :=
       {| apiKey := apiKey i; serverUrl := serverUrl i;
          organizationSlug := organizationSlug i; repositoryUrl := repositoryUrl i;
          branch := branch i; scanTypes := scanTypes i;
          waitForCompletion := waitForCompletion i; timeout := timeout i;
          pollInterval := pollInterval i; outputFormat := outputFormat i;
          outputFile := outputFile i; uploadSarif := uploadSarif i;
          failOnCritical := failOnCritical i; failOnHigh := failOnHigh i;
          maxViolations := maxViolations i;
          skipImport := skip; verboseInput := verboseInput i |};
     logger := logger this;
     apiClient := apiClient this;
     sarifUploader := sarifUploader this |}.

(** The URL that [setupRepository] works with. *)
Definition repositoryUrlSent (this : CodeThreatAction) : string :=
  let url := repositoryUrl (inputs this) in
  if String.eqb url EmptyString then url else normalizedUrl url.

(** A scan whose violations [executeScan] goes on to break down by type. *)
Definition breakdownWanted (scanResult : ScanResult) : bool :=
  synchronous scanResult &&
  match scan_results scanResult with
  | Some _ => true
  | None => false
  end.

(** What [processResults] writes to the results file. *)
Definition resultsText (host : Host) (scanResults : ExportResult) : string :=
  match er_results scanResults with
  | JStr text => text
  | other => JSON_stringify host other
  end.

(** [demoClient] whose exports come without a summary. *)
Definition clientWithoutSummary : CodeThreatApiClient :=
  {| client_validateAuth := client_validateAuth (demoClient emptySarif);
     client_importRepository := client_importRepository (demoClient emptySarif);
     client_runScan := client_runScan (demoClient emptySarif);
     client_exportScanResults := fun _ _ =>
       Return {| er_results := emptySarif;
                 er_summary := None;
                 er_repositoryId := "repo-1";
                 er_securityScore := None;
                 er_scanDuration := None |} |}.

(** ** SARIF runs *)

(** [Array.isArray(run.results) ? run.results.length : 0] *)
Definition resultCount (run : JsValue) : Z :=
  match field run "results" with
  | JArr items => Z.of_nat (List.length items)
  | _ => 0
  end.

Fixpoint totalResults (runs : list JsValue) : Z :=
  match runs with
  | [] => 0
  | run :: rest => resultCount run + totalResults rest
  end.

(** A document that passes the three guards of the validation. *)
Definition wellShaped (document : JsValue) : Prop :=
  truthy (field document "$schema") = true /\
  truthy (field document "version") = true /\
  isArray (field document "runs") = true.

(** A SARIF document with two runs, of one and of no result. *)
Definition twoRunSarif : JsValue :=
  JObj [("$schema", JStr "https://json.schemastore.org/sarif-2.1.0.json");
        ("version", JStr "2.1.0");
        ("runs", JArr [JObj [("results", JArr [JObj []])]; JObj []])].

Definition verboseUploader : SarifUploader :=
  {| su_logger := {| verbose := true |}; su_octokit := demoOctokit uploadAccepted |}.

(** A host on which no results file exists. *)
Definition missingFileHost : Host :=
  let host := demoHost demoRaw "ghs_token" emptySarif uploadAccepted in
  {| getInput := getInput host;
     getBooleanInput := getBooleanInput host;
     context := context host;
     getOctokit := getOctokit host;
     newCodeThreatApiClient := newCodeThreatApiClient host;
     pathExists := fun _ _ => Return false;
     readFile := readFile host;
     writeFile := writeFile host;
     path_resolve := path_resolve host;
     JSON_parse := JSON_parse host;
     JSON_stringify := JSON_stringify host;
     base64 := base64 host;
     Error_stack := Error_stack host;
     String_toUpperCase := String_toUpperCase host;
     String_toLowerCase := String_toLowerCase host;
     String_capitalize := String_capitalize host |}.

(** ** How a run ends *)

(** Neither an output nor the report of a failure. *)
Definition quiet (e : Event) : Prop :=
  match e with
  | CoreSetOutput _ _ | CoreSetFailed _ | ConsoleError _ _ | ProcessExit _ => False
  | _ => True
  end.

Definition isSetOutput (e : Event) : Prop :=
  match e with
  | CoreSetOutput _ _ => True
  | _ => False
  end.

(** The outputs are set, all at once, and then only log lines follow. *)
Definition succeeded (evs : list Event) : Prop :=
  exists before outputs after,
    evs = (before ++ outputs ++ after)%list /\
    Forall quiet before /\
    Forall isSetOutput outputs /\ (7 <= List.length outputs)%nat /\
    Forall isLog after.

(** No output is set, and the step is marked as failed at the very end. *)
Definition failed (evs : list Event) : Prop :=
  exists before message,
    evs = (before ++ [CoreSetFailed message])%list /\ Forall quiet before.

(** Nothing was done but to print a fatal error and exit with status 1. *)
Definition crashed (evs : list Event) : Prop :=
  exists error,
    evs = [ConsoleError "Fatal error in action execution:" error; ProcessExit 1].

(** A computation that sets the outputs only when it returns. *)
Definition phased (m : M unit) : Prop :=
  forall w, exists evs,
    history (snd (m w)) = (history w ++ evs)%list /\
    match fst (m w) with
    | Return _ => succeeded evs
    | Throw _ => Forall quiet evs
    end.

(** [actionFor demoRawNoUpload] is a run that publishes nothing. *)
Definition quietAction : CodeThreatAction := actionFor demoRawNoUpload.

(** The value that the events [evs] leave in the output [name]: that of
    the last [core.setOutput(name, ...)], if there is one. *)
Fixpoint outputValue (name : string) (evs : list Event) : option string :=
  match evs with
  | [] => None
  | CoreSetOutput n v :: rest =>
      match outputValue name rest with
      | Some later => Some later
      | None => if String.eqb n name then Some v else None
      end
  | _ :: rest => outputValue name rest
  end.

(** An optional text that is there and not empty. *)
Definition nonEmpty (s : option string) : option string :=
  match s with
  | Some v => if String.eqb v EmptyString then None else Some v
  | None => None
  end.

(** ** Repository URLs *)

(** The ways to write the URL of the GitHub repository [owner/repo] that
    the normalisation knows, each with and without the [.git] extension. *)
Definition githubSpellings (owner repo : string) : list string :=
  ["https://github.com/" +:+ owner +:+ "/" +:+ repo;
   "https://github.com/" +:+ owner +:+ "/" +:+ repo +:+ ".git";
   "git://github.com/" +:+ owner +:+ "/" +:+ repo;
   "git://github.com/" +:+ owner +:+ "/" +:+ repo +:+ ".git";
   "git@github.com:" +:+ owner +:+ "/" +:+ repo;
   "git@github.com:" +:+ owner +:+ "/" +:+ repo +:+ ".git";
   "github.com/" +:+ owner +:+ "/" +:+ repo;
   "github.com/" +:+ owner +:+ "/" +:+ repo +:+ ".git"].

(** The one URL they all stand for. *)
Definition canonicalUrl (owner repo : string) : string :=
  "https://github.com/" +:+ owner +:+ "/" +:+ repo +:+ ".git".

(** [demoAction] for a CodeThreat server at [url]. *)
Definition actionAt (url : string) : CodeThreatAction :=
  actionFor
    {| raw_verbose := raw_verbose demoRaw;
       raw_apiKey := raw_apiKey demoRaw;
       raw_organizationSlug := raw_organizationSlug demoRaw;
       raw_waitForCompletion := raw_waitForCompletion demoRaw;
       raw_uploadSarif := raw_uploadSarif demoRaw;
       raw_failOnCritical := raw_failOnCritical demoRaw;
       raw_failOnHigh := raw_failOnHigh demoRaw;
       raw_skipImport := raw_skipImport demoRaw;
       raw_timeout := raw_timeout demoRaw;
       raw_pollInterval := raw_pollInterval demoRaw;
       raw_maxViolations := raw_maxViolations demoRaw;
       raw_outputFormat := raw_outputFormat demoRaw;
       raw_outputFile := raw_outputFile demoRaw;
       raw_repositoryUrl := raw_repositoryUrl demoRaw;
       raw_branch := raw_branch demoRaw;
       raw_serverUrl := url |}.

(** ** The breakdown by violation type *)

(** [violation.type || 'UNKNOWN'], as a key of the record of counts. *)
Definition typeOf (violation : JsValue) : string :=
  let t := field violation "type" in
  if truthy t then ToString t else "UNKNOWN".

(** The names every object literal inherits: a read of [typeBreakdown[name]]
    finds the inherited member, not a count. *)
Definition inheritedNames : list string :=
  ["constructor"; "toString"; "toLocaleString"; "valueOf"; "hasOwnProperty";
   "isPrototypeOf"; "propertyIsEnumerable"; "__proto__"; "__defineGetter__";
   "__defineSetter__"; "__lookupGetter__"; "__lookupSetter__"].

Definition ordinaryType (violation : JsValue) : Prop :=
  ~ In (typeOf violation) inheritedNames.

(** The count a breakdown holds for a type: zero when the type has no
    entry. *)
Fixpoint countOf (typeBreakdown : list (string * Z)) (type : string) : Z :=
  match typeBreakdown with
  | [] => 0
  | (k, n) :: rest => if String.eqb k type then n else countOf rest type
  end.

(** The number of violations of a type. *)
Definition occurrences (type : string) (violations : list JsValue) : nat :=
  List.length (List.filter (fun violation => String.eqb (typeOf violation) type) violations).

Definition demoViolations : list JsValue :=
  [JObj [("type", JStr "sca")]; JObj [("type", JStr "SAST")]; JObj [];
   JObj [("type", JStr "sca")]; JNum (Num 7)].

(** ** Quiet runs *)

(** An event that is not a line of debug output or of logged data. *)
Definition plain (e : Event) : Prop :=
  match e with
  | CoreInfo message =>
      startsWith message "[DEBUG] " = false /\
      startsWith message "  Debug Data: " = false /\
      startsWith message "  Data: " = false
  | _ => True
  end.

(** [demoHost] for a run that publishes nothing and is not verbose. *)
Definition quietRaw : RawInputs :=
  {| raw_verbose := false;
     raw_apiKey := raw_apiKey demoRaw;
     raw_organizationSlug := raw_organizationSlug demoRaw;
     raw_waitForCompletion := raw_waitForCompletion demoRaw;
     raw_uploadSarif := raw_uploadSarif demoRaw;
     raw_failOnCritical := raw_failOnCritical demoRaw;
     raw_failOnHigh := raw_failOnHigh demoRaw;
     raw_skipImport := raw_skipImport demoRaw;
     raw_timeout := raw_timeout demoRaw;
     raw_pollInterval := raw_pollInterval demoRaw;
     raw_maxViolations := raw_maxViolations demoRaw;
     raw_outputFormat := raw_outputFormat demoRaw;
     raw_outputFile := raw_outputFile demoRaw;
     raw_repositoryUrl := raw_repositoryUrl demoRaw;
     raw_branch := raw_branch demoRaw;
     raw_serverUrl := raw_serverUrl demoRaw |}.

(** * Properties *)

(** stdpp keeps [simpl] from unfolding string concatenation; the proofs
    below compute with strings that start with a literal. *)
#[local] Arguments String.append (s1 s2)%_string_scope : simpl nomatch.

(** ** Strings *)

Lemma startsWith_append (p s : string) : startsWith (p +:+ s) p = true.
Proof.
  induction p as [|c p IH]; simpl.
  - reflexivity.
  - rewrite Ascii.eqb_refl. exact IH.
Qed.

Lemma startsWith_append_l (s x p : string) :
  startsWith s p = true -> startsWith (s +:+ x) p = true.
Proof.
  revert s. induction p as [|c p IH]; intros s H.
  - reflexivity.
  - destruct s as [|d s]; simpl in *; [discriminate|].
    apply andb_true_iff in H as [Hc Hs]. rewrite Hc. simpl. auto.
Qed.

Lemma append_assoc (a b c : string) : (a +:+ b) +:+ c = a +:+ (b +:+ c).
Proof.
  induction a as [|x a IH]; [reflexivity|].
  change (String x ((a +:+ b) +:+ c) = String x (a +:+ (b +:+ c))).
  rewrite IH. reflexivity.
Qed.

Lemma append_nil_r (a : string) : a +:+ EmptyString = a.
Proof.
  induction a as [|x a IH]; [reflexivity|].
  change (String x (a +:+ EmptyString) = String x a). rewrite IH. reflexivity.
Qed.

Lemma length_append (a b : string) :
  String.length (a +:+ b) = (String.length a + String.length b)%nat.
Proof.
  induction a as [|x a IH]; [reflexivity|].
  change (S (String.length (a +:+ b)) = S (String.length a + String.length b)).
  rewrite IH. reflexivity.
Qed.

Lemma includes_unfold (s pat : string) :
  includes s pat =
  startsWith s pat ||
  match s with
  | EmptyString => false
  | String _ s' => includes s' pat
  end.
Proof. destruct s; reflexivity. Qed.

Lemma hasChar_append (c : ascii) (a b : string) :
  hasChar c (a +:+ b) = hasChar c a || hasChar c b.
Proof.
  induction a as [|d a IH]; [reflexivity|].
  change (String d a +:+ b) with (String d (a +:+ b)).
  cbn [hasChar]. rewrite IH. apply orb_assoc.
Qed.

(** An occurrence of the pattern after any prefix is found. *)
Lemma includes_startsWith (a x pat : string) :
  startsWith x pat = true -> includes (a +:+ x) pat = true.
Proof.
  intros H. induction a as [|c a IH].
  - change (EmptyString +:+ x) with x. rewrite includes_unfold, H. reflexivity.
  - change (String c a +:+ x) with (String c (a +:+ x)).
    rewrite includes_unfold, IH. apply orb_true_r.
Qed.

(** A prefix test that succeeds on [s +:+ x] succeeds on [s] already, or
    [s] is itself a prefix of the pattern. *)
Lemma startsWith_append_inv (s x p : string) :
  startsWith (s +:+ x) p = true ->
  startsWith s p = true \/ startsWith p s = true.
Proof.
  revert p. induction s as [|d s IH]; intros p H.
  - right. destruct p; reflexivity.
  - destruct p as [|c p]; [left; reflexivity|].
    simpl in H. apply andb_true_iff in H as [Hc Hs].
    destruct (IH _ Hs) as [Hl|Hr].
    + left. simpl. rewrite Hc. exact Hl.
    + right. simpl. rewrite Ascii.eqb_sym, Hc. exact Hr.
Qed.

Lemma startsWith_prefixes (p s : string) :
  startsWith p s = true -> In s (prefixes p).
Proof.
  revert p. induction s as [|d s IH]; intros p H.
  - destruct p; simpl; auto.
  - destruct p as [|c p]; simpl in H; [discriminate|].
    apply andb_true_iff in H as [Hc Hs].
    apply Ascii.eqb_eq in Hc. subst d.
    simpl. right. apply in_map. auto.
Qed.

Lemma endsWith_unfold (s suf : string) :
  endsWith s suf =
  String.eqb s suf ||
  match s with
  | EmptyString => false
  | String _ s' => endsWith s' suf
  end.
Proof. destruct s; reflexivity. Qed.

Lemma endsWith_append (s suf : string) : endsWith (s +:+ suf) suf = true.
Proof.
  induction s as [|c s IH].
  - simpl. rewrite endsWith_unfold, String.eqb_refl. reflexivity.
  - change (String c s +:+ suf) with (String c (s +:+ suf)).
    rewrite endsWith_unfold, IH. apply orb_true_r.
Qed.

(** Appending [".git"] never completes one of the three prefixes that
    [normalizedUrl] rewrites. *)
Lemma append_git_no_prefix (s p : string) :
  In p ["git://"; "git@github.com:"; "github.com"] ->
  startsWith s p = false -> startsWith (s +:+ ".git") p = false.
Proof.
  intros Hp Hs.
  destruct (startsWith (s +:+ ".git") p) eqn:E; [|reflexivity].
  destruct (startsWith_append_inv _ _ _ E) as [H|H]; [congruence|].
  apply startsWith_prefixes in H.
  simpl in Hp.
  repeat (destruct Hp as [<-|Hp];
          [simpl in H;
           repeat (destruct H as [<-|H];
                   [vm_compute in E; vm_compute in Hs; congruence|]);
           contradiction|]).
  contradiction.
Qed.

(** ** URL normalisation *)

Lemma normalizedUrl_protocolFixed (url : string) :
  normalizedUrl url =
  if endsWith (protocolFixed url) ".git" then protocolFixed url
  else protocolFixed url +:+ ".git".
Proof.
  unfold normalizedUrl. fold (protocolFixed url).
  destruct (endsWith (protocolFixed url) ".git"); reflexivity.
Qed.

Lemma protocolFixed_settled (url : string) : settled (protocolFixed url).
Proof.
  unfold protocolFixed, replacePrefix, settled.
  destruct (startsWith url "git://") eqn:E1.
  - simpl. auto.
  - destruct (startsWith url "git@github.com:") eqn:E2.
    + simpl. auto.
    + destruct (startsWith url "https://") eqn:E3; cbn [negb andb]; [auto|].
      destruct (startsWith url "http://") eqn:E4; cbn [negb andb]; [auto 6|].
      destruct (startsWith url "github.com") eqn:E5; [simpl; auto|].
      rewrite E3, E4. auto 6.
Qed.

Lemma settled_append_git (url : string) : settled url -> settled (url +:+ ".git").
Proof.
  intros (H1 & H2 & H3). repeat split.
  - apply append_git_no_prefix; simpl; auto.
  - apply append_git_no_prefix; simpl; auto.
  - destruct H3 as [H|[H|H]].
    + left. apply startsWith_append_l, H.
    + right. left. apply startsWith_append_l, H.
    + right. right. apply append_git_no_prefix; simpl; auto.
Qed.

Lemma normalizedUrl_settled (url : string) : settled (normalizedUrl url).
Proof.
  rewrite normalizedUrl_protocolFixed.
  destruct (endsWith (protocolFixed url) ".git").
  - apply protocolFixed_settled.
  - apply settled_append_git, protocolFixed_settled.
Qed.

Lemma normalizedUrl_endsWith_git (url : string) :
  endsWith (normalizedUrl url) ".git" = true.
Proof.
  rewrite normalizedUrl_protocolFixed.
  destruct (endsWith (protocolFixed url) ".git") eqn:E.
  - exact E.
  - apply endsWith_append.
Qed.

Lemma normalizedUrl_fixpoint (url : string) :
  settled url -> endsWith url ".git" = true -> normalizedUrl url = url.
Proof.
  intros (H1 & H2 & H3) He.
  rewrite normalizedUrl_protocolFixed.
  assert (Hp : protocolFixed url = url).
  { unfold protocolFixed, replacePrefix. rewrite H1, H2.
    destruct H3 as [H|[H|H]]; rewrite H; cbn [negb andb]; try reflexivity.
    - destruct (startsWith url "https://"); reflexivity.
    - destruct (startsWith url "https://"), (startsWith url "http://"); reflexivity. }
  rewrite Hp, He. reflexivity.
Qed.

Lemma normalizedUrl_idempotent (url : string) :
  normalizedUrl (normalizedUrl url) = normalizedUrl url.
Proof.
  apply normalizedUrl_fixpoint.
  - apply normalizedUrl_settled.
  - apply normalizedUrl_endsWith_git.
Qed.

(** ** Effects *)

Lemma addEvents_nil (w : World) : addEvents w [] = w.
Proof. destruct w. unfold addEvents. simpl. rewrite app_nil_r. reflexivity. Qed.

Lemma addEvents_app (w : World) (e1 e2 : list Event) :
  addEvents (addEvents w e1) e2 = addEvents w (e1 ++ e2)%list.
Proof. unfold addEvents. simpl. rewrite app_assoc. reflexivity. Qed.

Lemma logged_ret : logged (ret tt).
Proof. intros w. exists []. rewrite addEvents_nil. split; [reflexivity|constructor]. Qed.

Lemma logged_emit (e : Event) : isLog e -> logged (emit e).
Proof. intros H w. exists [e]. split; [reflexivity|]. repeat constructor. exact H. Qed.

Lemma logged_bind (m : M unit) (k : unit -> M unit) :
  logged m -> (forall u, logged (k u)) -> logged (bind m k).
Proof.
  intros Hm Hk w. destruct (Hm w) as (e1 & E1 & F1).
  destruct (Hk tt (addEvents w e1)) as (e2 & E2 & F2).
  exists (e1 ++ e2)%list. unfold bind. rewrite E1, E2, addEvents_app.
  split; [reflexivity|]. apply Forall_app; auto.
Qed.

Lemma logged_when (c : bool) (m : M unit) : logged m -> logged (when c m).
Proof. destruct c; simpl; auto using logged_ret. Qed.

Create HintDb logs.
#[local] Hint Resolve logged_ret logged_emit logged_bind logged_when : logs.
#[local] Hint Extern 1 (isLog _) => exact I : logs.

Section LoggerFacts.
Variable host : Host.
Variable l : Logger.

Lemma logged_core_info m : logged (core_info m).
Proof. unfold core_info. auto with logs. Qed.
Lemma logged_core_warning m : logged (core_warning m).
Proof. unfold core_warning. auto with logs. Qed.
Lemma logged_core_error m : logged (core_error m).
Proof. unfold core_error. auto with logs. Qed.
Hint Resolve logged_core_info logged_core_warning logged_core_error : logs.

Lemma logged_info m d : logged (Logger_info host l m d).
Proof. unfold Logger_info. auto with logs. Qed.
Lemma logged_warning m d : logged (Logger_warning host l m d).
Proof. unfold Logger_warning. auto with logs. Qed.
Lemma logged_error m d : logged (Logger_error host l m d).
Proof. unfold Logger_error. auto with logs. Qed.
Lemma logged_debug m d : logged (Logger_debug host l m d).
Proof. unfold Logger_debug. auto 6 with logs. Qed.
Lemma logged_startGroup t : logged (Logger_startGroup l t).
Proof. unfold Logger_startGroup. auto with logs. Qed.
Lemma logged_endGroup : logged (Logger_endGroup l).
Proof. unfold Logger_endGroup. auto with logs. Qed.
Lemma logged_step s m : logged (Logger_step l s m).
Proof. unfold Logger_step. auto with logs. Qed.
Lemma logged_success s m : logged (Logger_success l s m).
Proof. unfold Logger_success. auto with logs. Qed.
End LoggerFacts.

#[local] Hint Resolve logged_core_info logged_core_warning logged_core_error
  logged_info logged_warning logged_error logged_debug logged_startGroup
  logged_endGroup logged_step logged_success : logs.

(** Running a logging step first does not change what is returned. *)
Lemma logged_then {A} (m : M unit) (k : M A) (w : World) :
  logged m -> exists evs, Forall isLog evs /\ bind m (fun _ => k) w = k (addEvents w evs).
Proof.
  intros H. destruct (H w) as (evs & E & F). exists evs. split; [exact F|].
  unfold bind. rewrite E. reflexivity.
Qed.

(** What [normalizeGitHubUrl] returns, whatever it logs. *)
Lemma normalizeGitHubUrl_value host this (url : string) (w : World) :
  fst (normalizeGitHubUrl host this url w) =
  Return (if String.eqb url EmptyString then url else normalizedUrl url).
Proof.
  unfold normalizeGitHubUrl. destruct (String.eqb url EmptyString); [reflexivity|].
  match goal with |- context [bind ?m _] =>
    destruct (logged_then m (ret (normalizedUrl url)) w) as (evs & _ & E) end.
  - apply logged_debug.
  - rewrite E. reflexivity.
Qed.

Lemma startsWith_split (s p : string) :
  startsWith s p = true -> s = p +:+ substringFrom (String.length p) s.
Proof.
  revert s. induction p as [|c p IH]; intros s H; [reflexivity|].
  destruct s as [|d s]; simpl in H; [discriminate|].
  apply andb_true_iff in H as [Hc Hs]. apply Ascii.eqb_eq in Hc. subst d.
  simpl. f_equal. apply IH, Hs.
Qed.

Lemma includes_append_l (s x pat : string) :
  includes s pat = true -> includes (s +:+ x) pat = true.
Proof.
  induction s as [|c s IH]; intros H.
  - destruct pat; [destruct x; reflexivity|]. simpl in H. discriminate.
  - simpl in H. apply orb_true_iff in H as [H|H].
    + change (String c s +:+ x) with (String c (s +:+ x)).
      cbn [includes]. change (String c (s +:+ x)) with (String c s +:+ x).
      rewrite (startsWith_append_l _ x _ H). reflexivity.
    + change (String c s +:+ x) with (String c (s +:+ x)).
      cbn [includes]. rewrite (IH H). apply orb_true_r.
Qed.

Lemma normalizedUrl_github_path (url : string) :
  startsWith url "github.com" = true ->
  startsWith (normalizedUrl url) "https://github.com" = true /\
  hasProtocol (normalizedUrl url) = true.
Proof.
  intros H. rewrite normalizedUrl_protocolFixed.
  assert (Hp : protocolFixed url = "https://" +:+ url).
  { unfold protocolFixed, replacePrefix. rewrite (startsWith_split _ _ H).
    reflexivity. }
  rewrite Hp.
  assert (Hs : startsWith ("https://" +:+ url) "https://github.com" = true).
  { rewrite (startsWith_split _ _ H). reflexivity. }
  assert (Hi : hasProtocol ("https://" +:+ url) = true) by reflexivity.
  destruct (endsWith ("https://" +:+ url) ".git"); split;
    auto using startsWith_append_l, includes_append_l.
Qed.

(** C4: normalising a repository URL twice gives what normalising it once
    gives, whatever the logger and the state of the run; the three
    canonical spellings of acme/widget all normalise to
    https://github.com/acme/widget.git. *)
Theorem normalizeGitHubUrl_idempotent :
  (forall (host : Host) (this : CodeThreatAction) (url : string) (w : World),
      exists v,
        fst (normalizeGitHubUrl host this url w) = Return v /\
        forall w', fst (normalizeGitHubUrl host this v w') = Return v) /\
  (forall (host : Host) (this : CodeThreatAction) (w : World),
      fst (normalizeGitHubUrl host this "git@github.com:acme/widget.git" w)
      = Return "https://github.com/acme/widget.git" /\
      fst (normalizeGitHubUrl host this "git://github.com/acme/widget.git" w)
      = Return "https://github.com/acme/widget.git" /\
      fst (normalizeGitHubUrl host this "github.com/acme/widget" w)
      = Return "https://github.com/acme/widget.git").
Proof.
  split.
  - intros host this url w. rewrite normalizeGitHubUrl_value.
    eexists. split; [reflexivity|]. intros w'. rewrite normalizeGitHubUrl_value.
    destruct (String.eqb url EmptyString) eqn:E.
    + rewrite E. reflexivity.
    + rewrite normalizedUrl_idempotent.
      destruct (String.eqb (normalizedUrl url) EmptyString); reflexivity.
  - intros host this w. rewrite !normalizeGitHubUrl_value. repeat split.
Qed.

(** C5, as the specification states it, fails on a bare path whose host is
    not github.com: no protocol is prefixed. *)
Lemma protocol_not_added_for_other_hosts :
  bareHostPath "gitlab.com/acme/widget" = true /\
  fst (normalizeGitHubUrl (demoHost demoRaw "" emptySarif uploadAccepted) demoAction
         "gitlab.com/acme/widget" emptyWorld)
  = Return "gitlab.com/acme/widget.git" /\
  hasProtocol "gitlab.com/acme/widget.git" = false.
Proof. repeat split. Qed.

(** A text that begins with a protocol has the protocol mark in it. *)
Lemma startsWith_includes (s a b : string) :
  startsWith s (a +:+ b) = true -> includes s b = true.
Proof.
  intros H. rewrite (startsWith_split _ _ H), append_assoc.
  apply includes_startsWith, startsWith_append.
Qed.

Lemma startsWith_hasChar (s p : string) (c : ascii) :
  startsWith s p = true -> hasChar c p = true -> hasChar c s = true.
Proof.
  intros H Hc. rewrite (startsWith_split _ _ H), hasChar_append, Hc. reflexivity.
Qed.

(** The extension does not complete a protocol mark. *)
Lemma includes_append_git (s : string) :
  includes s "://" = false -> includes (s +:+ ".git") "://" = false.
Proof.
  induction s as [|c s IH]; intros H; [reflexivity|].
  rewrite includes_unfold in H. apply orb_false_iff in H as [Hs Hi].
  change (String c s +:+ ".git") with (String c (s +:+ ".git")).
  rewrite includes_unfold, (IH Hi), orb_false_r.
  change (String c (s +:+ ".git")) with (String c s +:+ ".git").
  destruct (startsWith (String c s +:+ ".git") "://") eqn:E; [|reflexivity].
  destruct (startsWith_append_inv _ _ _ E) as [H|H]; [congruence|].
  apply startsWith_prefixes in H. simpl in H.
  repeat (destruct H as [H|H];
          [try discriminate H; rewrite <- H in E, Hs; vm_compute in E, Hs; congruence|]).
  contradiction.
Qed.

(** What stands before a separator that the suffix does not contain plays
    no part in a suffix test. *)
Lemma endsWith_after (a name suf : string) (c : ascii) :
  hasChar c suf = false ->
  endsWith ((a +:+ String c EmptyString) +:+ name) suf = endsWith (String c name) suf /\
  endsWith (String c name) suf = endsWith name suf.
Proof.
  intros Hc.
  assert (Hn : forall x y, String.eqb ((x +:+ String c EmptyString) +:+ y) suf = false).
  { intros x y. apply String.eqb_neq. intros E. rewrite <- E in Hc.
    rewrite !hasChar_append in Hc. cbn [hasChar] in Hc.
    rewrite Ascii.eqb_refl in Hc. cbn [orb] in Hc.
    rewrite orb_true_r in Hc. discriminate Hc. }
  split.
  - induction a as [|d a IH]; [reflexivity|].
    change ((String d a +:+ String c EmptyString) +:+ name)
      with (String d ((a +:+ String c EmptyString) +:+ name)).
    rewrite endsWith_unfold, IH.
    change (String d ((a +:+ String c EmptyString) +:+ name))
      with ((String d a +:+ String c EmptyString) +:+ name).
    rewrite Hn. reflexivity.
  - rewrite (endsWith_unfold (String c name)).
    change (String c name) with ((EmptyString +:+ String c EmptyString) +:+ name).
    rewrite Hn. reflexivity.
Qed.

Lemma protocolFixed_github (url : string) :
  startsWith url "github.com" = true -> protocolFixed url = "https://" +:+ url.
Proof.
  intros H. unfold protocolFixed, replacePrefix. rewrite (startsWith_split _ _ H).
  reflexivity.
Qed.

(** Nothing is rewritten in a URL that has no protocol, is not of the SSH
    form and does not begin with github.com. *)
Lemma protocolFixed_other (url : string) :
  hasProtocol url = false -> startsWith url "git@github.com:" = false ->
  startsWith url "github.com" = false -> protocolFixed url = url.
Proof.
  unfold hasProtocol. intros Hp Hs Hg.
  assert (H1 : startsWith url "git://" = false).
  { destruct (startsWith url "git://") eqn:E; [|reflexivity].
    rewrite (startsWith_includes url "git" "://" E) in Hp. discriminate. }
  assert (H2 : startsWith url "https://" = false).
  { destruct (startsWith url "https://") eqn:E; [|reflexivity].
    rewrite (startsWith_includes url "https" "://" E) in Hp. discriminate. }
  assert (H3 : startsWith url "http://" = false).
  { destruct (startsWith url "http://") eqn:E; [|reflexivity].
    rewrite (startsWith_includes url "http" "://" E) in Hp. discriminate. }
  unfold protocolFixed, replacePrefix. rewrite H1, Hs, H2, H3, Hg. reflexivity.
Qed.

Lemma bareHostPath_plain (url : string) :
  bareHostPath url = true ->
  hasProtocol url = false /\ startsWith url "git@github.com:" = false.
Proof.
  unfold bareHostPath. intros H.
  apply andb_true_iff in H as [H _]. apply andb_true_iff in H as [Hp Ha].
  apply negb_true_iff in Hp, Ha. split; [exact Hp|].
  destruct (startsWith url "git@github.com:") eqn:E; [|reflexivity].
  rewrite (startsWith_hasChar _ _ "@" E eq_refl) in Ha. discriminate.
Qed.

Lemma normalizedUrl_other (url : string) :
  hasProtocol url = false -> startsWith url "git@github.com:" = false ->
  startsWith url "github.com" = false ->
  normalizedUrl url = url +:+ (if endsWith url ".git" then "" else ".git") /\
  hasProtocol (normalizedUrl url) = false.
Proof.
  intros Hp Hs Hg. rewrite normalizedUrl_protocolFixed, (protocolFixed_other _ Hp Hs Hg).
  destruct (endsWith url ".git").
  - rewrite append_nil_r. split; [reflexivity|exact Hp].
  - split; [reflexivity|]. apply includes_append_git, Hp.
Qed.

(** C5 (amended): for every non-empty repository URL the normalised URL
    ends with the .git extension, which is appended when the URL does not
    end with it already.  The protocol https:// is prefixed to a URL that
    begins with the text github.com, which is the bare github.com/owner/repo
    form and also any other text with that beginning; every other URL
    without a protocol that is not of the SSH form git@github.com:, a bare
    host/owner/repo path on another host among them, is returned without a
    protocol: it is the URL itself, with the extension. *)
Theorem normalizeGitHubUrl_protocol_and_extension
        (host : Host) (this : CodeThreatAction) (url : string) (w : World) :
  url <> EmptyString ->
  exists v,
    fst (normalizeGitHubUrl host this url w) = Return v /\
    endsWith v ".git" = true /\
    (startsWith url "github.com" = true ->
     v = "https://" +:+ url +:+ (if endsWith url ".git" then "" else ".git") /\
     startsWith v "https://github.com" = true /\ hasProtocol v = true) /\
    (hasProtocol url = false -> startsWith url "git@github.com:" = false ->
     startsWith url "github.com" = false ->
     v = url +:+ (if endsWith url ".git" then "" else ".git") /\
     hasProtocol v = false) /\
    (bareHostPath url = true -> startsWith url "github.com" = false ->
     v = url +:+ (if endsWith url ".git" then "" else ".git") /\
     hasProtocol v = false).
Proof.
  intros Hne. rewrite normalizeGitHubUrl_value.
  rewrite (proj2 (String.eqb_neq _ _) Hne).
  eexists. split; [reflexivity|]. split; [apply normalizedUrl_endsWith_git|].
  split; [|split].
  - intros H. split; [|apply normalizedUrl_github_path, H].
    rewrite normalizedUrl_protocolFixed, (protocolFixed_github _ H).
    change ("https://" +:+ url) with (("https:/" +:+ "/") +:+ url).
    destruct (endsWith_after "https:/" url ".git" "/" eq_refl) as [-> ->].
    change (("https:/" +:+ "/") +:+ url) with ("https://" +:+ url).
    destruct (endsWith url ".git"); rewrite ?append_nil_r, ?append_assoc; reflexivity.
  - apply normalizedUrl_other.
  - intros Hb. destruct (bareHostPath_plain _ Hb) as [Hp Hs].
    apply normalizedUrl_other; assumption.
Qed.

Lemma normalizeGitHubUrl_protocol_and_extension_witness :
  (exists v,
      fst (normalizeGitHubUrl (demoHost demoRaw "" emptySarif uploadAccepted) demoAction
             "github.com/acme/widget" emptyWorld) = Return v /\
      endsWith v ".git" = true /\
      v = "https://github.com/acme/widget.git" /\
      startsWith v "https://github.com" = true /\ hasProtocol v = true) /\
  (exists v,
      fst (normalizeGitHubUrl (demoHost demoRaw "" emptySarif uploadAccepted) demoAction
             "github.community/acme/widget.git" emptyWorld) = Return v /\
      v = "https://github.community/acme/widget.git") /\
  (exists v,
      fst (normalizeGitHubUrl (demoHost demoRaw "" emptySarif uploadAccepted) demoAction
             "gitlab.com/acme/widget" emptyWorld) = Return v /\
      endsWith v ".git" = true /\
      v = "gitlab.com/acme/widget.git" /\ hasProtocol v = false).
Proof.
  split; [|split].
  - destruct (normalizeGitHubUrl_protocol_and_extension
                (demoHost demoRaw "" emptySarif uploadAccepted) demoAction
                "github.com/acme/widget" emptyWorld)
      as (v & E & He & Hg & _); [discriminate|].
    exists v. split; [exact E|]. split; [exact He|]. exact (Hg eq_refl).
  - destruct (normalizeGitHubUrl_protocol_and_extension
                (demoHost demoRaw "" emptySarif uploadAccepted) demoAction
                "github.community/acme/widget.git" emptyWorld)
      as (v & E & _ & Hg & _); [discriminate|].
    exists v. split; [exact E|]. exact (proj1 (Hg eq_refl)).
  - destruct (normalizeGitHubUrl_protocol_and_extension
                (demoHost demoRaw "" emptySarif uploadAccepted) demoAction
                "gitlab.com/acme/widget" emptyWorld)
      as (v & E & He & _ & _ & Hb); [discriminate|].
    exists v. split; [exact E|]. split; [exact He|]. exact (Hb eq_refl eq_refl).
Defined.


Lemma upper_shift (c : ascii) :
  isUpper c = true ->
  upperChar (ascii_of_nat (nat_of_ascii c + 32)) = upperChar c /\
  lowerChar (ascii_of_nat (nat_of_ascii c + 32)) = lowerChar c /\
  isAsciiChar (ascii_of_nat (nat_of_ascii c + 32)) = isAsciiChar c.
Proof.
  destruct c as [[] [] [] [] [] [] [] []]; intros H;
    first [discriminate H | repeat split; reflexivity].
Qed.

Lemma sameLetter_case (c d : ascii) :
  sameLetter c d ->
  upperChar c = upperChar d /\ lowerChar c = lowerChar d /\ isAsciiChar c = isAsciiChar d.
Proof.
  intros [->|[[Hu Hn]|[Hu Hn]]]; [repeat split; reflexivity| |].
  - rewrite <- (ascii_nat_embedding d), Hn.
    destruct (upper_shift c Hu) as (-> & -> & ->). repeat split; reflexivity.
  - rewrite <- (ascii_nat_embedding c), Hn.
    destruct (upper_shift d Hu) as (-> & -> & ->). repeat split; reflexivity.
Qed.

Lemma equalUpToCase_case (a b : string) :
  equalUpToCase a b ->
  upperAscii a = upperAscii b /\ lowerAscii a = lowerAscii b /\ isAscii a = isAscii b.
Proof.
  revert b. induction a as [|c a IH]; intros [|d b] H; simpl in H; try contradiction.
  - repeat split; reflexivity.
  - destruct H as [Hc Hs]. destruct (sameLetter_case _ _ Hc) as (Hu & Hl & Ha).
    destruct (IH _ Hs) as (Hu' & Hl' & Ha').
    unfold upperAscii, lowerAscii in *. simpl. rewrite Hu, Hl, Ha, Hu', Hl', Ha'.
    repeat split; reflexivity.
Qed.

Lemma substring_0_0 (s : string) : String.substring 0 0 s = EmptyString.
Proof. destruct s; reflexivity. Qed.

(** On ASCII text the case mapping needs no runtime. *)
Lemma toUpperCase_ascii (host : Host) (s : string) :
  isAscii s = true -> toUpperCase host s = upperAscii s.
Proof. intros H. unfold toUpperCase. rewrite H. reflexivity. Qed.

Lemma toLowerCase_ascii (host : Host) (s : string) :
  isAscii s = true -> toLowerCase host s = lowerAscii s.
Proof. intros H. unfold toLowerCase. rewrite H. reflexivity. Qed.

Lemma capitalize_ascii (host : Host) (type : string) :
  isAscii type = true -> capitalize host type = capitalized type.
Proof.
  destruct type as [|c rest]; [reflexivity|]. simpl. intros H.
  apply andb_prop in H. destruct H as [Hc Hr].
  unfold capitalize, firstUnitLength. rewrite Hc.
  simpl. rewrite substring_0_0.
  rewrite toUpperCase_ascii by (simpl; rewrite Hc; reflexivity).
  rewrite toLowerCase_ascii by exact Hr. reflexivity.
Qed.

(** The name is chosen by the upper-case form of the type alone. *)
Lemma friendlyName_by_upper (host : Host) (type : string) :
  getViolationTypeFriendlyName host type =
  if String.eqb (toUpperCase host type) "SCA" then "📦 Dependencies"
  else if String.eqb (toUpperCase host type) "SAST"
          || String.eqb (toUpperCase host type) "AGENTIC_SAST" then "🔒 Security Issues"
  else if String.eqb (toUpperCase host type) "SECRET"
          || String.eqb (toUpperCase host type) "SECRETS" then "🔑 Secrets"
  else if String.eqb (toUpperCase host type) "IAC" then "☁️ Infrastructure"
  else if String.eqb (toUpperCase host type) "SBOM" then "📋 Software Bill of Materials"
  else capitalize host type.
Proof. reflexivity. Qed.

Lemma friendlyName_unknown (host : Host) (type : string) :
  ~ In (toUpperCase host type) knownTypes ->
  getViolationTypeFriendlyName host type = capitalize host type.
Proof.
  intros H. rewrite friendlyName_by_upper.
  repeat match goal with
  | |- context [String.eqb (toUpperCase host type) ?k] =>
      destruct (String.eqb_spec (toUpperCase host type) k) as [E|_];
      [exfalso; apply H; rewrite E; simpl; tauto|]
  end.
  reflexivity.
Qed.

Lemma friendlyName_case_insensitive (host : Host) (a b : string) :
  isAscii a = true -> equalUpToCase a b ->
  getViolationTypeFriendlyName host a = getViolationTypeFriendlyName host b.
Proof.
  intros Ha H. destruct (equalUpToCase_case _ _ H) as (Hu & _ & Hab).
  assert (Hb : isAscii b = true) by (rewrite <- Hab; exact Ha).
  rewrite !friendlyName_by_upper, !capitalize_ascii, !toUpperCase_ascii, Hu by assumption.
  assert (Hd : capitalized a = capitalized b).
  { destruct a as [|c a], b as [|d b]; simpl in H; try contradiction; [reflexivity|].
    destruct H as [Hc Hs]. simpl.
    destruct (sameLetter_case _ _ Hc) as (-> & _ & _).
    destruct (equalUpToCase_case _ _ Hs) as (_ & -> & _). reflexivity. }
  rewrite Hd. reflexivity.
Qed.

(** Where C7 fails: with the runtime's Unicode case mapping, the two types
    ABΣ and ABσ have the same upper-case form, so they differ in the case
    of one letter only; neither is recognised, and the first is named Abς
    (the sigma that ends the word takes its final form) while the second is
    named Abσ. *)
Lemma sigma_case_variants_named_differently :
  toUpperCase sigmaHost "ABσ" = toUpperCase sigmaHost "ABΣ" /\
  getViolationTypeFriendlyName sigmaHost "ABΣ" = "Abς" /\
  getViolationTypeFriendlyName sigmaHost "ABσ" = "Abσ" /\
  getViolationTypeFriendlyName sigmaHost "ABΣ" <> getViolationTypeFriendlyName sigmaHost "ABσ".
Proof.
  repeat split; try reflexivity. vm_compute. discriminate.
Qed.

(** C7: the friendly name of a violation type is chosen by the upper-case
    form of the type: SCA is a dependency, SAST and AGENTIC_SAST are security
    issues, SECRET and SECRETS are secrets, IAC is infrastructure, SBOM is
    the bill of materials, and a type with any other upper-case form is
    shown with its first character in upper case and the rest in lower
    case.  Hence two types with the same recognised upper-case form get the
    same name, and two ASCII types equal up to the case of their letters get
    the same name, recognised or not.  sast, SAST and Agentic_Sast are
    security issues; secret and secrets are secrets; an unrecognised ASCII
    type such as foo is capitalised letter by letter: foo becomes Foo. *)
Theorem violation_type_bucketing (host : Host) :
  (forall a b : string,
      isAscii a = true -> equalUpToCase a b ->
      getViolationTypeFriendlyName host a = getViolationTypeFriendlyName host b) /\
  (forall a b : string,
      toUpperCase host a = toUpperCase host b -> In (toUpperCase host a) knownTypes ->
      getViolationTypeFriendlyName host a = getViolationTypeFriendlyName host b) /\
  (forall type : string,
      (toUpperCase host type = "SCA" ->
       getViolationTypeFriendlyName host type = "📦 Dependencies") /\
      (In (toUpperCase host type) ["SAST"; "AGENTIC_SAST"] ->
       getViolationTypeFriendlyName host type = "🔒 Security Issues") /\
      (In (toUpperCase host type) ["SECRET"; "SECRETS"] ->
       getViolationTypeFriendlyName host type = "🔑 Secrets") /\
      (toUpperCase host type = "IAC" ->
       getViolationTypeFriendlyName host type = "☁️ Infrastructure") /\
      (toUpperCase host type = "SBOM" ->
       getViolationTypeFriendlyName host type = "📋 Software Bill of Materials") /\
      (~ In (toUpperCase host type) knownTypes ->
       getViolationTypeFriendlyName host type = capitalize host type) /\
      (isAscii type = true ->
       toUpperCase host type = upperAscii type /\
       capitalize host type = capitalized type)) /\
  getViolationTypeFriendlyName host "sast" = "🔒 Security Issues" /\
  getViolationTypeFriendlyName host "SAST" = "🔒 Security Issues" /\
  getViolationTypeFriendlyName host "Agentic_Sast" = "🔒 Security Issues" /\
  getViolationTypeFriendlyName host "secret" = "🔑 Secrets" /\
  getViolationTypeFriendlyName host "secrets" = "🔑 Secrets" /\
  getViolationTypeFriendlyName host "foo" = "Foo".
Proof.
  split; [exact (friendlyName_case_insensitive host)|].
  split.
  { intros a b E Hin. rewrite !friendlyName_by_upper, <- E.
    simpl in Hin.
    destruct Hin as [<-|[<-|[<-|[<-|[<-|[<-|[<-|[]]]]]]]]; reflexivity. }
  split; [|repeat split; reflexivity].
  intros type. rewrite friendlyName_by_upper.
  split; [intros ->; reflexivity|].
  split; [intros [<-|[<-|[]]]; reflexivity|].
  split; [intros [<-|[<-|[]]]; reflexivity|].
  split; [intros ->; reflexivity|].
  split; [intros ->; reflexivity|].
  split.
  - rewrite <- friendlyName_by_upper. apply friendlyName_unknown.
  - intros H. split; [apply toUpperCase_ascii|apply capitalize_ascii]; exact H.
Qed.

Lemma violation_type_bucketing_witness :
  isAscii "Agentic_Sast" = true /\
  equalUpToCase "Agentic_Sast" "AGENTIC_sast" /\
  getViolationTypeFriendlyName sigmaHost "Agentic_Sast" =
  getViolationTypeFriendlyName sigmaHost "AGENTIC_sast" /\
  ~ In (toUpperCase sigmaHost "sarif_Type") knownTypes /\
  isAscii "sarif_Type" = true /\
  getViolationTypeFriendlyName sigmaHost "sarif_Type" = "Sarif_type".
Proof.
  assert (H : equalUpToCase "Agentic_Sast" "AGENTIC_sast").
  { simpl. unfold sameLetter. repeat split;
      first [ left; reflexivity | right; left; split; reflexivity | right; right; split; reflexivity ]. }
  assert (Hn : ~ In (toUpperCase sigmaHost "sarif_Type") knownTypes).
  { vm_compute. intuition discriminate. }
  split; [reflexivity|]. split; [exact H|].
  split; [exact (proj1 (violation_type_bucketing sigmaHost) "Agentic_Sast" "AGENTIC_sast"
                   eq_refl H)|].
  split; [exact Hn|]. split; [reflexivity|].
  destruct (proj1 (proj2 (proj2 (violation_type_bucketing sigmaHost))) "sarif_Type")
    as (_ & _ & _ & _ & _ & Hd & Ha).
  rewrite (Hd Hn). exact (proj2 (Ha eq_refl)).
Defined.
Lemma spanWordDash_append (w rest : string) :
  allWordDash w = true -> wordStops rest -> spanWordDash (w +:+ rest) = (w, rest).
Proof.
  intros Hw Hr. induction w as [|c w IH].
  - destruct rest as [|d rest]; simpl in *; [reflexivity|]. rewrite Hr. reflexivity.
  - simpl in Hw. apply andb_true_iff in Hw as [Hc Hw].
    change (String c w +:+ rest) with (String c (w +:+ rest)).
    simpl. rewrite Hc, (IH Hw). reflexivity.
Qed.

Lemma stripSuffix_unfold (s suf : string) :
  stripSuffix s suf =
  if String.eqb s suf then EmptyString
  else match s with
       | EmptyString => EmptyString
       | String c s' => String c (stripSuffix s' suf)
       end.
Proof. destruct s; reflexivity. Qed.

Lemma stripSuffix_append (x suf : string) : stripSuffix (x +:+ suf) suf = x.
Proof.
  induction x as [|c x IH].
  - simpl. rewrite stripSuffix_unfold, String.eqb_refl. reflexivity.
  - change (String c x +:+ suf) with (String c (x +:+ suf)).
    rewrite stripSuffix_unfold.
    destruct (String.eqb (String c (x +:+ suf)) suf) eqn:E.
    + apply String.eqb_eq in E. apply (f_equal String.length) in E.
      simpl in E. rewrite length_append in E. lia.
    + rewrite IH. reflexivity.
Qed.

Lemma stripSuffix_absent (s suf : string) :
  endsWith s suf = false -> stripSuffix s suf = s.
Proof.
  induction s as [|c s IH]; intros H; rewrite endsWith_unfold in H;
    apply orb_false_iff in H as [He Hs]; rewrite stripSuffix_unfold, He.
  - reflexivity.
  - rewrite (IH Hs). reflexivity.
Qed.

Lemma endsWith_hasChar (s suf : string) (c : ascii) :
  endsWith s suf = true -> hasChar c suf = true -> hasChar c s = true.
Proof.
  intros He Hc. induction s as [|d s IH]; rewrite endsWith_unfold in He;
    apply orb_true_iff in He as [He|He].
  - apply String.eqb_eq in He. subst suf. exact Hc.
  - discriminate.
  - apply String.eqb_eq in He. subst suf. exact Hc.
  - simpl. rewrite (IH He). apply orb_true_r.
Qed.

Lemma endsWith_append_inv (a b suf : string) :
  endsWith (a +:+ b) suf = true -> endsWith b suf = true \/ endsWith suf b = true.
Proof.
  induction a as [|c a IH]; intros H; [left; exact H|].
  change (String c a +:+ b) with (String c (a +:+ b)) in H.
  rewrite endsWith_unfold in H. apply orb_true_iff in H as [H|H]; [|auto].
  apply String.eqb_eq in H. subst suf. right.
  change (String c (a +:+ b)) with (String c a +:+ b).
  clear. induction (String c a) as [|d s IH].
  - simpl. rewrite endsWith_unfold, String.eqb_refl. reflexivity.
  - change (String d s +:+ b) with (String d (s +:+ b)).
    rewrite endsWith_unfold, IH. apply orb_true_r.
Qed.

Lemma allWordDash_no_dot (s : string) : allWordDash s = true -> hasChar "." s = false.
Proof.
  induction s as [|c s IH]; intros H; [reflexivity|].
  simpl in H. apply andb_true_iff in H as [Hc Hs]. cbn [hasChar]. rewrite (IH Hs).
  destruct (Ascii.eqb "." c) eqn:E; [|reflexivity].
  apply Ascii.eqb_eq in E. subst c. discriminate Hc.
Qed.

(** A URL that ends in [/name], with [name] in [[\w-]+], has no [.git]
    extension. *)
Lemma no_git_extension (a name : string) :
  allWordDash name = true -> endsWith (a +:+ "/" +:+ name) ".git" = false.
Proof.
  intros Hn. destruct (endsWith (a +:+ "/" +:+ name) ".git") eqn:E; [|reflexivity].
  apply endsWith_append_inv in E as [E|E].
  - apply (endsWith_hasChar _ _ ".") in E; [|reflexivity].
    cbn [hasChar String.append] in E. rewrite (allWordDash_no_dot _ Hn) in E. discriminate.
  - simpl in E. discriminate.
Qed.

Lemma cleanUrl_github (prefix ext rest name : string) :
  In prefix githubPrefixes -> In ext [""; ".git"] ->
  allWordDash name = true ->
  cleanUrl (prefix +:+ "github.com" +:+ rest +:+ "/" +:+ name +:+ ext)
  = "github.com" +:+ rest +:+ "/" +:+ name.
Proof.
  intros Hp He Hn.
  assert (Hs : stripSuffix (prefix +:+ "github.com" +:+ rest +:+ "/" +:+ name +:+ ext) ".git"
               = prefix +:+ "github.com" +:+ rest +:+ "/" +:+ name).
  { destruct He as [<-|[<-|[]]].
    - rewrite append_nil_r.
      apply stripSuffix_absent.
      rewrite <- !append_assoc. rewrite (append_assoc _ "/" name).
      apply no_git_extension, Hn.
    - rewrite <- !append_assoc. apply stripSuffix_append. }
  unfold cleanUrl. rewrite Hs. clear Hs.
  unfold githubPrefixes in Hp. simpl in Hp.
  repeat (destruct Hp as [<-|Hp]; [reflexivity|]). contradiction.
Qed.

Lemma matchGithub_here (s name : string) :
  matchGithubHere s = Some name -> matchGithub s = Some name.
Proof. intros H. destruct s; cbn [matchGithub]; rewrite H; reflexivity. Qed.

Lemma matchGithub_owner_repo (sep : ascii) (owner repo : string) :
  In sep [":"; "/"]%char ->
  allWordDash owner = true -> owner <> EmptyString ->
  allWordDash repo = true -> repo <> EmptyString ->
  matchGithub ("github.com" +:+ String sep owner +:+ "/" +:+ repo) = Some repo.
Proof.
  intros Hsep Ho Hone Hr Hrne.
  assert (H : matchGithubHere ("github.com" +:+ String sep owner +:+ "/" +:+ repo) = Some repo).
  { unfold matchGithubHere.
    change ("github.com" +:+ String sep owner +:+ "/" +:+ repo)
      with ("github.com" +:+ String sep (owner +:+ "/" +:+ repo)).
    cbn [startsWith String.append substringFrom Ascii.eqb Bool.eqb andb].
    assert (Hc : Ascii.eqb sep ":" || Ascii.eqb sep "/" = true).
    { destruct Hsep as [<-|[<-|[]]]; reflexivity. }
    rewrite Hc.
    rewrite (spanWordDash_append owner (String "/" repo) Ho); [|reflexivity].
    destruct owner as [|o owner]; [congruence|].
    rewrite <- (append_nil_r repo) at 1.
    rewrite (spanWordDash_append repo EmptyString Hr); [|exact I].
    destruct repo; [congruence|reflexivity]. }
  apply matchGithub_here, H.
Qed.

Lemma extractRepoName_github (prefix ext owner repo : string) (sep : ascii) :
  In prefix githubPrefixes -> In sep [":"; "/"]%char -> In ext [""; ".git"] ->
  allWordDash owner = true -> owner <> "" ->
  allWordDash repo = true -> repo <> "" ->
  extractRepoName (prefix +:+ "github.com" +:+ String sep owner +:+ "/" +:+ repo +:+ ext)
  = repo.
Proof.
  intros Hp Hsep He Ho Hone Hr Hrne. unfold extractRepoName.
  rewrite (cleanUrl_github prefix ext (String sep owner) repo Hp He Hr).
  rewrite (matchGithub_owner_repo sep owner repo Hsep Ho Hone Hr Hrne).
  destruct (String.eqb _ EmptyString) eqn:E; [|reflexivity].
  apply String.eqb_eq in E. apply (f_equal String.length) in E.
  rewrite !length_append in E. simpl in E. lia.
Qed.

Lemma stripSuffix_git_tail (a tail : string) :
  wordStops tail -> tail <> "" ->
  stripSuffix (a +:+ tail) ".git" = a +:+ stripSuffix tail ".git".
Proof.
  intros Hw Hne. induction a as [|c a IH]; [reflexivity|].
  change (String c a +:+ tail) with (String c (a +:+ tail)).
  rewrite stripSuffix_unfold, IH.
  destruct (String.eqb (String c (a +:+ tail)) ".git") eqn:E; [|reflexivity].
  exfalso. apply String.eqb_eq in E.
  destruct a as [|c1 [|c2 [|c3 a]]]; cbn [String.append] in E.
  - injection E as _ E. subst tail. discriminate Hw.
  - injection E as _ _ E. subst tail. discriminate Hw.
  - injection E as _ _ _ E. subst tail. discriminate Hw.
  - injection E as _ _ _ _ E. destruct a, tail; try discriminate E. congruence.
Qed.

Lemma wordStops_stripSuffix (tail : string) :
  wordStops tail -> wordStops (stripSuffix tail ".git").
Proof.
  intros H. destruct tail as [|c tail]; [exact I|].
  rewrite stripSuffix_unfold. destruct (String.eqb (String c tail) ".git"); [exact I|exact H].
Qed.

Lemma matchGithub_owner_repo_tail (sep : ascii) (owner repo tail : string) :
  In sep [":"; "/"]%char ->
  allWordDash owner = true -> owner <> EmptyString ->
  allWordDash repo = true -> repo <> EmptyString ->
  wordStops tail ->
  matchGithub ("github.com" +:+ String sep owner +:+ "/" +:+ repo +:+ tail) = Some repo.
Proof.
  intros Hsep Ho Hone Hr Hrne Ht.
  apply matchGithub_here. unfold matchGithubHere.
  change ("github.com" +:+ String sep owner +:+ "/" +:+ repo +:+ tail)
    with ("github.com" +:+ String sep (owner +:+ "/" +:+ repo +:+ tail)).
  cbn [startsWith String.append substringFrom Ascii.eqb Bool.eqb andb].
  assert (Hc : Ascii.eqb sep ":" || Ascii.eqb sep "/" = true).
  { destruct Hsep as [<-|[<-|[]]]; reflexivity. }
  rewrite Hc.
  rewrite (spanWordDash_append owner (String "/" (repo +:+ tail)) Ho); [|reflexivity].
  destruct owner as [|o owner]; [congruence|].
  rewrite (spanWordDash_append repo tail Hr Ht).
  destruct repo; [congruence|reflexivity].
Qed.

Lemma extractRepoName_github_tail (prefix owner repo tail : string) (sep : ascii) :
  In prefix githubPrefixes -> In sep [":"; "/"]%char ->
  allWordDash owner = true -> owner <> "" ->
  allWordDash repo = true -> repo <> "" ->
  wordStops tail ->
  extractRepoName (prefix +:+ "github.com" +:+ String sep owner +:+ "/" +:+ repo +:+ tail)
  = repo.
Proof.
  intros Hp Hsep Ho Hone Hr Hrne Ht.
  destruct (String.eqb tail "") eqn:Et.
  { apply String.eqb_eq in Et. subst tail.
    apply (extractRepoName_github prefix "" owner repo sep); simpl; auto. }
  apply String.eqb_neq in Et.
  set (tail' := stripSuffix tail ".git").
  assert (Hc : cleanUrl (prefix +:+ "github.com" +:+ String sep owner +:+ "/" +:+ repo +:+ tail)
               = "github.com" +:+ String sep owner +:+ "/" +:+ repo +:+ tail').
  { unfold cleanUrl.
    assert (Hs : stripSuffix
                   (prefix +:+ "github.com" +:+ String sep owner +:+ "/" +:+ repo +:+ tail)
                   ".git"
                 = prefix +:+ "github.com" +:+ String sep owner +:+ "/" +:+ repo +:+ tail').
    { rewrite <- !append_assoc. rewrite (stripSuffix_git_tail _ tail Ht Et). reflexivity. }
    rewrite Hs. unfold githubPrefixes in Hp. simpl in Hp.
    repeat (destruct Hp as [<-|Hp]; [reflexivity|]). contradiction. }
  unfold extractRepoName. rewrite Hc.
  rewrite (matchGithub_owner_repo_tail sep owner repo tail' Hsep Ho Hone Hr Hrne
             (wordStops_stripSuffix tail Ht)).
  destruct (String.eqb _ EmptyString) eqn:E; [|reflexivity].
  apply String.eqb_eq in E. apply (f_equal String.length) in E.
  rewrite !length_append in E. simpl in E. lia.
Qed.

(** *** URLs of other hosts *)























(** ** Decimal numerals *)

Lemma readDigits_uint (d : Decimal.uint) (acc : Z) :
  readDigits digitValue 10 (NilEmpty.string_of_uint d) (Some acc) = Some (uintValue d acc).
Proof.
  revert acc. induction d; intros acc; simpl; rewrite ?IHd; try reflexivity.
  f_equal. f_equal. lia.
Qed.

Lemma of_uint_acc_value (d : Decimal.uint) (acc : positive) :
  Z.pos (Pos.of_uint_acc d acc) = uintValue d (Z.pos acc).
Proof.
  revert acc. induction d; intros acc; simpl; rewrite ?IHd; try reflexivity; f_equal; lia.
Qed.

Lemma of_uint_value (d : Decimal.uint) : Z.of_uint d = uintValue d 0.
Proof.
  unfold Z.of_uint. induction d; simpl; try reflexivity;
    try (rewrite of_uint_acc_value; reflexivity).
  exact IHd.
Qed.

Lemma signed_value (l : Decimal.uint) (a b : Z) :
  a = b -> Num (1 * uintValue l a) = Num (uintValue l b) /\
           Num (-1 * uintValue l a) = Num (- uintValue l b).
Proof. intros ->. split; f_equal; lia. Qed.

(** [parseInt] reads a non-empty decimal numeral in full. *)
Lemma parseDigits_uint (d : Decimal.uint) :
  d <> Decimal.Nil ->
  parseInt (NilEmpty.string_of_uint d) = Num (Z.of_uint d) /\
  parseInt (String "-" (NilEmpty.string_of_uint d)) = Num (- Z.of_uint d).
Proof.
  intros Hd. rewrite of_uint_value.
  destruct d as [|l|l|l|l|l|l|l|l|l|l]; try congruence;
    try (unfold parseInt; simpl; rewrite !readDigits_uint;
         apply signed_value; reflexivity).
  destruct l; unfold parseInt; simpl; rewrite ?readDigits_uint;
    first [split; reflexivity | apply signed_value; reflexivity].
Qed.

Lemma parseInt_Z_toString (n : Z) : parseInt (Z_toString n) = Num n.
Proof.
  unfold Z_toString. destruct n as [|p|p]; [reflexivity| |].
  - simpl. unfold NilZero.string_of_uint.
    pose proof (Unsigned.to_uint_nonnil p) as Hn.
    destruct (parseDigits_uint _ Hn) as (H & _).
    destruct (Pos.to_uint p) eqn:E; try congruence; rewrite H;
      unfold Z.of_uint; rewrite <- E, DecimalPos.Unsigned.of_to; reflexivity.
  - simpl. unfold NilZero.string_of_uint.
    pose proof (Unsigned.to_uint_nonnil p) as Hn.
    destruct (parseDigits_uint _ Hn) as (_ & H).
    destruct (Pos.to_uint p) eqn:E; try congruence; rewrite H;
      unfold Z.of_uint; rewrite <- E, DecimalPos.Unsigned.of_to; reflexivity.
Qed.

Lemma Z_toString_nonempty (n : Z) : Z_toString n <> EmptyString.
Proof.
  unfold Z_toString. destruct n as [|p|p]; simpl; try discriminate.
  unfold NilZero.string_of_uint.
  pose proof (Unsigned.to_uint_nonnil p) as Hn.
  destruct (Pos.to_uint p); try congruence; discriminate.
Qed.

(** ** The configuration resolver *)

Lemma eqb_empty_false (s : string) : s <> EmptyString -> String.eqb s EmptyString = false.
Proof. intros H. apply String.eqb_neq. exact H. Qed.

Lemma orElse_nonempty (s d : string) : s <> EmptyString -> orElse s d = s.
Proof. intros H. unfold orElse. rewrite (eqb_empty_false _ H). reflexivity. Qed.

Lemma parseInputs_supplied (host : Host) (raw : RawInputs) (w : World) :
  supplies host raw -> wellFormed raw ->
  exists evs, parseInputs host w = (parseOutcome (context host) raw, addEvents w evs)
              /\ Forall isLog evs.
Proof.
  intros (H1 & H2 & H3 & H4 & H5 & H6 & H7 & H8 & H9 & H10 & H11 & H12 & H13 & H14 & H15 & H16)
         (Hk & Ho & Hf).
  unfold parseInputs, parseOutcome, Logger_new, core_getInput, core_getBooleanInput.
  rewrite H1, H2, H3, H4, H5, H6, H7, H8, H9, H10, H11, H12, H13, H14, H15, H16.
  cbv beta iota delta [bind lift ret when throw].
  rewrite (eqb_empty_false _ Hk), (eqb_empty_false _ Ho), Hf.
  fold (timeoutOf raw) (pollIntervalOf raw) (maxViolationsOf raw).
  cbv beta iota.
  destruct (js_lt (timeoutOf raw) (Num 60) || js_gt (timeoutOf raw) (Num 86400)).
  { exists []. rewrite addEvents_nil. split; [reflexivity|constructor]. }
  destruct (js_lt (pollIntervalOf raw) (Num 10) || js_gt (pollIntervalOf raw) (Num 60)).
  { exists []. rewrite addEvents_nil. split; [reflexivity|constructor]. }
  cbn [negb].
  match goal with |- context [Logger_debug ?h ?l ?m ?d w] =>
    destruct (logged_debug h l m d w) as (evs & E & F); rewrite E end.
  exists evs. split; [reflexivity|exact F].
Qed.

Lemma parseInputs_outcome (host : Host) (raw : RawInputs) (w : World) :
  supplies host raw -> wellFormed raw ->
  fst (parseInputs host w) = parseOutcome (context host) raw.
Proof.
  intros Hs Hw. destruct (parseInputs_supplied host raw w Hs Hw) as (evs & E & _).
  rewrite E. reflexivity.
Qed.

Lemma integerText_parse (s : string) (n : Z) :
  integerText s n -> s <> EmptyString /\ parseInt s = Num n.
Proof.
  intros [->|H]; [|exact H].
  split; [apply Z_toString_nonempty|apply parseInt_Z_toString].
Qed.

Lemma rangeCheck_fails (lo hi n : Z) :
  js_lt (Num n) (Num lo) || js_gt (Num n) (Num hi) = true <-> n < lo \/ hi < n.
Proof.
  unfold js_gt, js_lt. rewrite orb_true_iff, !Z.ltb_lt. reflexivity.
Qed.

Lemma rangeCheck_passes (lo hi n : Z) :
  js_lt (Num n) (Num lo) || js_gt (Num n) (Num hi) = false <-> lo <= n <= hi.
Proof.
  unfold js_gt, js_lt. rewrite orb_false_iff, !Z.ltb_ge. lia.
Qed.

Lemma parseInt_nonNumeric (s : string) : nonNumeric s -> parseInt s = NaN.
Proof.
  intros [_ H]. unfold beginsWithDigit in H. unfold parseInt.
  destruct (trimStart s) as [|c r]; [reflexivity|].
  destruct c as [[] [] [] [] [] [] [] []]; simpl in H; try discriminate H;
    try reflexivity;
    (destruct r as [|d r]; [reflexivity|];
     destruct d as [[] [] [] [] [] [] [] []]; simpl in H; try discriminate H;
     reflexivity).
Qed.

(** C2: on a host whose other inputs are in order, and for every integer
    timeout [n] and poll interval [p]: the resolver raises the timeout
    error exactly when [n] is outside [60, 86400]; with the timeout in
    range it raises the poll-interval error exactly when [p] is outside
    [10, 60]; it raises at all exactly when one of the two is out of range,
    and otherwise returns a configuration holding [n] and [p].  The
    boundary values 60, 86400, 10 and 60 are accepted; 59, 86401, 9 and 61
    are rejected. *)
Theorem timeout_and_poll_interval_range :
  (forall (host : Host) (raw : RawInputs) (w : World) (n p : Z),
      supplies host raw -> wellFormed raw ->
      integerText (raw_timeout raw) n -> integerText (raw_pollInterval raw) p ->
      (fst (parseInputs host w) = Throw (JsError timeoutMessage) <-> n < 60 \/ 86400 < n) /\
      (60 <= n <= 86400 ->
       (fst (parseInputs host w) = Throw (JsError pollIntervalMessage) <-> p < 10 \/ 60 < p)) /\
      ((exists e, fst (parseInputs host w) = Throw e)
       <-> n < 60 \/ 86400 < n \/ p < 10 \/ 60 < p) /\
      (60 <= n <= 86400 -> 10 <= p <= 60 ->
       exists cfg, fst (parseInputs host w) = Return cfg /\
                   timeout cfg = Num n /\ pollInterval cfg = Num p)) /\
  (let run t p :=
     fst (parseInputs (demoHost (withNumbers t p "") "" emptySarif uploadAccepted) emptyWorld) in
   run "60" "10" = Return (configOf demoContext (withNumbers "60" "10" "")) /\
   run "86400" "60" = Return (configOf demoContext (withNumbers "86400" "60" "")) /\
   run "59" "30" = Throw (JsError timeoutMessage) /\
   run "86401" "30" = Throw (JsError timeoutMessage) /\
   run "3600" "9" = Throw (JsError pollIntervalMessage) /\
   run "3600" "61" = Throw (JsError pollIntervalMessage)).
Proof.
  split; [|repeat split].
  intros host raw w n p Hs Hw Ht Hp.
  rewrite (parseInputs_outcome host raw w Hs Hw).
  apply integerText_parse in Ht as [Htn Ht]. apply integerText_parse in Hp as [Hpn Hp].
  unfold parseOutcome, timeoutOf, pollIntervalOf.
  rewrite (orElse_nonempty _ _ Htn), (orElse_nonempty _ _ Hpn), Ht, Hp.
  pose proof (rangeCheck_fails 60 86400 n) as Tf.
  pose proof (rangeCheck_passes 60 86400 n) as Tp.
  pose proof (rangeCheck_fails 10 60 p) as Pf.
  pose proof (rangeCheck_passes 10 60 p) as Pp.
  destruct (js_lt (Num n) (Num 60) || js_gt (Num n) (Num 86400)) eqn:Et;
    [|destruct (js_lt (Num p) (Num 10) || js_gt (Num p) (Num 60)) eqn:Ep].
  - assert (Hn : n < 60 \/ 86400 < n) by (apply Tf; reflexivity).
    repeat split; try (intros; lia); try tauto.
    + intros _. eexists. reflexivity.
  - assert (Hn : 60 <= n <= 86400) by (apply Tp; reflexivity).
    assert (Hq : p < 10 \/ 60 < p) by (apply Pf; reflexivity).
    repeat split; try (intros; lia); try tauto; try discriminate.
    + intros _. eexists. reflexivity.
  - assert (Hn : 60 <= n <= 86400) by (apply Tp; reflexivity).
    assert (Hq : 10 <= p <= 60) by (apply Pp; reflexivity).
    repeat split; try (intros; lia); try discriminate.
    + intros [e He]. discriminate.
    + intros _ _. eexists. split; [reflexivity|].
      unfold configOf, timeoutOf, pollIntervalOf. simpl.
      rewrite (orElse_nonempty _ _ Htn), (orElse_nonempty _ _ Hpn), Ht, Hp. split; reflexivity.
Qed.

Lemma timeout_and_poll_interval_range_witness :
  fst (parseInputs (demoHost (withNumbers "-5" "45" "") "" emptySarif uploadAccepted) emptyWorld)
  = Throw (JsError timeoutMessage).
Proof.
  apply (proj1 (proj1 timeout_and_poll_interval_range
                  (demoHost (withNumbers "-5" "45" "") "" emptySarif uploadAccepted)
                  (withNumbers "-5" "45" "") emptyWorld (-5) 45
                  ltac:(repeat split)
                  ltac:(repeat split; discriminate)
                  ltac:(left; reflexivity)
                  ltac:(left; reflexivity))).
  lia.
Defined.

(** C9: [NaN] fails every comparison; a non-empty text that does not begin
    with a digit parses to [NaN]; on a host whose other inputs are in
    order, a non-numeric timeout, poll interval or max-violations text
    raises no error: the configuration is returned with [NaN] in that
    field. *)
Theorem non_numeric_input_accepted :
  (forall x : jsnum,
      js_lt NaN x = false /\ js_gt NaN x = false /\
      js_lt x NaN = false /\ js_gt x NaN = false) /\
  (forall s : string, nonNumeric s -> parseInt s = NaN) /\
  (forall (host : Host) (raw : RawInputs) (w : World),
      supplies host raw -> wellFormed raw ->
      (nonNumeric (raw_timeout raw) -> passesRange 10 60 (pollIntervalOf raw) ->
       exists cfg, fst (parseInputs host w) = Return cfg /\ timeout cfg = NaN) /\
      (nonNumeric (raw_pollInterval raw) -> passesRange 60 86400 (timeoutOf raw) ->
       exists cfg, fst (parseInputs host w) = Return cfg /\ pollInterval cfg = NaN) /\
      (nonNumeric (raw_maxViolations raw) ->
       passesRange 60 86400 (timeoutOf raw) -> passesRange 10 60 (pollIntervalOf raw) ->
       exists cfg, fst (parseInputs host w) = Return cfg /\ maxViolations cfg = NaN)) /\
  (let run t p m :=
     fst (parseInputs (demoHost (withNumbers t p m) "" emptySarif uploadAccepted) emptyWorld) in
   nonNumeric "abc" /\
   run "abc" "" "" = Return (configOf demoContext (withNumbers "abc" "" "")) /\
   timeout (configOf demoContext (withNumbers "abc" "" "")) = NaN /\
   run "" "soon" "" = Return (configOf demoContext (withNumbers "" "soon" "")) /\
   pollInterval (configOf demoContext (withNumbers "" "soon" "")) = NaN /\
   run "" "" "none" = Return (configOf demoContext (withNumbers "" "" "none")) /\
   maxViolations (configOf demoContext (withNumbers "" "" "none")) = NaN).
Proof.
  assert (Hpass : forall lo hi x, passesRange lo hi x ->
                    js_lt x (Num lo) || js_gt x (Num hi) = false).
  { intros lo hi [z|] H; [|reflexivity]. apply rangeCheck_passes, H. }
  split; [|split; [|split]].
  - intros [z|]; repeat split.
  - exact parseInt_nonNumeric.
  - intros host raw w Hs Hw.
    rewrite (parseInputs_outcome host raw w Hs Hw). unfold parseOutcome.
    split; [|split].
    + intros Ht Hp. pose proof (parseInt_nonNumeric _ Ht) as E. destruct Ht as [Htn _].
      assert (Et : timeoutOf raw = NaN)
        by (unfold timeoutOf; rewrite (orElse_nonempty _ _ Htn); exact E).
      rewrite Et, (Hpass _ _ _ Hp). simpl.
      eexists. split; [reflexivity|exact Et].
    + intros Hp Ht. pose proof (parseInt_nonNumeric _ Hp) as E. destruct Hp as [Hpn _].
      assert (Ep : pollIntervalOf raw = NaN)
        by (unfold pollIntervalOf; rewrite (orElse_nonempty _ _ Hpn); exact E).
      rewrite Ep, (Hpass _ _ _ Ht). simpl.
      eexists. split; [reflexivity|exact Ep].
    + intros Hm Ht Hp. pose proof (parseInt_nonNumeric _ Hm) as E. destruct Hm as [Hmn _].
      rewrite (Hpass _ _ _ Ht), (Hpass _ _ _ Hp).
      eexists. split; [reflexivity|].
      simpl. unfold maxViolationsOf. rewrite (orElse_nonempty _ _ Hmn). exact E.
  - repeat split. discriminate.
Qed.

Lemma non_numeric_input_accepted_witness :
  parseInt "abc" = NaN /\
  exists cfg,
    fst (parseInputs (demoHost (withNumbers "abc" "" "") "" emptySarif uploadAccepted) emptyWorld)
    = Return cfg /\ timeout cfg = NaN.
Proof.
  split.
  - apply (proj1 (proj2 non_numeric_input_accepted) "abc").
    split; [discriminate|reflexivity].
  - apply (proj1 (proj1 (proj2 (proj2 non_numeric_input_accepted))
                    (demoHost (withNumbers "abc" "" "") "" emptySarif uploadAccepted)
                    (withNumbers "abc" "" "") emptyWorld
                    ltac:(repeat split)
                    ltac:(repeat split; discriminate))).
    + split; [discriminate|reflexivity].
    + vm_compute. split; discriminate.
Defined.

(** ** Failure thresholds *)

Section Thresholds.
Variable host : Host.
Variable this : CodeThreatAction.
Variable r : ScanResults.
Variable w : World.

Lemma check_critical_fails :
  criticalCheckFails (inputs this) r = true ->
  checkFailureConditions host this r w
  = (Throw (JsError (criticalMessage (criticalCount r))), w).
Proof.
  unfold criticalCheckFails, checkFailureConditions. cbv zeta. intros ->. reflexivity.
Qed.

Lemma check_high_fails :
  criticalCheckFails (inputs this) r = false ->
  highCheckFails (inputs this) r = true ->
  checkFailureConditions host this r w
  = (Throw (JsError (highMessage (highCount r))), w).
Proof.
  unfold criticalCheckFails, highCheckFails, checkFailureConditions. cbv zeta.
  intros -> ->. reflexivity.
Qed.

Lemma check_maxViolations_fails :
  criticalCheckFails (inputs this) r = false ->
  highCheckFails (inputs this) r = false ->
  maxViolationsCheckFails (inputs this) r = true ->
  checkFailureConditions host this r w
  = (Throw (JsError (maxViolationsMessage (violationCount r) (maxViolations (inputs this)))), w).
Proof.
  unfold criticalCheckFails, highCheckFails, maxViolationsCheckFails, checkFailureConditions.
  cbv zeta. intros -> -> ->. reflexivity.
Qed.

Lemma check_passes :
  thresholdCrossed (inputs this) r = false ->
  exists evs, checkFailureConditions host this r w = (Return tt, addEvents w evs)
              /\ Forall isLog evs.
Proof.
  unfold thresholdCrossed. intros H.
  apply orb_false_iff in H as [H H3]. apply orb_false_iff in H as [H1 H2].
  unfold criticalCheckFails, highCheckFails, maxViolationsCheckFails in *.
  unfold checkFailureConditions. cbv zeta. rewrite H1, H2, H3.
  match goal with |- context [bind (when false ?a) (fun _ => bind (when false ?b)
                                (fun _ => bind (when false ?c) (fun _ => ?k))) w] =>
    change (bind (when false a) (fun _ => bind (when false b)
              (fun _ => bind (when false c) (fun _ => k))) w) with (k w);
    assert (L : logged k) by auto 10 with logs
  end.
  apply L.
Qed.
End Thresholds.

(** C1: [checkFailureConditions] raises exactly when one of the enabled
    checks is violated.  With fail-on-critical set, a critical count above
    0 raises and a critical count of 0 does not; with a positive
    max-violations threshold, a total above the threshold raises and a
    total up to the threshold (the threshold included) does not. *)
Theorem threshold_evaluation
        (host : Host) (this : CodeThreatAction) (r : ScanResults) (w : World) :
  (failOnCritical (inputs this) = true ->
   forall c, criticalCount r = Num c ->
     (0 < c -> checkFailureConditions host this r w
               = (Throw (JsError (criticalMessage (Num c))), w)) /\
     (c = 0 -> highCheckFails (inputs this) r = false ->
               maxViolationsCheckFails (inputs this) r = false ->
               exists w', checkFailureConditions host this r w = (Return tt, w'))) /\
  (forall m v, maxViolations (inputs this) = Num m -> 0 < m -> violationCount r = Num v ->
     criticalCheckFails (inputs this) r = false -> highCheckFails (inputs this) r = false ->
     (m < v -> checkFailureConditions host this r w
               = (Throw (JsError (maxViolationsMessage (Num v) (Num m))), w)) /\
     (v <= m -> exists w', checkFailureConditions host this r w = (Return tt, w'))) /\
  (thresholdCrossed (inputs this) r = false ->
   exists evs, checkFailureConditions host this r w = (Return tt, addEvents w evs)
               /\ Forall isLog evs) /\
  (thresholdCrossed (inputs this) r = true ->
   exists e, checkFailureConditions host this r w = (Throw e, w)).
Proof.
  split; [|split; [|split]].
  - intros Hf c Hc. split.
    + intros Hpos. rewrite <- Hc. apply check_critical_fails.
      unfold criticalCheckFails, js_gt, js_lt. rewrite Hf, Hc. simpl.
      apply Z.ltb_lt, Hpos.
    + intros -> H2 H3.
      destruct (check_passes host this r w) as (evs & E & _).
      * unfold thresholdCrossed, criticalCheckFails. rewrite Hf, Hc, H2, H3. reflexivity.
      * eexists. exact E.
  - intros m v Hm Hpos Hv H1 H2. split.
    + intros Hlt. rewrite <- Hm, <- Hv. apply check_maxViolations_fails; auto.
      unfold maxViolationsCheckFails, js_gt, js_lt. rewrite Hm, Hv.
      apply andb_true_iff. split; apply Z.ltb_lt; assumption.
    + intros Hle.
      destruct (check_passes host this r w) as (evs & E & _).
      * unfold thresholdCrossed. rewrite H1, H2.
        unfold maxViolationsCheckFails, js_gt, js_lt. rewrite Hm, Hv. simpl.
        apply andb_false_iff. right. apply Z.ltb_ge, Hle.
      * eexists. exact E.
  - apply check_passes.
  - unfold thresholdCrossed. intros H.
    destruct (criticalCheckFails (inputs this) r) eqn:H1.
    { eexists. apply check_critical_fails, H1. }
    destruct (highCheckFails (inputs this) r) eqn:H2.
    { eexists. apply check_high_fails; assumption. }
    eexists. apply check_maxViolations_fails; assumption.
Qed.

Lemma threshold_evaluation_witness :
  let host := demoHost demoRaw "" emptySarif uploadAccepted in
  checkFailureConditions host (withThresholds true false (Num 0)) (withCounts 1 1 0) emptyWorld
  = (Throw (JsError "Build failed: 1 critical vulnerabilities found"), emptyWorld) /\
  (exists w', checkFailureConditions host (withThresholds true false (Num 0))
                (withCounts 0 0 0) emptyWorld = (Return tt, w')) /\
  checkFailureConditions host (withThresholds false false (Num 10)) (withCounts 11 0 0) emptyWorld
  = (Throw (JsError "Build failed: 11 violations exceed maximum allowed (10)"), emptyWorld) /\
  (exists w', checkFailureConditions host (withThresholds false false (Num 10))
                (withCounts 10 0 0) emptyWorld = (Return tt, w')).
Proof.
  intros host. split; [|split; [|split]].
  - apply (proj1 (proj1 (threshold_evaluation host (withThresholds true false (Num 0))
                           (withCounts 1 1 0) emptyWorld) eq_refl 1 eq_refl)).
    lia.
  - apply (proj2 (proj1 (threshold_evaluation host (withThresholds true false (Num 0))
                           (withCounts 0 0 0) emptyWorld) eq_refl 0 eq_refl));
      reflexivity.
  - apply (proj1 (proj1 (proj2 (threshold_evaluation host (withThresholds false false (Num 10))
                                  (withCounts 11 0 0) emptyWorld))
                    10 11 eq_refl ltac:(lia) eq_refl eq_refl eq_refl)).
    lia.
  - apply (proj2 (proj1 (proj2 (threshold_evaluation host (withThresholds false false (Num 10))
                                  (withCounts 10 0 0) emptyWorld))
                    10 10 eq_refl ltac:(lia) eq_refl eq_refl eq_refl)).
    lia.
Defined.

(** ** SARIF validation *)

Section Validation.
Variable host : Host.
Variable this : SarifUploader.

Lemma validate_rejects (document : JsValue) (w : World) :
  missing document "$schema" \/ missing document "version" \/
  isArray (field document "runs") = false ->
  exists e, validateSarifFormat host this document w = (Throw e, w).
Proof.
  unfold missing. intros H.
  destruct document as [| | b | n | s | items | fields];
    try (eexists; reflexivity).
  simpl in H. unfold validateSarifFormat, getProp.
  cbv beta iota delta [bind ret when throw].
  destruct (truthy (lookupField fields "$schema")) eqn:Es; cbn [negb];
    [|eexists; reflexivity].
  destruct (truthy (lookupField fields "version")) eqn:Ev; cbn [negb];
    [|eexists; reflexivity].
  destruct H as [H|[H|H]].
  - rewrite H in Es. discriminate.
  - rewrite H in Ev. discriminate.
  - destruct (lookupField fields "runs"); try (eexists; reflexivity).
    discriminate.
Qed.

Lemma validate_accepts_empty_runs (document : JsValue) (w : World) :
  truthy (field document "$schema") = true ->
  truthy (field document "version") = true ->
  field document "runs" = JArr [] ->
  exists evs,
    validateSarifFormat host this document w
    = (Return tt, addEvents w (CoreWarning noRunsWarning :: evs)) /\
    Forall isDebugLine evs /\
    (verbose (su_logger this) = false -> evs = []).
Proof.
  intros Hs Hv Hr.
  destruct document as [| | b | n | s | items | fields]; try discriminate.
  simpl in Hs, Hv, Hr. unfold validateSarifFormat, getProp.
  cbv beta iota delta [bind ret when throw].
  rewrite Hs, Hv, Hr. cbn [negb List.length Nat.eqb countResults].
  unfold Logger_warning, Logger_debug, core_warning, core_info, emit.
  cbv beta iota delta [bind ret when throw dataTruthy andb].
  destruct (verbose (su_logger this)); cbn [truthy].
  - eexists. split; [|split].
    + unfold addEvents. cbn [history processEnv]. rewrite <- !app_assoc. reflexivity.
    + repeat constructor; eexists; reflexivity.
    + discriminate.
  - exists []. split; [reflexivity|]. split; [constructor|reflexivity].
Qed.

(** Validation runs before the upload: a document that fails it leaves
    no call to the code-scanning endpoint in the history. *)
Lemma upload_rejected_before_network
      (document : JsValue) (path content : string) (w : World) :
  pathExists host w path = Return true ->
  readFile host (addEvents w [FsPathExists path]) path = Return content ->
  JSON_parse host content = Return document ->
  (missing document "$schema" \/ missing document "version" \/
   isArray (field document "runs") = false) ->
  exists e,
    SarifUploader_uploadSarif host this path w
    = (Throw e, addEvents w [FsPathExists path; FsReadFile path]).
Proof.
  intros Hp Hr Hj Hbad.
  unfold SarifUploader_uploadSarif, tryCatch.
  unfold bind at 1. unfold call at 1. rewrite Hp.
  unfold bind at 1. cbn [negb when ret].
  unfold bind at 1. unfold call at 1.
  change {| processEnv := processEnv w; history := (history w ++ [FsPathExists path])%list |}
    with (addEvents w [FsPathExists path]).
  rewrite Hr.
  unfold bind at 1. unfold lift at 1. rewrite Hj.
  unfold bind at 1.
  match goal with |- context [validateSarifFormat host this document ?w1] =>
    destruct (validate_rejects document w1 Hbad) as (e & E); rewrite E end.
  unfold addEvents. cbn [history processEnv]. rewrite <- !app_assoc. cbn [app].
  destruct e as [m|].
  - destruct (includes m "Advanced Security"); eexists; reflexivity.
  - eexists. reflexivity.
Qed.
End Validation.

(** C8, as the specification states it, fails on a document that has the
    three fields and an empty list of runs but an empty schema identifier:
    validation raises. *)
Lemma blank_schema_rejected :
  present blankSchemaSarif "$schema" /\ present blankSchemaSarif "version" /\
  field blankSchemaSarif "runs" = JArr [] /\
  validateSarifFormat (demoHost demoRaw "" blankSchemaSarif uploadAccepted)
    demoUploader blankSchemaSarif emptyWorld
  = (Throw (JsError "Invalid SARIF: Missing $schema property"), emptyWorld).
Proof. repeat split; discriminate. Qed.

(** C8 (amended): validation raises, and the upload is abandoned before the
    code-scanning endpoint is called, for every document whose schema
    identifier is missing, whose version is missing, or whose runs field is
    absent or not a list; for every document whose schema identifier and
    version are present and not empty (truthy) and whose runs field is the
    empty list, validation returns and the only thing it reports outside
    debug output is the no-runs warning. *)
Theorem sarif_validation
        (host : Host) (this : SarifUploader) (document : JsValue) (w : World) :
  ((missing document "$schema" \/ missing document "version" \/
    isArray (field document "runs") = false) ->
   (exists e, validateSarifFormat host this document w = (Throw e, w)) /\
   (forall path content,
       pathExists host w path = Return true ->
       readFile host (addEvents w [FsPathExists path]) path = Return content ->
       JSON_parse host content = Return document ->
       exists e, SarifUploader_uploadSarif host this path w
                 = (Throw e, addEvents w [FsPathExists path; FsReadFile path]))) /\
  (truthy (field document "$schema") = true ->
   truthy (field document "version") = true ->
   field document "runs" = JArr [] ->
   exists evs,
     validateSarifFormat host this document w
     = (Return tt, addEvents w (CoreWarning noRunsWarning :: evs)) /\
     Forall isDebugLine evs /\
     (verbose (su_logger this) = false -> evs = [])).
Proof.
  split.
  - intros Hbad. split.
    + apply validate_rejects, Hbad.
    + intros path content Hp Hr Hj.
      apply (upload_rejected_before_network host this document path content w); assumption.
  - apply validate_accepts_empty_runs.
Qed.

Lemma sarif_validation_witness :
  let noSchema := JObj [("version", JStr "2.1.0"); ("runs", JArr [])] in
  let host := demoHost demoRaw "" noSchema uploadAccepted in
  (exists e, validateSarifFormat host demoUploader noSchema emptyWorld = (Throw e, emptyWorld)) /\
  (exists e, SarifUploader_uploadSarif host demoUploader "codethreat-results.sarif" emptyWorld
             = (Throw e, addEvents emptyWorld [FsPathExists "codethreat-results.sarif";
                                               FsReadFile "codethreat-results.sarif"])) /\
  (exists evs,
     validateSarifFormat host demoUploader emptySarif emptyWorld
     = (Return tt, addEvents emptyWorld (CoreWarning noRunsWarning :: evs)) /\
     Forall isDebugLine evs /\
     (verbose (su_logger demoUploader) = false -> evs = [])).
Proof.
  intros noSchema host.
  assert (Hbad : missing noSchema "$schema" \/ missing noSchema "version" \/
                 isArray (field noSchema "runs") = false) by (left; reflexivity).
  split; [|split].
  - apply (proj1 (proj1 (sarif_validation host demoUploader noSchema emptyWorld) Hbad)).
  - apply (proj2 (proj1 (sarif_validation host demoUploader noSchema emptyWorld) Hbad)
             "codethreat-results.sarif" "{}"); reflexivity.
  - apply (proj2 (sarif_validation host demoUploader emptySarif emptyWorld));
      reflexivity.
Defined.

(** ** The pipeline and the findings publisher *)

Lemma logged_alwaysReturns (m : M unit) : logged m -> alwaysReturns m.
Proof. intros H w. destruct (H w) as (evs & E & _). eauto. Qed.

Lemma alwaysReturns_tryCatch {A} (body : M A) (handler : exn -> M A) :
  (forall e, alwaysReturns (handler e)) -> alwaysReturns (tryCatch body handler).
Proof.
  intros H w. unfold tryCatch. destruct (body w) as [[a|e] w']; [eauto|apply H].
Qed.

Lemma alwaysReturns_bind {A B} (m : M A) (k : A -> M B) :
  alwaysReturns m -> (forall a, alwaysReturns (k a)) -> alwaysReturns (bind m k).
Proof.
  intros Hm Hk w. unfold bind. destruct (Hm w) as (a & w' & ->). apply Hk.
Qed.

Lemma alwaysReturns_when (c : bool) (m : M unit) :
  alwaysReturns m -> alwaysReturns (when c m).
Proof. intros H. destruct c; [exact H|]. intros w. exists tt, w. reflexivity. Qed.

Lemma alwaysReturns_whenString (s : option string) (body : string -> M unit) :
  (forall v, alwaysReturns (body v)) -> alwaysReturns (whenString s body).
Proof.
  intros H. destruct s as [v|]; simpl.
  - apply alwaysReturns_when, H.
  - intros w. exists tt, w. reflexivity.
Qed.

Lemma worldFree_bind {A B} (m : M A) (k : A -> M B) :
  worldFree m -> (forall a, worldFree (k a)) -> worldFree (bind m k).
Proof.
  intros Hm Hk w1 w2. unfold bind. specialize (Hm w1 w2).
  destruct (m w1) as [[a1|e1] w1'], (m w2) as [[a2|e2] w2']; simpl in Hm;
    try discriminate; inversion Hm; subst; [apply Hk|reflexivity].
Qed.

Lemma worldFree_ret {A} (a : A) : worldFree (ret a).
Proof. intros w1 w2. reflexivity. Qed.

Lemma fst_bind_tail {A B} (m : M A) (k1 k2 : A -> M B) (w : World) :
  (forall a w', fst (k1 a w') = fst (k2 a w')) ->
  fst (bind m k1 w) = fst (bind m k2 w).
Proof. intros H. unfold bind. destruct (m w) as [[a|e] w']; [apply H|reflexivity]. Qed.

Lemma fst_bind_alwaysReturns {A B} (m1 m2 : M A) (k : A -> M B) (w1 w2 : World) :
  alwaysReturns m1 -> alwaysReturns m2 -> (forall a b : A, a = b) -> (forall a, worldFree (k a)) ->
  fst (bind m1 k w1) = fst (bind m2 k w2).
Proof.
  intros T1 T2 Hu Hk. unfold bind.
  destruct (T1 w1) as (a1 & w1' & ->). destruct (T2 w2) as (a2 & w2' & ->).
  rewrite (Hu a1 a2). apply Hk.
Qed.

Lemma fst_tryCatch {A} (b1 b2 : M A) (handler : exn -> M A) (w : World) :
  fst (b1 w) = fst (b2 w) -> (forall e, worldFree (handler e)) ->
  fst (tryCatch b1 handler w) = fst (tryCatch b2 handler w).
Proof.
  intros Hb Hh. unfold tryCatch.
  destruct (b1 w) as [[a1|e1] w1], (b2 w) as [[a2|e2] w2]; simpl in Hb;
    try discriminate; inversion Hb; subst; [reflexivity|apply Hh].
Qed.

Section Publisher.
Variable host : Host.

(** A failed upload is caught: [uploadSarifResults] always returns, and
    the failure is reported as a warning. *)
Lemma uploadSarifResults_alwaysReturns (this : CodeThreatAction) (file : string) :
  alwaysReturns (uploadSarifResults host this file).
Proof.
  unfold uploadSarifResults. apply alwaysReturns_tryCatch. intros e.
  apply logged_alwaysReturns. auto with logs.
Qed.

Lemma uploadSarifResults_warns (this : CodeThreatAction) (file : string) (w : World)
      (e : exn) (w1 : World) :
  SarifUploader_uploadSarif host (sarifUploader this) file
    (addEvents w [CoreInfo "🔄 SARIF Upload: Uploading to GitHub Security tab"])
  = (Throw e, w1) ->
  uploadSarifResults host this file w
  = (Return tt,
     addEvents w1 [CoreWarning ("SARIF upload failed: " +:+ errorMessage e);
                   CoreInfo "Scan results are still available in the output file"]).
Proof.
  intros H. unfold uploadSarifResults, tryCatch.
  unfold bind at 1.
  change (Logger_step (logger this) "SARIF Upload" (Some "Uploading to GitHub Security tab") w)
    with (Return tt, addEvents w [CoreInfo "🔄 SARIF Upload: Uploading to GitHub Security tab"]).
  cbv beta iota. unfold bind at 1. rewrite H.
  unfold Logger_warning, Logger_info, core_warning, core_info, emit, dataTruthy.
  cbv beta iota delta [bind when ret andb].
  unfold addEvents. cbn [history processEnv]. rewrite <- !app_assoc. reflexivity.
Qed.

Lemma checkFailureConditions_worldFree (this : CodeThreatAction) (r : ScanResults) :
  worldFree (checkFailureConditions host this r).
Proof.
  intros w1 w2.
  destruct (thresholdCrossed (inputs this) r) eqn:E.
  - unfold thresholdCrossed in E.
    destruct (criticalCheckFails (inputs this) r) eqn:H1.
    { rewrite !check_critical_fails by exact H1. reflexivity. }
    destruct (highCheckFails (inputs this) r) eqn:H2.
    { rewrite !check_high_fails by assumption. reflexivity. }
    simpl in E. rewrite !check_maxViolations_fails by assumption. reflexivity.
  - destruct (check_passes host this r w1 E) as (e1 & -> & _).
    destruct (check_passes host this r w2 E) as (e2 & -> & _). reflexivity.
Qed.

(** The first four stages do not touch the uploader. *)
Lemma stages_ignore_uploader (this : CodeThreatAction) (u1 u2 : SarifUploader) :
  validateAuthentication host (withUploader this u1)
  = validateAuthentication host (withUploader this u2) /\
  setupRepository host (withUploader this u1)
  = setupRepository host (withUploader this u2) /\
  executeScan host (withUploader this u1) = executeScan host (withUploader this u2) /\
  processResults host (withUploader this u1) = processResults host (withUploader this u2) /\
  checkFailureConditions host (withUploader this u1)
  = checkFailureConditions host (withUploader this u2).
Proof.
  unfold validateAuthentication, setupRepository, executeScan, processResults,
    logViolationTypes, normalizeGitHubUrl, importFailedMessage, generateScanUrl,
    logBreakdown, checkFailureConditions.
  cbn [inputs logger apiClient withUploader]. repeat split.
Qed.

(** What [execute] returns or throws does not depend on the uploader. *)
Lemma execute_uploader_irrelevant (this : CodeThreatAction)
      (u1 u2 : SarifUploader) (w : World) :
  fst (execute host (withUploader this u1) w) = fst (execute host (withUploader this u2) w).
Proof.
  unfold execute. apply fst_tryCatch.
  2:{ intros e w1 w2.
      match goal with |- context [bind ?m _] =>
        destruct (logged_then m (@throw ActionOutputs e) w1) as (e1 & _ & ->); [auto with logs|];
        destruct (logged_then m (@throw ActionOutputs e) w2) as (e2 & _ & ->); [auto with logs|]
      end. reflexivity. }
  destruct (stages_ignore_uploader this u1 u2) as (-> & -> & -> & -> & ->).
  cbn [inputs logger withUploader].
  do 16 (apply fst_bind_tail; intros ? ?).
  apply fst_bind_alwaysReturns.
  - apply alwaysReturns_when, alwaysReturns_whenString. intros file.
    repeat (apply alwaysReturns_bind; [|intros ?]);
      first [apply uploadSarifResults_alwaysReturns
            | apply logged_alwaysReturns; auto with logs].
  - apply alwaysReturns_when, alwaysReturns_whenString. intros file.
    repeat (apply alwaysReturns_bind; [|intros ?]);
      first [apply uploadSarifResults_alwaysReturns
            | apply logged_alwaysReturns; auto with logs].
  - intros [] []. reflexivity.
  - intros _. apply worldFree_bind.
    + apply checkFailureConditions_worldFree.
    + intros _. apply worldFree_ret.
Qed.
End Publisher.

(** ** A run without a GitHub token *)

Lemma emitsOnly_ret {A} (P : Event -> Prop) (a : A) : emitsOnly P (ret a).
Proof. intros w. exists []. rewrite addEvents_nil. split; [reflexivity|constructor]. Qed.

Lemma emitsOnly_throw {A} (P : Event -> Prop) (e : exn) : emitsOnly P (@throw A e).
Proof. intros w. exists []. rewrite addEvents_nil. split; [reflexivity|constructor]. Qed.

Lemma emitsOnly_lift {A} (P : Event -> Prop) (c : Completion A) : emitsOnly P (lift c).
Proof. intros w. exists []. rewrite addEvents_nil. split; [reflexivity|constructor]. Qed.

Lemma emitsOnly_emit (P : Event -> Prop) (e : Event) : P e -> emitsOnly P (emit e).
Proof. intros H w. exists [e]. split; [reflexivity|]. repeat constructor. exact H. Qed.

Lemma emitsOnly_bind {A B} (P : Event -> Prop) (m : M A) (k : A -> M B) :
  emitsOnly P m -> (forall a, emitsOnly P (k a)) -> emitsOnly P (bind m k).
Proof.
  intros Hm Hk w. destruct (Hm w) as (e1 & E1 & F1). unfold bind.
  destruct (m w) as [[a|e] w1]; simpl in E1; subst w1.
  - destruct (Hk a (addEvents w e1)) as (e2 & E2 & F2).
    exists (e1 ++ e2)%list. rewrite E2, addEvents_app. split; [reflexivity|].
    apply Forall_app; auto.
  - exists e1. split; [reflexivity|exact F1].
Qed.

Lemma emitsOnly_when (P : Event -> Prop) (c : bool) (m : M unit) :
  emitsOnly P m -> emitsOnly P (when c m).
Proof. destruct c; simpl; auto using emitsOnly_ret. Qed.

Ltac emits_only :=
  repeat first
    [ apply emitsOnly_ret | apply emitsOnly_throw | apply emitsOnly_lift
    | apply emitsOnly_emit; exact I
    | apply emitsOnly_when
    | apply emitsOnly_bind; [|intros ?] ].

Lemma reports_info (host : Host) (l : Logger) m d : emitsOnly isReport (Logger_info host l m d).
Proof. unfold Logger_info, core_info. emits_only. Qed.

Lemma reports_error (host : Host) (l : Logger) m d : emitsOnly isReport (Logger_error host l m d).
Proof. unfold Logger_error, core_error. emits_only. Qed.

Lemma reports_debug (host : Host) (l : Logger) m d : emitsOnly isReport (Logger_debug host l m d).
Proof. unfold Logger_debug, core_info. emits_only. Qed.

Lemma reports_parseInputs (host : Host) : emitsOnly isReport (parseInputs host).
Proof.
  unfold parseInputs, Logger_new, core_getInput, core_getBooleanInput.
  emits_only.
Qed.

Lemma abortsWith_bind {A B} (host : Host) (m : M A) (k : A -> M B) :
  emitsOnly isReport m -> (forall a, abortsWith host (fun _ => True) (k a)) ->
  abortsWith host (fun _ => True) (bind m k).
Proof.
  intros Hm Hk w Hw. destruct (Hm w) as (e1 & E1 & F1). unfold bind.
  destruct (m w) as [[a|e] w1]; simpl in E1; subst w1.
  - destruct (Hk a (addEvents w e1) Hw) as (e & w' & e2 & E & _ & Hh & He & F2).
    exists e, w', (e1 ++ e2)%list. rewrite E, Hh. simpl.
    rewrite app_assoc. repeat split; auto. apply Forall_app; auto.
  - exists e, (addEvents w e1), e1. repeat split; auto.
Qed.

Lemma abortsWith_bind_returns {A B} (host : Host) (Q : exn -> Prop) (m : M A) (k : A -> M B) :
  (forall w, exists a evs, m w = (Return a, addEvents w evs) /\ Forall isReport evs) ->
  (forall a, abortsWith host Q (k a)) ->
  abortsWith host Q (bind m k).
Proof.
  intros Hm Hk w Hw. destruct (Hm w) as (a & e1 & E1 & F1). unfold bind. rewrite E1.
  destruct (Hk a (addEvents w e1) Hw) as (e & w' & e2 & E & HQ & Hh & He & F2).
  exists e, w', (e1 ++ e2)%list. rewrite E, Hh. simpl.
  rewrite app_assoc. repeat split; auto. apply Forall_app; auto.
Qed.

Lemma abortsWith_bind_l {A B} (host : Host) (Q : exn -> Prop) (m : M A) (k : A -> M B) :
  abortsWith host Q m -> abortsWith host Q (bind m k).
Proof.
  intros Hm w Hw. destruct (Hm w Hw) as (e & w' & evs & E & H).
  exists e, w', evs. unfold bind. rewrite E. split; [reflexivity|exact H].
Qed.

(** The uploader is built with the action, and its constructor throws when
    there is no token. *)
Lemma SarifUploader_new_throws (host : Host) (l : Logger) (w : World) :
  tokenMissing host w ->
  SarifUploader_new host l w = (Throw (JsError githubTokenMessage), w).
Proof.
  intros [Hi He]. unfold SarifUploader_new, core_getInput, getEnv.
  rewrite Hi. cbv beta iota delta [bind lift ret resolveToken String.eqb].
  destruct He as [-> | ->]; reflexivity.
Qed.

Lemma setupEnvironment_keeps_token (i : ActionInputs) (w : World) :
  exists w', setupEnvironment i w = (Return tt, w') /\
             history w' = history w /\
             processEnv w' !! "GITHUB_TOKEN" = processEnv w !! "GITHUB_TOKEN".
Proof.
  unfold setupEnvironment, setEnv. cbv beta iota delta [bind when ret].
  destruct (verboseInput i); eexists; (split; [reflexivity|]); simpl;
    (split; [reflexivity|]);
    repeat (rewrite lookup_insert_ne by discriminate); reflexivity.
Qed.

Lemma CodeThreatAction_new_aborts (host : Host) (i : ActionInputs) (l : Logger) :
  abortsWith host (fun _ => True) (CodeThreatAction_new host i l) /\
  ((forall w, exists c, newCodeThreatApiClient host w = Return c) ->
   abortsWith host (fun e => e = JsError githubTokenMessage) (CodeThreatAction_new host i l)).
Proof.
  assert (H : forall w, tokenMissing host w ->
            exists e w', CodeThreatAction_new host i l w = (Throw e, w') /\
              history w' = history w /\
              processEnv w' !! "GITHUB_TOKEN" = processEnv w !! "GITHUB_TOKEN" /\
              ((exists c, newCodeThreatApiClient host w' = Return c) ->
               e = JsError githubTokenMessage)).
  { intros w [Hi He]. unfold CodeThreatAction_new.
    destruct (setupEnvironment_keeps_token i w) as (w1 & E1 & Hh & Hk).
    unfold bind at 1. rewrite E1. unfold bind at 1.
    destruct (newCodeThreatApiClient host w1) as [c|e] eqn:Ec.
    - unfold bind at 1. rewrite SarifUploader_new_throws.
      + exists (JsError githubTokenMessage), w1. repeat split; auto.
      + split; [exact Hi|]. rewrite Hk. exact He.
    - exists e, w1. repeat split; auto. intros [c Hc]. congruence. }
  split.
  - intros w Hw. destruct (H w Hw) as (e & w' & E & Hh & Hk & _).
    exists e, w', []. rewrite app_nil_r. repeat split; auto.
  - intros Hc w Hw. destruct (H w Hw) as (e & w' & E & Hh & Hk & He).
    exists e, w', []. rewrite app_nil_r. repeat split; auto.
Qed.

Lemma logged_reports (m : M unit) (w : World) :
  logged m -> emitsOnly isReport m ->
  exists evs, m w = (Return tt, addEvents w evs) /\ Forall isReport evs.
Proof.
  intros Hl Hr. destruct (Hl w) as (e1 & E1 & _). destruct (Hr w) as (e2 & E2 & F2).
  rewrite E1 in E2. simpl in E2. apply (f_equal history) in E2. simpl in E2.
  apply app_inv_head in E2. subst e2. exists e1. split; assumption.
Qed.

Lemma rangeCheck_passesRange (lo hi : Z) (x : jsnum) :
  passesRange lo hi x -> js_lt x (Num lo) || js_gt x (Num hi) = false.
Proof. destruct x as [z|]; intros H; [apply rangeCheck_passes, H|reflexivity]. Qed.

Lemma info_returns (host : Host) (l : Logger) m d (w : World) :
  exists a evs, Logger_info host l m d w = (Return a, addEvents w evs) /\ Forall isReport evs.
Proof.
  destruct (logged_reports (Logger_info host l m d) w) as (evs & E & F);
    [auto with logs|apply reports_info|eauto].
Qed.

Lemma debug_returns (host : Host) (l : Logger) m d (w : World) :
  exists a evs, Logger_debug host l m d w = (Return a, addEvents w evs) /\ Forall isReport evs.
Proof.
  destruct (logged_reports (Logger_debug host l m d) w) as (evs & E & F);
    [auto with logs|apply reports_debug|eauto].
Qed.

Section WithoutToken.
Variable host : Host.
Variable l : Logger.

(** The [try] block of [run]. *)
Let body : M unit :=
  Logger_info host l "🚀 Starting CodeThreat Security Scan Action" None ;;
  Logger_info host l
    ("Repository: " +:+ ctx_owner (context host) +:+ "/" +:+ ctx_repo (context host)) None ;;
  Logger_info host l ("Branch: " +:+ ctx_ref (context host)) None ;;
  Logger_info host l ("Event: " +:+ ctx_eventName (context host)) None ;;
  let! inputs := parseInputs host in
  Logger_debug host l "Action inputs parsed successfully"
    (Some (JObj [("scanTypes", JArr (List.map JStr (scanTypes inputs)));
                 ("outputFormat", JStr (outputFormat inputs));
                 ("waitForCompletion", JBool (waitForCompletion inputs))])) ;;
  let! action := CodeThreatAction_new host inputs l in
  let! outputs := execute host action in
  setOutputs outputs ;;
  Logger_info host l "✅ CodeThreat Security Scan completed successfully" None ;;
  Logger_info host l ("Scan ID: " +:+ scanId outputs) None ;;
  Logger_info host l
    ("Violations: " +:+ Number_toString (violationCount (results outputs))
     +:+ " (Critical: " +:+ Number_toString (criticalCount (results outputs))
     +:+ ", High: " +:+ Number_toString (highCount (results outputs)) +:+ ")") None ;;
  whenNumber (securityScore (results outputs))
    (fun score =>
       Logger_info host l ("Security Score: " +:+ Number_toString score +:+ "/100") None) ;;
  whenString (resultsFile (results outputs))
    (fun file => Logger_info host l ("Results saved to: " +:+ file) None) ;;
  whenString (scanUrl (results outputs))
    (fun url => Logger_info host l ("View detailed results: " +:+ url) None).

(** The [catch] block of [run]. *)
Let handler (error : exn) : M unit :=
  let errorStack :=
    match error with
    | JsError _ => Error_stack host error
    | Thrown => JUndefined
    end in
  Logger_error host l "❌ CodeThreat Security Scan failed"
    (Some (JObj [("error", JStr (errorMessage error))])) ;;
  when (Logger_isDebugEnabled l)
    (Logger_debug host l "Error stack trace" (Some (JObj [("stack", errorStack)]))) ;;
  emit (CoreSetFailed (errorMessage error)).

Lemma body_aborts : abortsWith host (fun _ => True) body.
Proof.
  unfold body.
  do 4 (apply abortsWith_bind; [apply reports_info|intros _]).
  apply abortsWith_bind; [apply reports_parseInputs|intros inputs].
  apply abortsWith_bind; [apply reports_debug|intros _].
  apply abortsWith_bind_l. apply CodeThreatAction_new_aborts.
Qed.

Lemma body_aborts_on_token (raw : RawInputs) :
  supplies host raw -> wellFormed raw ->
  passesRange 60 86400 (timeoutOf raw) -> passesRange 10 60 (pollIntervalOf raw) ->
  (forall w, exists c, newCodeThreatApiClient host w = Return c) ->
  abortsWith host (fun e => e = JsError githubTokenMessage) body.
Proof.
  intros Hs Hw Ht Hp Hc. unfold body.
  do 4 (apply abortsWith_bind_returns; [intros w; apply info_returns|intros _]).
  apply abortsWith_bind_returns.
  { intros w. destruct (parseInputs_supplied host raw w Hs Hw) as (evs & E & _).
    destruct (reports_parseInputs host w) as (evs' & E' & F').
    rewrite E in E'. simpl in E'. apply (f_equal history) in E'. simpl in E'.
    apply app_inv_head in E'. subst evs'.
    unfold parseOutcome in E.
    rewrite (rangeCheck_passesRange _ _ _ Ht), (rangeCheck_passesRange _ _ _ Hp) in E.
    eauto. }
  intros inputs.
  apply abortsWith_bind_returns; [intros w; apply debug_returns|].
  intros _. apply abortsWith_bind_l. apply CodeThreatAction_new_aborts, Hc.
Qed.

Lemma handler_reports (error : exn) (w : World) :
  exists evs,
    handler error w = (Return tt, addEvents w (evs ++ [CoreSetFailed (errorMessage error)])%list)
    /\ Forall isReport evs.
Proof.
  unfold handler.
  match goal with |- context [bind ?a (fun _ => bind ?b (fun _ => ?c))] =>
    destruct (logged_reports (bind a (fun _ => b)) w) as (evs & E & F)
  end.
  - auto 6 with logs.
  - apply emitsOnly_bind; [apply reports_error|intros _].
    apply emitsOnly_when, reports_debug.
  - exists evs. split; [|exact F].
    unfold bind in *.
    match type of E with
    | match ?x with _ => _ end = _ => destruct x as [[[]|e1] w1]
    end; [|discriminate].
    match type of E with
    | ?x = _ => destruct x as [[[]|e2] w2]
    end; [|discriminate].
    inversion E; subst. unfold emit, addEvents. simpl. rewrite app_assoc. reflexivity.
Qed.

Lemma run_from_logger (w : World) :
  getBooleanInput host "verbose" = Return (verbose l) ->
  run host w = tryCatch body handler w.
Proof.
  intros H. unfold run, Logger_new. unfold bind at 1. unfold bind at 1.
  unfold lift at 1. rewrite H. destruct l. reflexivity.
Qed.

Lemma run_without_logger (w : World) (e : exn) :
  getBooleanInput host "verbose" = Throw e -> run host w = (Throw e, w).
Proof.
  intros H. unfold run, Logger_new. unfold bind at 1. unfold bind at 1.
  unfold lift at 1. rewrite H. reflexivity.
Qed.

Lemma run_without_token (w : World) :
  tokenMissing host w ->
  exists e evs w',
    tryCatch body handler w = (Return tt, w') /\
    history w' = (history w ++ evs ++ [CoreSetFailed (errorMessage e)])%list /\
    Forall isReport evs /\
    (forall raw,
        supplies host raw -> wellFormed raw ->
        passesRange 60 86400 (timeoutOf raw) -> passesRange 10 60 (pollIntervalOf raw) ->
        (forall w0, exists c, newCodeThreatApiClient host w0 = Return c) ->
        e = JsError githubTokenMessage).
Proof.
  intros Hw. destruct (body_aborts w Hw) as (e & w1 & e1 & E1 & _ & Hh & _ & F1).
  destruct (handler_reports e w1) as (e2 & E2 & F2).
  exists e, (e1 ++ e2)%list. eexists. unfold tryCatch. rewrite E1, E2.
  split; [reflexivity|]. split; [|split].
  - simpl. rewrite Hh, <- !app_assoc. reflexivity.
  - apply Forall_app; auto.
  - intros raw Hs Hwf Ht Hp Hc.
    destruct (body_aborts_on_token raw Hs Hwf Ht Hp Hc w Hw) as (e' & w1' & e1' & E1' & HQ & _).
    rewrite E1 in E1'. inversion E1'; subst. reflexivity.
Qed.
End WithoutToken.

(** C10: the action is built, and with it the SARIF uploader, before any
    stage runs.  So in every run where neither the github-token input nor
    GITHUB_TOKEN is set, whatever the other inputs are (upload-sarif and
    the output format included), the action ends in failure having done
    nothing but report: the authentication call is never made.  When the
    inputs parse and the CodeThreat client can be built, the failure that
    is reported is the missing token. *)
Theorem missing_token_is_fatal (host : Host) (w : World) :
  tokenMissing host w ->
  exists evs w',
    main host w = (Return tt, w') /\
    history w' = (history w ++ evs)%list /\
    Forall isReport evs /\
    ~ In ApiValidateAuth evs /\
    ((exists message, In (CoreSetFailed message) evs) \/ In (ProcessExit 1) evs) /\
    (forall raw,
        supplies host raw -> wellFormed raw ->
        passesRange 60 86400 (timeoutOf raw) -> passesRange 10 60 (pollIntervalOf raw) ->
        (forall w0, exists c, newCodeThreatApiClient host w0 = Return c) ->
        In (CoreSetFailed githubTokenMessage) evs).
Proof.
  intros Hw.
  assert (Hno : forall evs, Forall isReport evs -> ~ In ApiValidateAuth evs).
  { intros evs F Hin. induction F as [|x xs Hx _ IH]; simpl in Hin; [contradiction|].
    destruct Hin as [->|Hin]; [exact Hx|exact (IH Hin)]. }
  unfold main, tryCatch.
  destruct (getBooleanInput host "verbose") as [b|e0] eqn:Ev.
  - rewrite (run_from_logger host {| verbose := b |} w Ev).
    destruct (run_without_token host {| verbose := b |} w Hw)
      as (e & evs & w' & E & Hh & F & Htok).
    rewrite E.
    exists (evs ++ [CoreSetFailed (errorMessage e)])%list, w'.
    split; [reflexivity|]. split; [exact Hh|].
    assert (F' : Forall isReport (evs ++ [CoreSetFailed (errorMessage e)])%list).
    { apply Forall_app. split; [exact F|]. repeat constructor. }
    split; [exact F'|]. split; [exact (Hno _ F')|]. split.
    + left. exists (errorMessage e). apply in_or_app. right. left. reflexivity.
    + intros raw Hs Hwf Ht Hp Hc. rewrite (Htok raw Hs Hwf Ht Hp Hc).
      apply in_or_app. right. left. reflexivity.
  - rewrite (run_without_logger host w e0 Ev).
    exists [ConsoleError "Fatal error in action execution:" e0; ProcessExit 1].
    eexists. split; [reflexivity|]. split.
    { simpl. rewrite <- app_assoc. reflexivity. }
    assert (F' : Forall isReport
                   [ConsoleError "Fatal error in action execution:" e0; ProcessExit 1])
      by (repeat constructor).
    split; [exact F'|]. split; [exact (Hno _ F')|]. split.
    + right. right. left. reflexivity.
    + intros raw (Hv & _) _ _ _ _. congruence.
Qed.

Lemma missing_token_is_fatal_witness :
  let host := demoHost demoRawNoUpload "" emptySarif uploadAccepted in
  exists evs w',
    main host emptyWorld = (Return tt, w') /\
    history w' = evs /\
    ~ In ApiValidateAuth evs /\
    In (CoreSetFailed githubTokenMessage) evs.
Proof.
  intros host.
  destruct (missing_token_is_fatal host emptyWorld)
    as (evs & w' & E & Hh & _ & Hno & _ & Htok).
  - split; [reflexivity|]. left. reflexivity.
  - exists evs, w'. split; [exact E|]. split; [exact Hh|]. split; [exact Hno|].
    apply (Htok demoRawNoUpload).
    + repeat split.
    + repeat split; discriminate.
    + vm_compute. split; discriminate.
    + vm_compute. split; discriminate.
    + intros w0. eexists. reflexivity.
Defined.

(** ** A run whose scan succeeds *)

Lemma alwaysReturns_ret {A} (a : A) : alwaysReturns (ret a).
Proof. intros w. exists a, w. reflexivity. Qed.

Lemma alwaysReturns_call {A} (e : Event) (oracle : World -> Completion A) :
  (forall w, exists a, oracle w = Return a) -> alwaysReturns (call e oracle).
Proof. intros H w. destruct (H w) as (a & E). unfold call. rewrite E. eauto. Qed.

Lemma alwaysReturns_try {A} (body : M A) (handler : exn -> M A) :
  alwaysReturns body -> alwaysReturns (tryCatch body handler).
Proof. intros H w. unfold tryCatch. destruct (H w) as (a & w' & ->). eauto. Qed.

Lemma alwaysReturns_bind_post {A B} (P : A -> Prop) (m : M A) (k : A -> M B) :
  (forall w, exists a w', m w = (Return a, w') /\ P a) ->
  (forall a, P a -> alwaysReturns (k a)) -> alwaysReturns (bind m k).
Proof.
  intros Hm Hk w. unfold bind. destruct (Hm w) as (a & w' & -> & Ha). apply Hk, Ha.
Qed.

Ltac returns :=
  repeat match goal with
    | |- alwaysReturns (ret _) => apply alwaysReturns_ret
    | |- alwaysReturns (call _ _) => apply alwaysReturns_call; solve [eauto]
    | |- alwaysReturns (tryCatch _ _) => apply alwaysReturns_try
    | |- alwaysReturns (when _ _) => apply alwaysReturns_when
    | |- alwaysReturns (whenString _ _) => apply alwaysReturns_whenString; intros ?
    | |- alwaysReturns (bind _ _) => apply alwaysReturns_bind; [|intros ?]
    | |- alwaysReturns (if ?c then _ else _) => destruct c
    | |- alwaysReturns (match ?x with _ => _ end) => destruct x
    | |- alwaysReturns _ => apply logged_alwaysReturns; solve [auto 8 with logs]
    end.

Section ScanSucceeds.
Variable host : Host.
Variable this : CodeThreatAction.
Hypothesis Hscan : scanSucceeds host this.

Lemma validateAuthentication_returns : alwaysReturns (validateAuthentication host this).
Proof.
  destruct Hscan as (Ha & _). unfold validateAuthentication. returns.
Qed.

Lemma setupRepository_returns : alwaysReturns (setupRepository host this).
Proof.
  destruct Hscan as (_ & Hi & _). unfold setupRepository, normalizeGitHubUrl. returns.
Qed.

Lemma logViolationTypes_returns (scanResult : ScanResult) :
  alwaysReturns (logViolationTypes host this scanResult).
Proof.
  unfold logViolationTypes. apply alwaysReturns_tryCatch. intros e.
  apply logged_alwaysReturns. auto with logs.
Qed.

Lemma executeScan_returns (repositoryId : string) :
  alwaysReturns (executeScan host this repositoryId).
Proof.
  destruct Hscan as (_ & _ & Hr & _). unfold executeScan.
  apply alwaysReturns_try.
  apply alwaysReturns_bind; [returns|intros _].
  apply alwaysReturns_bind; [returns|intros scanResult].
  apply alwaysReturns_bind; [|intros _; returns].
  destruct (synchronous scanResult); [|returns].
  apply alwaysReturns_bind; [returns|intros _].
  destruct (scan_results scanResult); [|returns].
  apply alwaysReturns_bind; [returns|intros _].
  apply logViolationTypes_returns.
Qed.

Lemma processResults_returns (scanId : string) (w : World) :
  exists r w',
    processResults host this scanId w = (Return r, w') /\
    thresholdCrossed (inputs this) r = false.
Proof.
  destruct Hscan as (_ & _ & _ & Hw & He).
  unfold processResults, tryCatch.
  match goal with |- context [bind ?m _ w] =>
    destruct (logged_then m (ret tt) w) as (e0 & _ & E0); [auto with logs|]
  end.
  unfold bind at 1.
  match goal with |- context [Logger_step ?a ?b ?c w] =>
    destruct (logged_step a b c w) as (e1 & E1 & _); rewrite E1
  end.
  unfold bind at 1. unfold call at 1.
  match goal with |- context [client_exportScanResults ?c ?w1 ?a] =>
    destruct (He w1 a) as (r & Er & Hthr); rewrite Er
  end.
  unfold bind at 1. unfold call at 1.
  match goal with |- context [writeFile host ?w1 ?p ?d] =>
    destruct (Hw w1 p d) as ([] & Ew); rewrite Ew
  end.
  unfold bind at 1.
  match goal with |- context [Logger_info host ?a ?b ?c ?w1] =>
    destruct (logged_info host a b c w1) as (e2 & E2 & _); rewrite E2
  end.
  eexists. eexists. split; [reflexivity|]. apply Hthr.
Qed.

Lemma checkFailureConditions_returns (r : ScanResults) :
  thresholdCrossed (inputs this) r = false ->
  alwaysReturns (checkFailureConditions host this r).
Proof.
  intros H w. destruct (check_passes host this r w H) as (evs & E & _). eauto.
Qed.

(** When the scan succeeds, [execute] returns: the upload cannot make it
    raise. *)
Lemma execute_returns : alwaysReturns (execute host this).
Proof.
  unfold execute. apply alwaysReturns_try.
  apply alwaysReturns_bind; [returns|intros _].
  apply alwaysReturns_bind; [apply validateAuthentication_returns|intros _].
  do 3 (apply alwaysReturns_bind; [returns|intros _]).
  apply alwaysReturns_bind; [apply setupRepository_returns|intros repositoryId].
  do 3 (apply alwaysReturns_bind; [returns|intros _]).
  apply alwaysReturns_bind; [apply executeScan_returns|intros scanId].
  do 3 (apply alwaysReturns_bind; [returns|intros _]).
  apply (alwaysReturns_bind_post
           (fun r => thresholdCrossed (inputs this) r = false));
    [apply processResults_returns|intros r Hr].
  do 2 (apply alwaysReturns_bind; [returns|intros _]).
  apply alwaysReturns_bind.
  { apply alwaysReturns_when, alwaysReturns_whenString. intros file.
    repeat (apply alwaysReturns_bind; [|intros ?]);
      first [apply uploadSarifResults_alwaysReturns
            | apply logged_alwaysReturns; auto with logs]. }
  intros _.
  apply alwaysReturns_bind; [apply checkFailureConditions_returns, Hr|intros _].
  apply alwaysReturns_ret.
Qed.
End ScanSucceeds.

(** C3: a failure of the SARIF upload is caught by [uploadSarifResults],
    which returns after logging it as a warning; what [execute] returns or
    throws is the same with every uploader, so when the run returns its
    outputs with an upload that succeeds, it returns the same outputs, and
    does not raise, with an upload that fails; and when the scan and the
    export succeed and cross no threshold, [execute] returns its outputs
    whatever the upload does. *)
Theorem publish_failure_is_not_fatal :
  (forall (host : Host) (this : CodeThreatAction) (file : string) (w : World),
      (exists w', uploadSarifResults host this file w = (Return tt, w')) /\
      (forall e w1,
          SarifUploader_uploadSarif host (sarifUploader this) file
            (addEvents w [CoreInfo "🔄 SARIF Upload: Uploading to GitHub Security tab"])
          = (Throw e, w1) ->
          uploadSarifResults host this file w
          = (Return tt,
             addEvents w1 [CoreWarning ("SARIF upload failed: " +:+ errorMessage e);
                           CoreInfo "Scan results are still available in the output file"]))) /\
  (forall (host : Host) (this : CodeThreatAction) (u1 u2 : SarifUploader) (w : World),
      fst (execute host (withUploader this u1) w) = fst (execute host (withUploader this u2) w) /\
      (forall outputs,
          fst (execute host (withUploader this u1) w) = Return outputs ->
          fst (execute host (withUploader this u2) w) = Return outputs)) /\
  (forall (host : Host) (this : CodeThreatAction) (w : World),
      scanSucceeds host this ->
      exists outputs w', execute host this w = (Return outputs, w')) /\
  (let host := demoHost demoRaw "ghs_token" emptySarif uploadRejected in
   let failing := execute host (withUploader demoAction rejectingUploader) emptyWorld in
   let succeeding := execute host (withUploader demoAction demoUploader) emptyWorld in
   fst succeeding = Return demoOutputs /\
   fst failing = Return demoOutputs /\
   In (OctokitUploadSarif
         {| us_owner := "acme"; us_repo := "widget"; us_commit_sha := "abc123";
            us_ref := "refs/heads/main"; us_sarif := "{}"; us_tool_name := "CodeThreat" |})
      (history (snd failing)) /\
   In (CoreWarning
         "SARIF upload failed: SARIF upload failed: Resource not accessible by integration")
      (history (snd failing))).
Proof.
  split; [|split; [|split]].
  - intros host this file w. split.
    + destruct (uploadSarifResults_alwaysReturns host this file w) as ([] & w' & E).
      exists w'. exact E.
    + intros e w1. apply uploadSarifResults_warns.
  - intros host this u1 u2 w. split.
    + apply execute_uploader_irrelevant.
    + intros outputs H. rewrite <- H. symmetry. apply execute_uploader_irrelevant.
  - intros host this w H. apply (execute_returns host this H).
  - vm_compute. repeat split; auto 40.
Qed.

Lemma publish_failure_is_not_fatal_witness :
  let host := demoHost demoRaw "ghs_token" emptySarif uploadRejected in
  let this := withUploader demoAction rejectingUploader in
  fst (execute host this emptyWorld) = Return demoOutputs /\
  (exists outputs w', execute host this emptyWorld = (Return outputs, w')) /\
  exists w',
    uploadSarifResults host this "codethreat-results.sarif" emptyWorld = (Return tt, w') /\
    In (CoreWarning
          "SARIF upload failed: SARIF upload failed: Resource not accessible by integration")
       (history w').
Proof.
  intros host this. split.
  - apply (proj2 (proj1 (proj2 publish_failure_is_not_fatal)
                    host demoAction demoUploader rejectingUploader emptyWorld) demoOutputs).
    reflexivity.
  - split.
    { apply (proj1 (proj2 (proj2 publish_failure_is_not_fatal)) host this emptyWorld).
      repeat split; intros; eexists; try reflexivity.
      split; [reflexivity|]. intros. reflexivity. }
    eexists. split.
    + apply (proj2 (proj1 publish_failure_is_not_fatal
                      host this "codethreat-results.sarif" emptyWorld)).
      vm_compute. reflexivity.
    + vm_compute. auto 20.
Defined.

(** * Further properties of the code *)

(** ** Repository URLs and names *)

(** X1: the git:// and SSH spellings of a URL normalise to what their HTTPS
    spelling normalises to, a bare github.com path to what it gives with
    https:// in front; an http:// URL keeps its protocol. *)
Theorem normalizeGitHubUrl_spellings
        (host : Host) (this : CodeThreatAction) (rest : string) (w : World) :
  fst (normalizeGitHubUrl host this ("git://" +:+ rest) w)
  = fst (normalizeGitHubUrl host this ("https://" +:+ rest) w) /\
  fst (normalizeGitHubUrl host this ("git@github.com:" +:+ rest) w)
  = fst (normalizeGitHubUrl host this ("https://github.com/" +:+ rest) w) /\
  fst (normalizeGitHubUrl host this ("github.com" +:+ rest) w)
  = fst (normalizeGitHubUrl host this ("https://github.com" +:+ rest) w) /\
  exists v, fst (normalizeGitHubUrl host this ("http://" +:+ rest) w) = Return v /\
            startsWith v "http://" = true /\ startsWith v "https://" = false.
Proof.
  rewrite !normalizeGitHubUrl_value.
  rewrite !normalizedUrl_protocolFixed.
  repeat split.
  eexists. split; [reflexivity|].
  assert (E : protocolFixed ("http://" +:+ rest) = "http://" +:+ rest) by reflexivity.
  rewrite E.
  destruct (endsWith ("http://" +:+ rest) ".git"); split; reflexivity.
Qed.

Lemma normalizedUrl_canonical (owner repo : string) :
  allWordDash repo = true ->
  normalizedUrl ("https://github.com/" +:+ owner +:+ "/" +:+ repo) = canonicalUrl owner repo /\
  normalizedUrl ("https://github.com/" +:+ owner +:+ "/" +:+ repo +:+ ".git")
  = canonicalUrl owner repo.
Proof.
  intros Hr. unfold canonicalUrl. split.
  - rewrite normalizedUrl_protocolFixed.
    assert (E : protocolFixed ("https://github.com/" +:+ owner +:+ "/" +:+ repo)
                = "https://github.com/" +:+ owner +:+ "/" +:+ repo) by reflexivity.
    rewrite E.
    assert (N : endsWith ("https://github.com/" +:+ owner +:+ "/" +:+ repo) ".git" = false).
    { rewrite <- append_assoc. apply no_git_extension, Hr. }
    rewrite N, !append_assoc. reflexivity.
  - apply normalizedUrl_fixpoint.
    + repeat split; auto.
    + rewrite <- !append_assoc. apply endsWith_append.
Qed.

(** X2: the HTTPS, git://, SSH and bare spellings of a GitHub repository
    URL, with or without the .git extension, all normalise to one URL,
    https://github.com/owner/repo.git, and the repository name taken from
    it is repo: whichever spelling the workflow uses, the service is asked
    for the same repository under the same name. *)
Theorem github_spellings_agree
        (host : Host) (this : CodeThreatAction) (w : World) (owner repo url : string) :
  allWordDash owner = true -> owner <> "" ->
  allWordDash repo = true -> repo <> "" ->
  In url (githubSpellings owner repo) ->
  fst (normalizeGitHubUrl host this url w) = Return (canonicalUrl owner repo) /\
  extractRepoName (canonicalUrl owner repo) = repo.
Proof.
  intros Ho Hone Hr Hrne Hu. split.
  - rewrite normalizeGitHubUrl_value.
    destruct (normalizedUrl_canonical owner repo Hr) as [H1 H2].
    assert (Hp : forall rest,
               normalizedUrl ("git://github.com/" +:+ rest)
               = normalizedUrl ("https://github.com/" +:+ rest) /\
               normalizedUrl ("git@github.com:" +:+ rest)
               = normalizedUrl ("https://github.com/" +:+ rest) /\
               normalizedUrl ("github.com/" +:+ rest)
               = normalizedUrl ("https://github.com/" +:+ rest)).
    { intros rest. rewrite !normalizedUrl_protocolFixed. repeat split. }
    unfold githubSpellings in Hu. cbn [In] in Hu.
    repeat (destruct Hu as [<-|Hu];
            [cbn [String.eqb String.append]; f_equal;
             first [exact H1 | exact H2
                   | rewrite (proj1 (Hp _)); first [exact H1|exact H2]
                   | rewrite (proj1 (proj2 (Hp _))); first [exact H1|exact H2]
                   | rewrite (proj2 (proj2 (Hp _))); first [exact H1|exact H2]]|]).
    contradiction.
  - unfold canonicalUrl.
    apply (extractRepoName_github "https://" ".git" owner repo "/"%char);
      simpl; auto.
Qed.

Lemma github_spellings_agree_witness :
  fst (normalizeGitHubUrl (demoHost demoRaw "ghs_token" emptySarif uploadAccepted)
         demoAction "git@github.com:acme-inc/my_widget-2" emptyWorld)
  = Return "https://github.com/acme-inc/my_widget-2.git" /\
  extractRepoName "https://github.com/acme-inc/my_widget-2.git" = "my_widget-2".
Proof.
  apply (github_spellings_agree
           (demoHost demoRaw "ghs_token" emptySarif uploadAccepted) demoAction emptyWorld
           "acme-inc" "my_widget-2" "git@github.com:acme-inc/my_widget-2");
    first [reflexivity | discriminate | simpl; tauto].
Defined.

(** *** Names that go on after the repository *)

(** X3: in a GitHub URL the repository name ends at the first character
    that is neither a letter, a digit, an underscore nor a dash.  Whatever
    follows owner/repo and begins with such a character is dropped: a
    further path, and also the rest of a name with a dot in it, so that
    github.com/socketio/socket.io is named socket. *)
Theorem repository_name_stops_at_other_characters
        (prefix owner repo tail : string) (sep : ascii) :
  In prefix githubPrefixes -> In sep [":"; "/"]%char ->
  allWordDash owner = true -> owner <> "" ->
  allWordDash repo = true -> repo <> "" ->
  wordStops tail ->
  extractRepoName (prefix +:+ "github.com" +:+ String sep owner +:+ "/" +:+ repo +:+ tail)
  = repo.
Proof. apply extractRepoName_github_tail. Qed.

Lemma repository_name_stops_at_other_characters_witness :
  extractRepoName "https://github.com/socketio/socket.io" = "socket" /\
  extractRepoName "git@github.com:acme/widget/tree/main" = "widget".
Proof.
  split.
  - apply (repository_name_stops_at_other_characters
             "https://" "socketio" "socket" ".io" "/"%char);
      first [reflexivity | discriminate | simpl; tauto].
  - apply (repository_name_stops_at_other_characters
             "git@" "acme" "widget" "/tree/main" ":"%char);
      first [reflexivity | discriminate | simpl; tauto].
Defined.

(** *** Names in general *)

Lemma spanWordDash_word (s : string) : allWordDash (fst (spanWordDash s)) = true.
Proof.
  induction s as [|c s IH]; [reflexivity|].
  cbn [spanWordDash]. destruct (isWordDash c) eqn:E; [|reflexivity].
  destruct (spanWordDash s) as [w r]. cbn [fst allWordDash] in *. rewrite E, IH. reflexivity.
Qed.

Lemma matchGithubHere_word (s name : string) :
  matchGithubHere s = Some name -> allWordDash name = true /\ name <> "".
Proof.
  unfold matchGithubHere. destruct (startsWith s "github.com"); [|discriminate].
  destruct (substringFrom 10 s) as [|c rest]; [discriminate|].
  destruct (Ascii.eqb c ":" || Ascii.eqb c "/"); [|discriminate].
  destruct (spanWordDash rest) as [[|o owner] [|d rest']]; try discriminate.
  destruct d as [[] [] [] [] [] [] [] []]; try discriminate.
  pose proof (spanWordDash_word rest') as Hw.
  destruct (spanWordDash rest') as [[|c1 n] r]; [discriminate|].
  intros E. injection E as <-. split; [exact Hw|discriminate].
Qed.

Lemma matchGithub_word (s name : string) :
  matchGithub s = Some name -> allWordDash name = true /\ name <> "".
Proof.
  induction s as [|c s IH]; cbn [matchGithub].
  - destruct (matchGithubHere "") eqn:E; [|discriminate].
    intros H. injection H as <-. apply (matchGithubHere_word _ _ E).
  - destruct (matchGithubHere (String c s)) eqn:E.
    + intros H. injection H as <-. apply (matchGithubHere_word _ _ E).
    + exact IH.
Qed.

Lemma allWordDash_no_slash (s : string) : allWordDash s = true -> hasChar "/" s = false.
Proof.
  induction s as [|c s IH]; intros H; [reflexivity|].
  simpl in H. apply andb_true_iff in H as [Hc Hs]. cbn [hasChar]. rewrite (IH Hs).
  destruct (Ascii.eqb "/" c) eqn:E; [|reflexivity].
  apply Ascii.eqb_eq in E. subst c. discriminate Hc.
Qed.

Lemma split_no_separator (s : string) (sep : ascii) (piece : string) :
  In piece (split s sep) -> hasChar sep piece = false.
Proof.
  revert piece. induction s as [|c s IH]; intros piece H.
  - destruct H as [<-|[]]. reflexivity.
  - cbn [split] in H. destruct (Ascii.eqb c sep) eqn:E.
    + destruct H as [<-|H]; [reflexivity|auto].
    + destruct (split s sep) as [|h t].
      * destruct H as [<-|[]]. cbn [hasChar]. rewrite Ascii.eqb_sym, E. reflexivity.
      * destruct H as [<-|H].
        -- cbn [hasChar]. rewrite Ascii.eqb_sym, E. apply IH. left. reflexivity.
        -- apply IH. right. exact H.
Qed.

(** X4: whatever the URL, the repository name is never empty and never
    contains a slash. *)
Theorem extractRepoName_is_a_name (url : string) :
  extractRepoName url <> "" /\ hasChar "/" (extractRepoName url) = false.
Proof.
  unfold extractRepoName.
  destruct (String.eqb url EmptyString); [split; [discriminate|reflexivity]|].
  destruct (matchGithub (cleanUrl url)) as [name|] eqn:E.
  - destruct (matchGithub_word _ _ E) as [Hw Hne].
    split; [exact Hne|apply allWordDash_no_slash, Hw].
  - destruct (rev (segments (cleanUrl url))) as [|name rest] eqn:Er;
      [split; [discriminate|reflexivity]|].
    assert (Hin : In name (segments (cleanUrl url))).
    { apply in_rev. rewrite Er. left. reflexivity. }
    unfold segments in Hin. apply filter_In in Hin as [Hs Hn].
    split.
    + apply negb_true_iff, String.eqb_neq in Hn. exact Hn.
    + apply (split_no_separator _ _ _ Hs).
Qed.

(** ** The link to the scan *)

Lemma replace_absent (s pat rep : string) : includes s pat = false -> replace s pat rep = s.
Proof.
  induction s as [|c s IH]; intros H.
  - cbn [includes] in H. apply orb_false_iff in H as [H _].
    cbn [replace]. rewrite H. reflexivity.
  - cbn [includes] in H. apply orb_false_iff in H as [H Hs].
    cbn [replace]. rewrite H, (IH Hs). reflexivity.
Qed.

Lemma replace_skip (c : ascii) (s pat rep : string) :
  startsWith (String c s) pat = false ->
  replace (String c s) pat rep = String c (replace s pat rep).
Proof. intros H. cbn [replace]. rewrite H. reflexivity. Qed.

Lemma replace_last_segment (h : string) :
  hasChar "/" h = false -> replace (h +:+ "/api") "/api" "" = h.
Proof.
  induction h as [|c h IH]; intros H; [reflexivity|].
  cbn [hasChar] in H. apply orb_false_iff in H as [Hc Hh].
  change (String c h +:+ "/api") with (String c (h +:+ "/api")).
  cbn [replace startsWith]. rewrite Hc. cbn [andb].
  rewrite (IH Hh). reflexivity.
Qed.

Lemma startsWith_api_path (h : string) :
  startsWith h "api" = false -> startsWith (h +:+ "/api") "api" = false.
Proof.
  intros H. destruct (startsWith (h +:+ "/api") "api") eqn:E; [|reflexivity].
  destruct (startsWith_append_inv _ _ _ E) as [H1|H1]; [congruence|].
  apply startsWith_prefixes in H1. simpl in H1.
  repeat (destruct H1 as [<-|H1]; [vm_compute in E; vm_compute in H; congruence|]).
  contradiction.
Qed.

(** X5: the link to the scan is the server URL with its first /api
    removed and then its first api. turned into app., followed by the
    organization and the scan id.  A server URL with neither is kept as it
    is, and https://host/api loses its path.  But in https://api.host the
    first /api is the second slash of the protocol with the api of the host
    name, so the link begins with https:/. and is not a URL of the
    service. *)
Theorem generateScanUrl_forms (this : CodeThreatAction) (scanId repositoryId host : string) :
  let server := serverUrl (inputs this) in
  let path := "/" +:+ organizationSlug (inputs this) +:+ "/scans/" +:+ scanId in
  (includes server "/api" = false -> includes server "api." = false ->
   generateScanUrl this scanId repositoryId = server +:+ path) /\
  (server = "https://" +:+ host +:+ "/api" ->
   hasChar "/" host = false -> startsWith host "api" = false ->
   includes host "api." = false ->
   generateScanUrl this scanId repositoryId = "https://" +:+ host +:+ path) /\
  (server = "https://api." +:+ host ->
   generateScanUrl this scanId repositoryId
   = "https:/." +:+ replace host "api." "app." +:+ path).
Proof.
  intros server path. unfold generateScanUrl. fold server. fold path.
  split; [|split].
  - intros H1 H2. rewrite (replace_absent _ _ _ H1), (replace_absent _ _ _ H2). reflexivity.
  - intros -> Hs Ha Hi.
    assert (E1 : replace ("https://" +:+ host +:+ "/api") "/api" "" = "https://" +:+ host).
    { cbn [String.append].
      do 7 (rewrite replace_skip by reflexivity).
      rewrite replace_skip by exact (startsWith_api_path _ Ha).
      rewrite (replace_last_segment _ Hs). reflexivity. }
    rewrite E1.
    assert (E2 : replace ("https://" +:+ host) "api." "app." = "https://" +:+ host).
    { cbn [String.append].
      do 8 (rewrite replace_skip by reflexivity).
      rewrite (replace_absent _ _ _ Hi). reflexivity. }
    rewrite E2, !append_assoc. reflexivity.
  - intros ->.
    assert (E1 : replace ("https://api." +:+ host) "/api" "" = "https:/." +:+ host)
      by reflexivity.
    rewrite E1.
    assert (E2 : replace ("https:/." +:+ host) "api." "app."
                 = "https:/." +:+ replace host "api." "app.") by reflexivity.
    rewrite E2, !append_assoc. reflexivity.
Qed.

Lemma generateScanUrl_forms_witness :
  generateScanUrl (actionAt "https://app.codethreat.com") "scan-1" "repo-1"
  = "https://app.codethreat.com/acme/scans/scan-1" /\
  generateScanUrl (actionAt "https://codethreat.example/api") "scan-1" "repo-1"
  = "https://codethreat.example/acme/scans/scan-1" /\
  generateScanUrl (actionAt "https://api.codethreat.com") "scan-1" "repo-1"
  = "https:/.codethreat.com/acme/scans/scan-1".
Proof.
  split; [|split].
  - apply (proj1 (generateScanUrl_forms (actionAt "https://app.codethreat.com")
                    "scan-1" "repo-1" "")); reflexivity.
  - apply (proj1 (proj2 (generateScanUrl_forms (actionAt "https://codethreat.example/api")
                           "scan-1" "repo-1" "codethreat.example"))); reflexivity.
  - apply (proj2 (proj2 (generateScanUrl_forms (actionAt "https://api.codethreat.com")
                           "scan-1" "repo-1" "codethreat.com"))); reflexivity.
Defined.

(** ** Numbers in the inputs *)

Lemma readDigits_uint_then (d : Decimal.uint) (rest : string) (acc : Z) :
  numeralStops rest ->
  readDigits digitValue 10 (NilEmpty.string_of_uint d +:+ rest) (Some acc)
  = Some (uintValue d acc).
Proof.
  intros Hr. revert acc.
  induction d; intros acc; simpl; rewrite ?IHd; try reflexivity;
    try (f_equal; f_equal; lia).
  destruct rest as [|c rest]; [reflexivity|].
  destruct Hr as (Hd & _). cbn [readDigits]. unfold digitValue.
  rewrite Hd. reflexivity.
Qed.

Lemma parseDigits_uint_then (d : Decimal.uint) (rest : string) :
  d <> Decimal.Nil -> numeralStops rest ->
  parseInt (NilEmpty.string_of_uint d +:+ rest) = Num (Z.of_uint d) /\
  parseInt (String "-" (NilEmpty.string_of_uint d +:+ rest)) = Num (- Z.of_uint d).
Proof.
  intros Hd Hr. rewrite of_uint_value.
  destruct d as [|l|l|l|l|l|l|l|l|l|l]; try congruence;
    try (unfold parseInt; simpl; rewrite !(readDigits_uint_then _ _ _ Hr);
         apply signed_value; reflexivity).
  destruct l;
    try (unfold parseInt; simpl; rewrite ?(readDigits_uint_then _ _ _ Hr);
         first [split; reflexivity | apply signed_value; reflexivity]).
  destruct rest as [|c rest]; [split; reflexivity|].
  destruct Hr as (Hdig & Hx & HX).
  destruct c as [[] [] [] [] [] [] [] []];
    try discriminate Hdig; try congruence; split; reflexivity.
Qed.

Lemma parseInt_leading_number (n : Z) (rest : string) :
  numeralStops rest -> parseInt (Z_toString n +:+ rest) = Num n.
Proof.
  intros Hr. unfold Z_toString. destruct n as [|p|p].
  - apply (parseDigits_uint_then (Decimal.D0 Decimal.Nil) rest); [discriminate|exact Hr].
  - simpl. unfold NilZero.string_of_uint.
    pose proof (Unsigned.to_uint_nonnil p) as Hn.
    destruct (parseDigits_uint_then _ rest Hn Hr) as (H & _).
    destruct (Pos.to_uint p) eqn:E; try congruence; rewrite H;
      unfold Z.of_uint; rewrite <- E, DecimalPos.Unsigned.of_to; reflexivity.
  - simpl. unfold NilZero.string_of_uint.
    pose proof (Unsigned.to_uint_nonnil p) as Hn.
    destruct (parseDigits_uint_then _ rest Hn Hr) as (_ & H).
    destruct (Pos.to_uint p) eqn:E; try congruence;
      change (String "-" ?s +:+ rest) with (String "-" (s +:+ rest));
      rewrite H; unfold Z.of_uint; rewrite <- E, DecimalPos.Unsigned.of_to; reflexivity.
Qed.

Lemma append_nonempty (a b : string) : a <> "" -> a +:+ b <> "".
Proof. destruct a; [congruence|discriminate]. Qed.

(** X6: a numeric input is read like JavaScript's parseInt reads it: the
    number is the leading decimal numeral, and text that follows it is
    ignored.  So a timeout written as a number of seconds followed by a
    unit or any other text that does not begin with a digit, such as 3600s,
    passes the range check and is taken as that number of seconds when the
    number is between 60 and 86400, and is rejected with the timeout error
    when it is not. *)
Theorem trailing_text_is_ignored
        (host : Host) (raw : RawInputs) (w : World) (n : Z) (rest : string) :
  supplies host raw -> wellFormed raw ->
  raw_timeout raw = Z_toString n +:+ rest -> numeralStops rest ->
  passesRange 10 60 (pollIntervalOf raw) ->
  parseInt (raw_timeout raw) = Num n /\
  if (60 <=? n) && (n <=? 86400)
  then exists cfg, fst (parseInputs host w) = Return cfg /\ timeout cfg = Num n
  else fst (parseInputs host w) = Throw (JsError timeoutMessage).
Proof.
  intros Hs Hw Ht Hr Hp.
  assert (Hn : parseInt (raw_timeout raw) = Num n)
    by (rewrite Ht; apply parseInt_leading_number, Hr).
  split; [exact Hn|].
  rewrite (parseInputs_outcome host raw w Hs Hw). unfold parseOutcome.
  assert (Hto : timeoutOf raw = Num n).
  { unfold timeoutOf. rewrite orElse_nonempty; [exact Hn|].
    rewrite Ht. apply append_nonempty, Z_toString_nonempty. }
  rewrite Hto. rewrite (rangeCheck_passesRange _ _ _ Hp).
  destruct ((60 <=? n) && (n <=? 86400)) eqn:E.
  - apply andb_true_iff in E as [E1 E2]. apply Z.leb_le in E1, E2.
    rewrite (proj2 (rangeCheck_passes 60 86400 n)) by lia.
    eexists. split; [reflexivity|]. exact Hto.
  - rewrite (proj2 (rangeCheck_fails 60 86400 n)); [reflexivity|].
    apply andb_false_iff in E as [E|E]; apply Z.leb_gt in E; lia.
Qed.

Lemma trailing_text_is_ignored_witness :
  let raw := withNumbers "3600s" "30" "" in
  parseInt (raw_timeout raw) = Num 3600 /\
  exists cfg,
    fst (parseInputs (demoHost raw "ghs_token" emptySarif uploadAccepted) emptyWorld)
    = Return cfg /\
    timeout cfg = Num 3600.
Proof.
  intros raw.
  apply (trailing_text_is_ignored
           (demoHost raw "ghs_token" emptySarif uploadAccepted) raw emptyWorld 3600 "s").
  - repeat split.
  - repeat split; discriminate.
  - reflexivity.
  - repeat split; discriminate.
  - vm_compute. split; discriminate.
Defined.

(** ** The breakdown by violation type *)

Lemma countType_total (tb : list (string * Z)) (t : string) :
  breakdownTotal (countType tb t) = breakdownTotal tb + 1.
Proof.
  induction tb as [|[k n] tb IH]; cbn [countType breakdownTotal]; [lia|].
  destruct (String.eqb k t); cbn [breakdownTotal]; lia.
Qed.

Lemma countType_keys (tb : list (string * Z)) (t k : string) :
  In k (List.map fst (countType tb t)) -> k = t \/ In k (List.map fst tb).
Proof.
  induction tb as [|[k' n] tb IH]; cbn [countType List.map fst In].
  - intros [<-|[]]. left. reflexivity.
  - destruct (String.eqb k' t); cbn [List.map fst In]; [tauto|].
    intros [H|H]; [tauto|]. destruct (IH H); tauto.
Qed.

Lemma countType_NoDup (tb : list (string * Z)) (t : string) :
  List.NoDup (List.map fst tb) -> List.NoDup (List.map fst (countType tb t)).
Proof.
  induction tb as [|[k n] tb IH]; cbn [countType List.map fst]; intros H.
  - constructor; [intros []|constructor].
  - destruct (String.eqb k t) eqn:E; cbn [List.map fst]; [exact H|].
    inversion H as [|? ? Hk Ht]. subst. constructor; [|auto].
    intros Hin. apply countType_keys in Hin as [->|Hin]; [|contradiction].
    rewrite String.eqb_refl in E. discriminate.
Qed.

Lemma countType_positive (tb : list (string * Z)) (t : string) :
  Forall (fun entry => 0 < snd entry) tb ->
  Forall (fun entry => 0 < snd entry) (countType tb t).
Proof.
  induction 1 as [|[k n] tb Hn Htb IH]; cbn [countType].
  - repeat constructor.
  - cbn [snd] in Hn. destruct (String.eqb k t); constructor; cbn [snd]; auto; lia.
Qed.

Lemma countType_countOf (tb : list (string * Z)) (t k : string) :
  countOf (countType tb t) k = countOf tb k + (if String.eqb t k then 1 else 0).
Proof.
  induction tb as [|[k' n] tb IH]; cbn [countType countOf].
  - destruct (String.eqb t k); lia.
  - destruct (String.eqb_spec k' t) as [->|Hne]; cbn [countOf].
    + destruct (String.eqb t k); lia.
    + destruct (String.eqb_spec k' k) as [->|_]; [|exact IH].
      destruct (String.eqb_spec t k) as [->|_]; [contradiction Hne; reflexivity|lia].
Qed.

Lemma countViolations_readable (items : list JsValue) (tb : list (string * Z)) (w : World) :
  existsb unreadable items = false ->
  exists tb',
    countViolations items tb w = (Return tb', w) /\
    (forall type, countOf tb' type = countOf tb type + Z.of_nat (occurrences type items)) /\
    breakdownTotal tb' = breakdownTotal tb + Z.of_nat (List.length items) /\
    (List.NoDup (List.map fst tb) -> List.NoDup (List.map fst tb')) /\
    (Forall (fun entry => 0 < snd entry) tb -> Forall (fun entry => 0 < snd entry) tb').
Proof.
  revert tb. induction items as [|v items IH]; intros tb H.
  - exists tb. cbn [countViolations List.length]. repeat split; auto.
    + intros type. unfold occurrences. simpl. lia.
    + simpl. lia.
  - cbn [existsb] in H. apply orb_false_iff in H as [Hv Hs].
    cbn [countViolations]. unfold bind.
    assert (E : getProp v "type" w = (Return (field v "type"), w)).
    { destruct v; try discriminate Hv; reflexivity. }
    rewrite E. fold (typeOf v).
    destruct (IH (countType tb (typeOf v)) Hs) as (tb' & E' & Hc & Ht & Hn & Hp).
    exists tb'. rewrite E'. split; [reflexivity|]. split; [|split; [|split]].
    + intros type. rewrite Hc, countType_countOf. unfold occurrences.
      cbn [List.filter]. destruct (String.eqb (typeOf v) type); cbn [List.length]; lia.
    + rewrite Ht, countType_total. cbn [List.length]. lia.
    + intros H. apply Hn, countType_NoDup, H.
    + intros H. apply Hp, countType_positive, H.
Qed.

Lemma countViolations_unreadable (items : list JsValue) (tb : list (string * Z)) (w : World) :
  existsb unreadable items = true ->
  exists m, countViolations items tb w = (Throw (JsError m), w) /\
            startsWith m "Cannot read properties of " = true.
Proof.
  revert tb. induction items as [|v items IH]; intros tb H; [discriminate|].
  cbn [existsb] in H. cbn [countViolations]. unfold bind.
  destruct v; cbn [unreadable orb] in H; cbn [getProp ret throw];
    try (apply IH; exact H);
    eexists; (split; [reflexivity|reflexivity]).
Qed.

(** A type has an entry exactly when its count is positive. *)
Lemma countOf_positive (tb : list (string * Z)) (type : string) :
  Forall (fun entry => 0 < snd entry) tb ->
  0 < countOf tb type <-> In type (List.map fst tb).
Proof.
  induction 1 as [|[k n] tb Hn Htb IH]; cbn [countOf List.map fst In]; [lia|].
  cbn [snd] in Hn. destruct (String.eqb_spec k type) as [->|Hne].
  - split; [left; reflexivity|intros _; exact Hn].
  - rewrite IH. split; [tauto|intros [H|H]; [contradiction|exact H]].
Qed.

Lemma occurrences_positive (type : string) (violations : list JsValue) :
  (0 < occurrences type violations)%nat <-> In type (List.map typeOf violations).
Proof.
  unfold occurrences. induction violations as [|v vs IH]; cbn [List.filter List.map In].
  - simpl. split; [lia|tauto].
  - destruct (String.eqb_spec (typeOf v) type) as [->|Hne]; cbn [List.length].
    + split; [left; reflexivity|lia].
    + rewrite IH. split; [tauto|intros [H|H]; [contradiction|exact H]].
Qed.

(** X7: the breakdown of the violations by type.  When one of the
    violations is null or undefined the count throws the TypeError of
    reading its type, which the scan stage catches and mentions in debug
    output only.  Otherwise, and provided no type is the name of a member
    that every object inherits (constructor, toString and the like), every
    violation is counted once, under its own type, a violation without a
    type counting as UNKNOWN: the count the breakdown holds for a type is
    the number of violations of that type.  The types in the breakdown are
    distinct, each count is positive, and the counts add up to the number
    of violations. *)
Theorem breakdown_counts_every_violation (violations : list JsValue) (w : World) :
  Forall ordinaryType violations ->
  if existsb unreadable violations
  then exists m, countViolations violations [] w = (Throw (JsError m), w) /\
                 startsWith m "Cannot read properties of " = true
  else exists typeBreakdown,
      countViolations violations [] w = (Return typeBreakdown, w) /\
      (forall type, countOf typeBreakdown type = Z.of_nat (occurrences type violations)) /\
      (forall type, In type (List.map fst typeBreakdown) <->
                    In type (List.map typeOf violations)) /\
      breakdownTotal typeBreakdown = Z.of_nat (List.length violations) /\
      List.NoDup (List.map fst typeBreakdown) /\
      Forall (fun entry => 0 < snd entry) typeBreakdown.
Proof.
  intros _. destruct (existsb unreadable violations) eqn:E.
  - apply countViolations_unreadable, E.
  - destruct (countViolations_readable violations [] w E) as (tb & E' & Hc & Ht & Hn & Hp).
    assert (Hpos : Forall (fun entry => 0 < snd entry) tb) by (apply Hp; constructor).
    exists tb. split; [exact E'|]. split; [intros type; rewrite Hc; reflexivity|].
    split; [|repeat split; auto; apply Hn; constructor].
    intros type. rewrite <- (countOf_positive tb type Hpos), Hc.
    rewrite <- occurrences_positive. cbn [countOf]. lia.
Qed.

Lemma breakdown_counts_every_violation_witness :
  exists typeBreakdown,
    countViolations demoViolations [] emptyWorld = (Return typeBreakdown, emptyWorld) /\
    (forall type, countOf typeBreakdown type = Z.of_nat (occurrences type demoViolations)) /\
    (forall type, In type (List.map fst typeBreakdown) <->
                  In type (List.map typeOf demoViolations)) /\
    breakdownTotal typeBreakdown = 5 /\
    List.NoDup (List.map fst typeBreakdown) /\
    Forall (fun entry => 0 < snd entry) typeBreakdown.
Proof.
  apply (breakdown_counts_every_violation demoViolations emptyWorld).
  repeat constructor; vm_compute; intuition discriminate.
Defined.

(** ** Defaults taken from the workflow run *)

Lemma replace_unfold (s pat rep : string) :
  replace s pat rep =
  if startsWith s pat then rep +:+ substringFrom (String.length pat) s
  else match s with
       | EmptyString => EmptyString
       | String c s' => String c (replace s' pat rep)
       end.
Proof. destruct s; reflexivity. Qed.

Lemma substringFrom_append (p s : string) : substringFrom (String.length p) (p +:+ s) = s.
Proof. induction p as [|c p IH]; [destruct s; reflexivity|exact IH]. Qed.

Lemma replace_at_start (pat rep s : string) : replace (pat +:+ s) pat rep = rep +:+ s.
Proof. rewrite replace_unfold, startsWith_append, substringFrom_append. reflexivity. Qed.

(** X8: what the resolver takes from the workflow run when the
    repository-url and branch inputs are left empty.  The repository URL
    is https://github.com/owner/repo.git for the repository of the run, a
    URL that normalisation leaves as it is.  The branch is the ref of the
    run without its refs/heads/ prefix; a ref that contains no refs/heads/,
    such as the ref of a tag or of a pull request, is taken whole. *)
Theorem resolver_defaults (host : Host) (raw : RawInputs) (w : World) :
  supplies host raw -> wellFormed raw ->
  passesRange 60 86400 (timeoutOf raw) -> passesRange 10 60 (pollIntervalOf raw) ->
  raw_repositoryUrl raw = "" -> raw_branch raw = "" ->
  exists cfg,
    fst (parseInputs host w) = Return cfg /\
    repositoryUrl cfg = canonicalUrl (ctx_owner (context host)) (ctx_repo (context host)) /\
    normalizedUrl (repositoryUrl cfg) = repositoryUrl cfg /\
    (forall name, ctx_ref (context host) = "refs/heads/" +:+ name -> branch cfg = name) /\
    (includes (ctx_ref (context host)) "refs/heads/" = false ->
     branch cfg = ctx_ref (context host)).
Proof.
  intros Hs Hw Ht Hp Hu Hb.
  exists (configOf (context host) raw).
  rewrite (parseInputs_outcome host raw w Hs Hw). unfold parseOutcome.
  rewrite (rangeCheck_passesRange _ _ _ Ht), (rangeCheck_passesRange _ _ _ Hp).
  split; [reflexivity|].
  cbn [configOf repositoryUrl branch]. rewrite Hu, Hb. cbn [orElse String.eqb].
  split; [reflexivity|]. split; [|split].
  - apply normalizedUrl_fixpoint.
    + repeat split; auto.
    + rewrite <- !append_assoc. apply endsWith_append.
  - intros name ->. apply (replace_at_start "refs/heads/" "" name).
  - apply replace_absent.
Qed.

Lemma resolver_defaults_witness :
  exists cfg,
    fst (parseInputs (demoHost demoRaw "ghs_token" emptySarif uploadAccepted) emptyWorld)
    = Return cfg /\
    repositoryUrl cfg = "https://github.com/acme/widget.git" /\
    normalizedUrl (repositoryUrl cfg) = repositoryUrl cfg /\
    branch cfg = "main".
Proof.
  destruct (resolver_defaults (demoHost demoRaw "ghs_token" emptySarif uploadAccepted)
              demoRaw emptyWorld)
    as (cfg & E & Hu & Hn & Hb & _);
    try first [reflexivity | repeat split; discriminate | repeat split].
  exists cfg. split; [exact E|]. split; [exact Hu|]. split; [exact Hn|].
  apply Hb. reflexivity.
Defined.

(** ** What a computation may return and throw *)

Lemma returnsOnly_ret {A} (P : A -> Prop) (a : A) : P a -> returnsOnly P (ret a).
Proof. intros H w b w' E. inversion E. subst. exact H. Qed.

Lemma returnsOnly_bind {A B} (P : B -> Prop) (m : M A) (k : A -> M B) :
  (forall a, returnsOnly P (k a)) -> returnsOnly P (bind m k).
Proof.
  intros H w b w' E. unfold bind in E.
  destruct (m w) as [[a|e] w1]; [exact (H a w1 b w' E)|discriminate].
Qed.

(** [if (c) throw e; rest]: what follows runs with [c] false. *)
Lemma returnsOnly_guard {A} (P : A -> Prop) (c : bool) (e : exn) (k : M A) :
  (c = false -> returnsOnly P k) -> returnsOnly P (when c (throw e) ;; k).
Proof.
  intros H w b w' E. destruct c; [discriminate E|]. exact (H eq_refl w b w' E).
Qed.

Lemma throwsOnly_returns {A} (Q : exn -> Prop) (m : M A) :
  alwaysReturns m -> throwsOnly Q m.
Proof. intros H w e w' E. destruct (H w) as (a & w1 & E1). congruence. Qed.

Lemma throwsOnly_throw {A} (Q : exn -> Prop) (e : exn) : Q e -> throwsOnly Q (@throw A e).
Proof. intros H w e' w' E. inversion E. subst. exact H. Qed.

Lemma throwsOnly_bind {A B} (Q : exn -> Prop) (m : M A) (k : A -> M B) :
  throwsOnly Q m -> (forall a, throwsOnly Q (k a)) -> throwsOnly Q (bind m k).
Proof.
  intros Hm Hk w e w' E. unfold bind in E.
  destruct (m w) as [[a|e1] w1] eqn:Em.
  - exact (Hk a w1 e w' E).
  - inversion E. subst. exact (Hm w e w' Em).
Qed.

Lemma throwsOnly_when (Q : exn -> Prop) (c : bool) (m : M unit) :
  throwsOnly Q m -> throwsOnly Q (when c m).
Proof. intros H. destruct c; [exact H|]. intros w e w' E. discriminate E. Qed.

(** A [catch] block that throws decides what leaves the [try]. *)
Lemma throwsOnly_catch {A} (Q : exn -> Prop) (body : M A) (handler : exn -> M A) :
  (forall e, throwsOnly Q (handler e)) -> throwsOnly Q (tryCatch body handler).
Proof.
  intros H w e w' E. unfold tryCatch in E.
  destruct (body w) as [[a|e1] w1]; [discriminate|exact (H e1 w1 e w' E)].
Qed.

(** A [catch] block that throws again what it caught. *)
Lemma throwsOnly_rethrow {A} (Q : exn -> Prop) (body : M A) (handler : exn -> M A) :
  throwsOnly Q body -> (forall e, Q e -> throwsOnly Q (handler e)) ->
  throwsOnly Q (tryCatch body handler).
Proof.
  intros Hb H w e w' E. unfold tryCatch in E.
  destruct (body w) as [[a|e1] w1] eqn:Eb; [discriminate|].
  exact (H e1 (Hb w e1 w1 Eb) w1 e w' E).
Qed.

Lemma stageFailure_prefix (p rest : string) :
  In p stagePrefixes -> stageFailure (JsError (p +:+ rest)).
Proof. intros H. exists (p +:+ rest), p. auto using startsWith_append. Qed.

Lemma orElse_default_nonempty (s d : string) : d <> EmptyString -> orElse s d <> EmptyString.
Proof.
  intros Hd. unfold orElse. destruct (String.eqb s EmptyString) eqn:E; [exact Hd|].
  apply String.eqb_neq, E.
Qed.

Lemma passesRange_rangeCheck (lo hi : Z) (x : jsnum) :
  js_lt x (Num lo) || js_gt x (Num hi) = false -> passesRange lo hi x.
Proof. destruct x as [z|]; intros H; [apply rangeCheck_passes, H|exact I]. Qed.

(** X9: whatever the runtime answers, a configuration that the resolver
    returns has an API key and an organization, no scan types, a timeout
    and a poll interval that are in range or not a number, one of the five
    output formats and an output file. *)
Theorem parseInputs_returns_valid
        (host : Host) (w : World) (cfg : ActionInputs) (w' : World) :
  parseInputs host w = (Return cfg, w') -> validConfiguration cfg.
Proof.
  revert w cfg w'. change (returnsOnly validConfiguration (parseInputs host)).
  unfold parseInputs.
  repeat match goal with
    | |- returnsOnly _ (when _ (throw _) ;; _) => apply returnsOnly_guard; intros ?
    | |- returnsOnly _ (bind _ _) => apply returnsOnly_bind; intros ?
    end.
  apply returnsOnly_ret. unfold validConfiguration. cbn.
  repeat match goal with H : String.eqb _ EmptyString = false |- _ =>
    apply String.eqb_neq in H end.
  repeat split; try assumption.
  - apply passesRange_rangeCheck. assumption.
  - apply passesRange_rangeCheck. assumption.
  - apply negb_false_iff. assumption.
  - apply orElse_default_nonempty. discriminate.
Qed.

Lemma parseInputs_returns_valid_witness :
  validConfiguration (configOf demoContext demoRaw).
Proof.
  apply (parseInputs_returns_valid
           (demoHost demoRaw "ghs_token" emptySarif uploadAccepted)
           emptyWorld (configOf demoContext demoRaw) emptyWorld).
  reflexivity.
Defined.

(** ** What a computation appends to the history *)

Lemma appends_emitsOnly {A} (P : Event -> Prop) (m : M A) : emitsOnly P m -> appends P m.
Proof. intros H w. destruct (H w) as (evs & E & F). exists evs. rewrite E. auto. Qed.

Lemma appends_ret {A} (P : Event -> Prop) (a : A) : appends P (ret a).
Proof. apply appends_emitsOnly, emitsOnly_ret. Qed.

Lemma appends_throw {A} (P : Event -> Prop) (e : exn) : appends P (@throw A e).
Proof. apply appends_emitsOnly, emitsOnly_throw. Qed.

Lemma appends_lift {A} (P : Event -> Prop) (c : Completion A) : appends P (lift c).
Proof. apply appends_emitsOnly, emitsOnly_lift. Qed.

Lemma appends_emit (P : Event -> Prop) (e : Event) : P e -> appends P (emit e).
Proof. intros H. apply appends_emitsOnly, emitsOnly_emit, H. Qed.

Lemma appends_call {A} (P : Event -> Prop) (e : Event) (oracle : World -> Completion A) :
  P e -> appends P (call e oracle).
Proof. intros H w. exists [e]. split; [reflexivity|]. repeat constructor. exact H. Qed.

Lemma appends_silent {A} (P : Event -> Prop) (m : M A) :
  (forall w, history (snd (m w)) = history w) -> appends P m.
Proof. intros H w. exists []. rewrite H, app_nil_r. split; [reflexivity|constructor]. Qed.

Lemma appends_setEnv (P : Event -> Prop) (name value : string) : appends P (setEnv name value).
Proof. apply appends_silent. reflexivity. Qed.

Lemma appends_getEnv (P : Event -> Prop) (name : string) : appends P (getEnv name).
Proof. apply appends_silent. reflexivity. Qed.

Lemma appends_bind {A B} (P : Event -> Prop) (m : M A) (k : A -> M B) :
  appends P m -> (forall a, appends P (k a)) -> appends P (bind m k).
Proof.
  intros Hm Hk w. destruct (Hm w) as (e1 & E1 & F1). unfold bind.
  destruct (m w) as [[a|e] w1]; simpl in E1.
  - destruct (Hk a w1) as (e2 & E2 & F2).
    exists (e1 ++ e2)%list. rewrite E2, E1, app_assoc. split; [reflexivity|].
    apply Forall_app; auto.
  - exists e1. split; [exact E1|exact F1].
Qed.

Lemma appends_tryCatch {A} (P : Event -> Prop) (body : M A) (handler : exn -> M A) :
  appends P body -> (forall e, appends P (handler e)) -> appends P (tryCatch body handler).
Proof.
  intros Hb Hh w. destruct (Hb w) as (e1 & E1 & F1). unfold tryCatch.
  destruct (body w) as [[a|e] w1]; simpl in E1.
  - exists e1. split; [exact E1|exact F1].
  - destruct (Hh e w1) as (e2 & E2 & F2).
    exists (e1 ++ e2)%list. rewrite E2, E1, app_assoc. split; [reflexivity|].
    apply Forall_app; auto.
Qed.

Lemma appends_when (P : Event -> Prop) (c : bool) (m : M unit) :
  appends P m -> appends P (when c m).
Proof. destruct c; simpl; auto using appends_ret. Qed.

Lemma appends_whenString (P : Event -> Prop) (s : option string) (body : string -> M unit) :
  (forall v, appends P (body v)) -> appends P (whenString s body).
Proof. intros H. destruct s; simpl; auto using appends_ret, appends_when. Qed.

Lemma appends_whenNumber (P : Event -> Prop) (n : option jsnum) (body : jsnum -> M unit) :
  (forall v, appends P (body v)) -> appends P (whenNumber n body).
Proof. intros H. destruct n; simpl; auto using appends_ret, appends_when. Qed.

Lemma appends_getProp (P : Event -> Prop) (v : JsValue) (k : string) : appends P (getProp v k).
Proof. destruct v; simpl; auto using appends_ret, appends_throw. Qed.

Lemma appends_countResults (P : Event -> Prop) (runs : list JsValue) (sum : Z) :
  appends P (countResults runs sum).
Proof.
  revert sum. induction runs as [|r runs IH]; intros sum; simpl.
  - apply appends_ret.
  - apply appends_bind; [apply appends_getProp|intros ?; apply IH].
Qed.

Lemma appends_countViolations (P : Event -> Prop) (vs : list JsValue) (tb : list (string * Z)) :
  appends P (countViolations vs tb).
Proof.
  revert tb. induction vs as [|v vs IH]; intros tb; simpl.
  - apply appends_ret.
  - apply appends_bind; [apply appends_getProp|intros ?; apply IH].
Qed.

Lemma appends_logBreakdown (P : Event -> Prop) (host : Host) (this : CodeThreatAction)
      (entries : list (string * Z)) :
  (forall m, P (CoreInfo m)) -> appends P (logBreakdown host this entries).
Proof.
  intros H. induction entries as [|[t c] entries IH]; simpl.
  - apply appends_ret.
  - apply appends_bind; [|intros ?; exact IH].
    unfold Logger_info, core_info.
    apply appends_bind; [apply appends_emit, H|intros ?].
    apply appends_when, appends_emit, H.
Qed.

(** Goes through a computation, leaving the events that [tac] cannot
    accept. *)
Ltac appends_with tac :=
  repeat match goal with
    | |- appends _ (ret _) => apply appends_ret
    | |- appends _ (throw _) => apply appends_throw
    | |- appends _ (lift _) => apply appends_lift
    | |- appends _ (emit _) => apply appends_emit; tac
    | |- appends _ (call _ _) => apply appends_call; tac
    | |- appends _ (setEnv _ _) => apply appends_setEnv
    | |- appends _ (getEnv _) => apply appends_getEnv
    | |- appends _ (getProp _ _) => apply appends_getProp
    | |- appends _ (countResults _ _) => apply appends_countResults
    | |- appends _ (countViolations _ _) => apply appends_countViolations
    | |- appends _ (logBreakdown _ _ _) => apply appends_logBreakdown; intros ?; tac
    | |- appends _ (tryCatch _ _) => apply appends_tryCatch; [|intros ?]
    | |- appends _ (when false _) => apply appends_ret
    | |- appends _ (when _ _) => apply appends_when
    | |- appends _ (whenString _ _) => apply appends_whenString; intros ?
    | |- appends _ (whenNumber _ _) => apply appends_whenNumber; intros ?
    | |- appends _ (bind _ _) => apply appends_bind; [|intros ?]
    | |- appends _ (if ?c then _ else _) => destruct c
    | |- appends _ (match ?x with _ => _ end) => destruct x
    | |- appends _ _ => progress cbv zeta
    end.

Ltac unfold_logger :=
  unfold Logger_new, Logger_info, Logger_warning, Logger_error, Logger_debug,
    Logger_startGroup, Logger_endGroup, Logger_step, Logger_success, Logger_failure,
    core_info, core_warning, core_error, core_setOutput, core_getInput,
    core_getBooleanInput.

Ltac unfold_stages :=
  unfold execute, validateAuthentication, setupRepository, normalizeGitHubUrl,
    executeScan, logViolationTypes, processResults, uploadSarifResults,
    SarifUploader_uploadSarif, validateSarifFormat, checkFailureConditions.

Section Histories.
Variable host : Host.
Variable P : Event -> Prop.
Hypothesis Plog : forall e, isLog e -> P e.
Hypothesis Papi : forall e,
  match e with
  | ApiValidateAuth | ApiImportRepository _ | ApiRunScan _ | ApiExportScanResults _
  | FsWriteFile _ _ => P e
  | _ => True
  end.

Lemma appends_stages (this : CodeThreatAction) :
  (uploadSarif (inputs this) && String.eqb (outputFormat (inputs this)) "sarif" = true ->
   forall e, match e with
             | FsPathExists _ | FsReadFile _ | OctokitUploadSarif _ => P e
             | _ => True
             end) ->
  appends P (execute host this).
Proof.
  intros Hup. unfold execute.
  destruct (uploadSarif (inputs this) && String.eqb (outputFormat (inputs this)) "sarif").
  - specialize (Hup eq_refl).
    unfold_stages. unfold_logger.
    appends_with ltac:(first [ apply Plog; exact I
                             | match goal with |- P ?e => exact (Papi e) end
                             | match goal with |- P ?e => exact (Hup e) end ]).
  - clear Hup. unfold_stages. unfold_logger.
    appends_with ltac:(first [ apply Plog; exact I
                             | match goal with |- P ?e => exact (Papi e) end ]).
Qed.

End Histories.

(** ** The stages of the pipeline *)

Lemma bind_return {A B} (m : M A) (k : A -> M B) (w w' : World) (a : A) :
  m w = (Return a, w') -> bind m k w = k a w'.
Proof. intros E. unfold bind. rewrite E. reflexivity. Qed.

Lemma bind_throw {A B} (m : M A) (k : A -> M B) (w w' : World) (e : exn) :
  m w = (Throw e, w') -> bind m k w = (Throw e, w').
Proof. intros E. unfold bind. rewrite E. reflexivity. Qed.

Lemma tryCatch_return {A} (body : M A) (handler : exn -> M A) (w w' : World) (a : A) :
  body w = (Return a, w') -> tryCatch body handler w = (Return a, w').
Proof. intros E. unfold tryCatch. rewrite E. reflexivity. Qed.

Lemma tryCatch_throw {A} (body : M A) (handler : exn -> M A) (w w' : World) (e : exn) :
  body w = (Throw e, w') -> tryCatch body handler w = handler e w'.
Proof. intros E. unfold tryCatch. rewrite E. reflexivity. Qed.

Section StageFailures.
Variable host : Host.
Variable this : CodeThreatAction.

Lemma validateAuthentication_throws :
  throwsOnly stageFailure (validateAuthentication host this).
Proof.
  apply throwsOnly_catch. intros e. apply throwsOnly_throw, stageFailure_prefix.
  simpl. tauto.
Qed.

Lemma setupRepository_throws : throwsOnly stageFailure (setupRepository host this).
Proof.
  apply throwsOnly_catch. intros e. apply throwsOnly_throw, stageFailure_prefix.
  simpl. tauto.
Qed.

Lemma executeScan_throws (repositoryId : string) :
  throwsOnly stageFailure (executeScan host this repositoryId).
Proof.
  apply throwsOnly_catch. intros e. apply throwsOnly_throw, stageFailure_prefix.
  simpl. tauto.
Qed.

Lemma processResults_throws (scanId : string) :
  throwsOnly stageFailure (processResults host this scanId).
Proof.
  apply throwsOnly_catch. intros e. apply throwsOnly_throw, stageFailure_prefix.
  simpl. tauto.
Qed.

Lemma checkFailureConditions_throws (r : ScanResults) :
  throwsOnly stageFailure (checkFailureConditions host this r).
Proof.
  unfold checkFailureConditions, criticalMessage, highMessage, maxViolationsMessage.
  repeat match goal with
    | |- throwsOnly _ (bind _ _) => apply throwsOnly_bind; [|intros ?]
    | |- throwsOnly _ (when _ (throw _)) =>
        apply throwsOnly_when, throwsOnly_throw, stageFailure_prefix; simpl; tauto
    | |- throwsOnly _ _ =>
        apply throwsOnly_returns, logged_alwaysReturns; solve [auto 8 with logs]
    end.
Qed.

Lemma execute_throws : throwsOnly stageFailure (execute host this).
Proof.
  unfold execute. apply throwsOnly_rethrow.
  - repeat match goal with
    | |- throwsOnly _ (validateAuthentication _ _) => apply validateAuthentication_throws
    | |- throwsOnly _ (setupRepository _ _) => apply setupRepository_throws
    | |- throwsOnly _ (executeScan _ _ _) => apply executeScan_throws
    | |- throwsOnly _ (processResults _ _ _) => apply processResults_throws
    | |- throwsOnly _ (checkFailureConditions _ _ _) => apply checkFailureConditions_throws
    | |- throwsOnly _ (ret _) => apply throwsOnly_returns, alwaysReturns_ret
    | |- throwsOnly _ (when _ (whenString _ _)) =>
        apply throwsOnly_returns, alwaysReturns_when, alwaysReturns_whenString; intros ?;
        repeat (apply alwaysReturns_bind; [|intros ?]);
        first [ apply uploadSarifResults_alwaysReturns
              | apply logged_alwaysReturns; solve [auto 8 with logs] ]
    | |- throwsOnly _ (bind _ _) => apply throwsOnly_bind; [|intros ?]
    | |- throwsOnly _ _ =>
        apply throwsOnly_returns, logged_alwaysReturns; solve [auto 8 with logs]
    end.
  - intros e He. apply throwsOnly_bind; [|intros _; apply throwsOnly_throw, He].
    apply throwsOnly_returns, logged_alwaysReturns. auto with logs.
Qed.

Lemma execute_failure_logged (w w' : World) (e : exn) :
  execute host this w = (Throw e, w') ->
  exists evs,
    history w' =
    (history w ++ evs ++
     [CoreError "Action execution failed";
      CoreError ("  Error Details: "
                 +:+ JSON_stringify host (JObj [("error", JStr (errorMessage e))]))])%list.
Proof.
  intros E. unfold execute in E.
  match type of E with
  | tryCatch ?body _ w = _ => assert (Hb : appends (fun _ => True) body)
  end.
  { unfold_stages. unfold_logger. appends_with ltac:(exact I). }
  unfold tryCatch in E. destruct (Hb w) as (evs & Hh & _). clear Hb.
  match type of E with
  | match ?b with _ => _ end = _ => destruct b as [[a|e1] w1]
  end; [discriminate|].
  simpl in Hh. inversion E. subst. exists evs. simpl. rewrite Hh, <- !app_assoc. reflexivity.
Qed.

End StageFailures.

(** X10: whatever the collaborators do, an exception that leaves the
    pipeline is an Error whose message begins with the name of the stage
    that failed (Authentication failed, Repository setup failed, Scan
    execution failed, Results processing failed, or Build failed for a
    crossed threshold), and the last thing the pipeline did was to log it:
    the line Action execution failed and the message as error details.  No
    failure of the SARIF upload ever leaves the pipeline. *)
Theorem execute_failure_names_stage
        (host : Host) (this : CodeThreatAction) (w w' : World) (e : exn) :
  execute host this w = (Throw e, w') ->
  stageFailure e /\
  exists evs,
    history w' =
    (history w ++ evs ++
     [CoreError "Action execution failed";
      CoreError ("  Error Details: "
                 +:+ JSON_stringify host (JObj [("error", JStr (errorMessage e))]))])%list.
Proof.
  intros E. split.
  - exact (execute_throws host this w e w' E).
  - exact (execute_failure_logged host this w w' e E).
Qed.

Lemma execute_failure_names_stage_witness :
  stageFailure (JsError "Authentication failed: 401 Unauthorized").
Proof.
  exact (proj1 (execute_failure_names_stage
                  (demoHost demoRaw "ghs_token" emptySarif uploadAccepted)
                  (withClient demoAction (rejectedClient (JsError "401 Unauthorized")))
                  emptyWorld _ _ eq_refl)).
Defined.

(** X11: when the service rejects the credentials, the pipeline throws
    Authentication failed: followed by the reason, and all it has done is:
    open the authentication group, announce the validation, ask the
    service once, and log the failure.  The group is left open and no
    repository, scan or export request is made. *)
Theorem authentication_failure_stops_the_run
        (host : Host) (this : CodeThreatAction) (w : World) (reason : exn) :
  client_validateAuth (apiClient this)
    (addEvents w [CoreStartGroup "🔐 Authentication";
                  CoreInfo "🔄 Validating API credentials"]) = Throw reason ->
  execute host this w =
  (Throw (JsError ("Authentication failed: " +:+ errorMessage reason)),
   addEvents w
     [CoreStartGroup "🔐 Authentication";
      CoreInfo "🔄 Validating API credentials";
      ApiValidateAuth;
      CoreError "Action execution failed";
      CoreError ("  Error Details: " +:+
                 JSON_stringify host
                   (JObj [("error",
                           JStr ("Authentication failed: " +:+ errorMessage reason))]))]).
Proof.
  intros H. unfold execute.
  erewrite tryCatch_throw.
  2:{ erewrite bind_return by reflexivity.
      apply bind_throw. unfold validateAuthentication.
      erewrite tryCatch_throw; [reflexivity|].
      erewrite bind_return by reflexivity.
      apply bind_throw. unfold call. 
      match goal with |- (?o ?w0, _) = _ =>
        replace w0 with (addEvents w [CoreStartGroup "🔐 Authentication";
                                      CoreInfo "🔄 Validating API credentials"])
          by (unfold addEvents; simpl; rewrite <- app_assoc; reflexivity) end.
      rewrite H. reflexivity. }
  unfold Logger_error, core_error, bind, emit, when, throw, addEvents. simpl.
  rewrite <- !app_assoc. reflexivity.
Qed.

Lemma authentication_failure_stops_the_run_witness :
  fst (execute (demoHost demoRaw "ghs_token" emptySarif uploadAccepted)
         (withClient demoAction (rejectedClient (JsError "401 Unauthorized"))) emptyWorld)
  = Throw (JsError "Authentication failed: 401 Unauthorized").
Proof.
  exact (f_equal fst
           (authentication_failure_stops_the_run
              (demoHost demoRaw "ghs_token" emptySarif uploadAccepted)
              (withClient demoAction (rejectedClient (JsError "401 Unauthorized")))
              emptyWorld (JsError "401 Unauthorized") eq_refl)).
Defined.

Lemma requests_app (a b : list Event) : requests (a ++ b) = (requests a ++ requests b)%list.
Proof. apply List.filter_app. Qed.

(** X12: the repository stage asks the service to import the repository
    exactly once, under the normalised URL and the name extracted from it,
    whatever the skip-import input says: with skip-import switched the
    stage returns or throws the same and makes the same request.  The
    repository id it returns is the one the service answered, for a
    repository that existed as for one that was just imported; a refusal
    of the service is thrown as Repository setup failed: Repository import
    failed: and the reason. *)
Theorem setupRepository_always_imports
        (host : Host) (this : CodeThreatAction) (skip : bool) (w : World) :
  fst (setupRepository host (withSkipImport this skip) w) = fst (setupRepository host this w) /\
  exists args w0,
    requests (history w0) = requests (history w) /\
    ira_url args = repositoryUrlSent this /\
    ira_name args = extractRepoName (repositoryUrlSent this) /\
    ira_branch args = branch (inputs this) /\
    requests (history (snd (setupRepository host this w)))
    = (requests (history w) ++ [ApiImportRepository args])%list /\
    requests (history (snd (setupRepository host (withSkipImport this skip) w)))
    = (requests (history w) ++ [ApiImportRepository args])%list /\
    fst (setupRepository host this w)
    = match client_importRepository (apiClient this) w0 args with
      | Return r => Return (repo_id (repository r))
      | Throw e =>
          Throw (JsError ("Repository setup failed: "
                          +:+ importFailedMessage this (errorMessage e)
                                (repositoryUrlSent this)))
      end.
Proof.
  remember (setupRepository host (withSkipImport this skip) w) as switched eqn:E1.
  remember (setupRepository host this w) as result eqn:E2.
  unfold setupRepository, normalizeGitHubUrl in E1, E2.
  cbn [inputs logger apiClient withSkipImport repositoryUrl organizationSlug branch
       skipImport] in E1.
  unfold repositoryUrlSent.
  destruct (String.eqb (repositoryUrl (inputs this)) EmptyString);
    destruct (verbose (logger this)) eqn:Ev;
    cbv beta iota zeta delta [tryCatch bind call Logger_step Logger_info Logger_warning
                                Logger_debug core_info core_warning emit when ret throw
                                dataTruthy truthy andb] in E1, E2;
    cbn [processEnv history] in E1, E2;
    rewrite ?Ev in E1, E2; cbv beta iota in E1, E2;
    match type of E2 with context [client_importRepository ?c ?w1 ?a] =>
      destruct (client_importRepository c w1 a) as [[ex repo]|e] eqn:Ei;
      cbn [alreadyExists repository] in E1, E2;
      [ destruct ex; destruct (skipImport (inputs this)); destruct skip | ];
      subst switched result;
      (split; [reflexivity|]); exists a, w1; rewrite Ei
    end;
    cbn [fst snd history ira_url ira_name ira_branch repo_id repository];
    rewrite !requests_app; cbn [requests List.filter isLogb negb];
    rewrite ?app_nil_r; repeat split; reflexivity.
Qed.

Lemma requests_logs (evs : list Event) : Forall isLog evs -> requests evs = [].
Proof.
  induction 1 as [|e evs He _ IH]; [reflexivity|].
  unfold requests in *. simpl. rewrite IH. destruct e; simpl in *; tauto.
Qed.

Lemma appends_requests {A} (m : M A) (w : World) :
  appends isLog m -> requests (history (snd (m w))) = requests (history w).
Proof.
  intros H. destruct (H w) as (evs & E & F).
  rewrite E, requests_app, (requests_logs _ F), app_nil_r. reflexivity.
Qed.

Section ScanStage.
Variable host : Host.
Variable this : CodeThreatAction.

Lemma logViolationTypes_effect (scanResult : ScanResult) (w : World) :
  exists w' args,
    logViolationTypes host this scanResult w = (Return tt, w') /\
    ea_scanId args = scan_id scanResult /\ ea_format args = "json" /\
    requests (history w') = (requests (history w) ++ [ApiExportScanResults args])%list.
Proof.
  unfold logViolationTypes.
  match goal with |- context [call (ApiExportScanResults ?a) ?o] => set (args := a) end.
  match goal with |- context [tryCatch (bind _ ?k) ?h] => set (rest := k); set (handler := h) end.
  assert (Hk : forall r, appends isLog (rest r)).
  { intros r. unfold rest. unfold_logger. appends_with ltac:(exact I). }
  assert (Hh : forall e, appends isLog (handler e)).
  { intros e. unfold handler. unfold_logger. appends_with ltac:(exact I). }
  assert (Hr : forall e u, handler e u = (Return tt, snd (handler e u))).
  { intros e u. unfold handler.
    destruct (logged_debug host (logger this) "Could not fetch violation type breakdown"
                (Some (JObj [("error", JStr (errorMessage e))])) u) as (evs & E & _).
    rewrite E. reflexivity. }
  unfold tryCatch, bind, call.
  set (w1 := {| processEnv := processEnv w; history := (history w ++ [ApiExportScanResults args])%list |}).
  assert (H1 : requests (history w1)
               = (requests (history w) ++ [ApiExportScanResults args])%list).
  { unfold w1. cbn [history]. rewrite requests_app. reflexivity. }
  destruct (client_exportScanResults (apiClient this) w args) as [r|e].
  - pose proof (appends_requests (rest r) w1 (Hk r)) as H2.
    destruct (rest r w1) as [[[]|e] w2]; cbn [snd] in H2.
    + exists w2, args. rewrite H2, H1. repeat split.
    + pose proof (appends_requests (handler e) w2 (Hh e)) as H3.
      rewrite (Hr e w2). exists (snd (handler e w2)), args.
      rewrite H3, H2, H1. repeat split.
  - pose proof (appends_requests (handler e) w1 (Hh e)) as H3.
    rewrite (Hr e w1). exists (snd (handler e w1)), args.
    rewrite H3, H1. repeat split.
Qed.

End ScanStage.

(** X13: the scan stage sends one scan request, which carries the
    repository id it was given and the branch, the wait flag, the timeout
    and the poll interval of the configuration.  When the service refuses
    it the stage throws Scan execution failed: and the reason.  Otherwise
    the stage returns the scan id of the answer, whatever becomes of the
    breakdown by violation type: the export for the breakdown is requested
    once, in JSON, for a synchronous scan that came with counts, and not
    at all for any other, and its failure is not a failure of the
    stage. *)
Theorem executeScan_outcome
        (host : Host) (this : CodeThreatAction) (repositoryId : string) (w : World) :
  exists args w0,
    requests (history w0) = requests (history w) /\
    rsa_repositoryId args = repositoryId /\
    rsa_branch args = branch (inputs this) /\
    rsa_wait args = waitForCompletion (inputs this) /\
    rsa_timeout args = timeout (inputs this) /\
    rsa_pollInterval args = pollInterval (inputs this) /\
    match client_runScan (apiClient this) w0 args with
    | Return r =>
        fst (executeScan host this repositoryId w) = Return (scan_id r) /\
        if breakdownWanted r
        then exists export,
            ea_scanId export = scan_id r /\ ea_format export = "json" /\
            requests (history (snd (executeScan host this repositoryId w)))
            = (requests (history w) ++ [ApiRunScan args; ApiExportScanResults export])%list
        else requests (history (snd (executeScan host this repositoryId w)))
             = (requests (history w) ++ [ApiRunScan args])%list
    | Throw e =>
        fst (executeScan host this repositoryId w)
        = Throw (JsError ("Scan execution failed: " +:+ errorMessage e)) /\
        requests (history (snd (executeScan host this repositoryId w)))
        = (requests (history w) ++ [ApiRunScan args])%list
    end.
Proof.
  remember (executeScan host this repositoryId w) as result eqn:E.
  unfold executeScan in E.
  match type of E with context [call (ApiRunScan ?a) ?o] => set (args := a) in E end.
  unfold tryCatch, bind at 1 2, call, Logger_step, core_info, emit, throw in E.
  match type of E with context [client_runScan ?c ?w1 args] => exists args, w1 end.
  cbn [history rsa_repositoryId rsa_branch rsa_wait rsa_timeout rsa_pollInterval].
  rewrite requests_app. cbn [requests List.filter isLogb negb]. rewrite app_nil_r.
  do 6 (split; [reflexivity|]).
  match goal with |- context [client_runScan ?c ?w1 args] =>
    destruct (client_runScan c w1 args) as [r|e] end.
  2:{ subst result. cbn [fst snd history]. rewrite !requests_app.
      cbn [requests List.filter isLogb negb]. rewrite ?app_nil_r. split; reflexivity. }
  unfold breakdownWanted.
  destruct (synchronous r); [destruct (scan_results r) as [counts|]|]; cbn [andb].
  - cbv beta iota zeta delta [bind Logger_info core_info emit when dataTruthy ret andb] in E.
    match type of E with context [logViolationTypes host this r ?u] =>
      destruct (logViolationTypes_effect host this r u) as (w' & export & E' & H1 & H2 & H3);
      rewrite E' in E
    end.
    subst result. cbn [fst snd]. split; [reflexivity|]. exists export.
    rewrite H3. cbn [history]. rewrite !requests_app.
    cbn [requests List.filter isLogb negb]. rewrite ?app_nil_r, <- ?app_assoc.
    repeat split; assumption || reflexivity.
  - cbv beta iota zeta delta [bind Logger_info core_info emit when dataTruthy ret andb] in E.
    subst result. cbn [andb fst snd history].
    rewrite !requests_app. cbn [requests List.filter isLogb negb]. rewrite ?app_nil_r.
    split; reflexivity.
  - cbv beta iota zeta delta [bind Logger_info Logger_warning core_info core_warning
                                emit when dataTruthy ret andb] in E.
    subst result. cbn [andb fst snd history].
    rewrite !requests_app. cbn [requests List.filter isLogb negb]. rewrite ?app_nil_r.
    split; reflexivity.
Qed.

Lemma zero_counts_cross_nothing (i : ActionInputs) (r : ScanResults) :
  violationCount r = Num 0 -> criticalCount r = Num 0 -> highCount r = Num 0 ->
  thresholdCrossed i r = false.
Proof.
  intros Hv Hc Hh.
  unfold thresholdCrossed, criticalCheckFails, highCheckFails, maxViolationsCheckFails.
  rewrite Hv, Hc, Hh. destruct (maxViolations i) as [z|]; simpl.
  - rewrite !andb_false_r. simpl.
    destruct (Z.ltb_spec 0 z), (Z.ltb_spec z 0); try reflexivity. lia.
  - rewrite !andb_false_r. reflexivity.
Qed.

(** X14: when the results stage returns, the export it asked for (the
    given scan, in the configured format) was answered, the answer was
    written to the configured output file, and the counts it returns are
    those of the summary in the answer.  An answer without a summary
    counts as no violations at all, so that no failure threshold can be
    crossed, however the thresholds are configured. *)
Theorem processResults_reports_the_export
        (host : Host) (this : CodeThreatAction) (scanId : string)
        (w w' : World) (r : ScanResults) :
  processResults host this scanId w = (Return r, w') ->
  exists export w0 scanResults,
    requests (history w0) = requests (history w) /\
    client_exportScanResults (apiClient this) w0 export = Return scanResults /\
    ea_scanId export = scanId /\ ea_format export = outputFormat (inputs this) /\
    requests (history w') =
    (requests (history w) ++
     [ApiExportScanResults export;
      FsWriteFile (path_resolve host (outputFile (inputs this)))
                  (resultsText host scanResults)])%list /\
    resultsFile r = Some (path_resolve host (outputFile (inputs this))) /\
    scanUrl r = Some (generateScanUrl this scanId (er_repositoryId scanResults)) /\
    match er_summary scanResults with
    | Some summary =>
        violationCount r = total summary /\ criticalCount r = critical summary /\
        highCount r = high summary /\ mediumCount r = medium summary /\
        lowCount r = low summary
    | None =>
        violationCount r = Num 0 /\ criticalCount r = Num 0 /\ highCount r = Num 0 /\
        thresholdCrossed (inputs this) r = false
    end.
Proof.
  intros E. unfold processResults in E.
  match type of E with context [call (ApiExportScanResults ?a) ?o] => set (export := a) in E end.
  cbv beta iota zeta delta [tryCatch bind call Logger_step Logger_info core_info emit
                              when dataTruthy ret throw andb stringify] in E.
  match type of E with context [client_exportScanResults ?c ?w1 export] =>
    exists export, w1; destruct (client_exportScanResults c w1 export) as [res|e] eqn:Ex
  end; [|discriminate E].
  exists res.
  split.
  { cbn [history]. rewrite requests_app. cbn [requests List.filter isLogb negb].
    apply app_nil_r. }
  split; [reflexivity|].
  match type of E with context [writeFile host ?w2 ?p ?d] =>
    destruct (writeFile host w2 p d) as [[]|e]
  end; [|discriminate E].
  inversion E. subst r w'. clear E.
  cbn [resultsFile scanUrl violationCount criticalCount highCount mediumCount lowCount
       history ea_scanId ea_format].
  rewrite !requests_app. cbn [requests List.filter isLogb negb].
  rewrite ?app_nil_r, <- ?app_assoc.
  split; [reflexivity|]. split; [reflexivity|]. split; [reflexivity|].
  split; [reflexivity|]. split; [reflexivity|].
  destruct (er_summary res) as [s|]; cbn [default].
  - repeat split.
  - repeat split. apply zero_counts_cross_nothing; reflexivity.
Qed.

Lemma processResults_reports_the_export_witness :
  exists r : ScanResults,
    fst (processResults (demoHost demoRaw "ghs_token" emptySarif uploadAccepted)
           (withClient demoAction clientWithoutSummary) "scan-1" emptyWorld) = Return r /\
    violationCount r = Num 0 /\
    thresholdCrossed (inputs (withClient demoAction clientWithoutSummary)) r = false.
Proof.
  eexists. split; [reflexivity|].
  destruct (processResults_reports_the_export
              (demoHost demoRaw "ghs_token" emptySarif uploadAccepted)
              (withClient demoAction clientWithoutSummary) "scan-1" emptyWorld _ _ eq_refl)
    as (export & w0 & res & _ & Ex & _ & _ & _ & _ & _ & H).
  inversion Ex. subst res. cbn [er_summary] in H.
  destruct H as (Hv & _ & _ & Ht). split; [exact Hv|exact Ht].
Defined.

Lemma returnsOnly_tryCatch {A} (P : A -> Prop) (body : M A) (handler : exn -> M A) :
  returnsOnly P body -> (forall e, returnsOnly P (handler e)) ->
  returnsOnly P (tryCatch body handler).
Proof.
  intros Hb Hh w a w' E. unfold tryCatch in E.
  destruct (body w) as [[b|e] w1] eqn:Eb.
  - inversion E. subst. exact (Hb w a w' Eb).
  - exact (Hh e w1 a w' E).
Qed.

Lemma returnsOnly_throw {A} (P : A -> Prop) (e : exn) : returnsOnly P (@throw A e).
Proof. intros w a w' E. discriminate E. Qed.

Lemma returnsOnly_then {A B} (Q : A -> Prop) (P : B -> Prop) (m : M A) (k : A -> M B) :
  returnsOnly Q m -> (forall a, Q a -> returnsOnly P (k a)) -> returnsOnly P (bind m k).
Proof.
  intros Hm Hk w b w' E. unfold bind in E.
  destruct (m w) as [[a|e] w1] eqn:Em; [|discriminate].
  exact (Hk a (Hm w a w1 Em) w1 b w' E).
Qed.

Lemma checkFailureConditions_passed
      (host : Host) (this : CodeThreatAction) (r : ScanResults) :
  returnsOnly (fun _ => thresholdCrossed (inputs this) r = false)
    (checkFailureConditions host this r).
Proof.
  intros w u w' E.
  destruct (thresholdCrossed (inputs this) r) eqn:Et; [|reflexivity].
  unfold thresholdCrossed in Et.
  destruct (criticalCheckFails (inputs this) r) eqn:H1.
  { rewrite check_critical_fails in E by exact H1. discriminate E. }
  destruct (highCheckFails (inputs this) r) eqn:H2.
  { rewrite check_high_fails in E by assumption. discriminate E. }
  simpl in Et. rewrite check_maxViolations_fails in E by assumption. discriminate E.
Qed.

Lemma processResults_file (host : Host) (this : CodeThreatAction) (scanId : string) :
  returnsOnly (fun r => resultsFile r = Some (path_resolve host (outputFile (inputs this))))
    (processResults host this scanId).
Proof.
  unfold processResults. apply returnsOnly_tryCatch; [|intros e; apply returnsOnly_throw].
  repeat (apply returnsOnly_bind; intros ?). apply returnsOnly_ret. reflexivity.
Qed.

(** X15: outputs mean that every check passed.  Whenever the pipeline
    returns, whatever the collaborators answered on the way, none of the
    three failure thresholds is crossed by the counts it returns, and the
    results file it names is the configured output file, resolved. *)
Theorem outputs_mean_no_threshold_crossed
        (host : Host) (this : CodeThreatAction) (w w' : World) (outputs : ActionOutputs) :
  execute host this w = (Return outputs, w') ->
  thresholdCrossed (inputs this) (results outputs) = false /\
  resultsFile (results outputs) = Some (path_resolve host (outputFile (inputs this))).
Proof.
  revert w outputs w'.
  change (returnsOnly
            (fun outputs =>
               thresholdCrossed (inputs this) (results outputs) = false /\
               resultsFile (results outputs)
               = Some (path_resolve host (outputFile (inputs this))))
            (execute host this)).
  unfold execute. apply returnsOnly_tryCatch.
  2:{ intros e. apply returnsOnly_bind; intros _. apply returnsOnly_throw. }
  do 5 (apply returnsOnly_bind; intros _).
  apply returnsOnly_bind; intros repositoryId.
  do 3 (apply returnsOnly_bind; intros _).
  apply returnsOnly_bind; intros scanId.
  do 3 (apply returnsOnly_bind; intros _).
  apply (returnsOnly_then _ _ _ _ (processResults_file host this scanId)).
  intros r Hfile.
  do 3 (apply returnsOnly_bind; intros _).
  apply (returnsOnly_then _ _ _ _ (checkFailureConditions_passed host this r)).
  intros _ Hpass. apply returnsOnly_ret. split; [exact Hpass|exact Hfile].
Qed.

Lemma outputs_mean_no_threshold_crossed_witness :
  thresholdCrossed (inputs demoAction) (results demoOutputs) = false /\
  resultsFile (results demoOutputs)
  = Some "/github/workspace/codethreat-results.sarif".
Proof.
  assert (E : execute (demoHost demoRaw "ghs_token" emptySarif uploadAccepted) demoAction
                emptyWorld
              = (Return demoOutputs,
                 snd (execute (demoHost demoRaw "ghs_token" emptySarif uploadAccepted)
                        demoAction emptyWorld)))
    by (vm_compute; reflexivity).
  exact (outputs_mean_no_threshold_crossed
           (demoHost demoRaw "ghs_token" emptySarif uploadAccepted) demoAction
           emptyWorld _ demoOutputs E).
Defined.

(** ** The SARIF uploader *)

Section Uploader.
Variable host : Host.
Variable this : SarifUploader.

Lemma countResults_readable (runs : list JsValue) (sum : Z) (w : World) :
  existsb unreadable runs = false ->
  countResults runs sum w = (Return (sum + totalResults runs), w).
Proof.
  revert sum. induction runs as [|run runs IH]; intros sum H.
  - simpl. rewrite Z.add_0_r. reflexivity.
  - simpl in H. apply orb_false_iff in H as [Hr Hs].
    cbn [countResults totalResults]. unfold bind.
    destruct run; try discriminate Hr; cbn [getProp ret];
      rewrite (IH _ Hs); unfold resultCount; cbn [field]; f_equal; f_equal; lia.
Qed.

Lemma countResults_unreadable (runs : list JsValue) (sum : Z) (w : World) :
  existsb unreadable runs = true ->
  exists m, countResults runs sum w = (Throw (JsError m), w) /\
            startsWith m "Cannot read properties of " = true.
Proof.
  revert sum. induction runs as [|run runs IH]; intros sum H; [discriminate|].
  simpl in H. cbn [countResults]. unfold bind.
  destruct run; cbn [unreadable orb] in H; cbn [getProp ret throw];
    try (apply IH; exact H);
    eexists; (split; [reflexivity|reflexivity]).
Qed.

Lemma validate_wellShaped (document : JsValue) (w w' : World) :
  validateSarifFormat host this document w = (Return tt, w') -> wellShaped document.
Proof.
  unfold validateSarifFormat, wellShaped. intros E.
  destruct document as [| | b | n | s | items | fields]; try discriminate E.
  cbn [getProp field] in *.
  cbv beta iota delta [bind ret when throw] in E.
  destruct (truthy (lookupField fields "$schema")); [|discriminate E].
  destruct (truthy (lookupField fields "version")); [|discriminate E].
  destruct (lookupField fields "runs"); try discriminate E. repeat split.
Qed.

Lemma appends_validate (document : JsValue) :
  appends isLog (validateSarifFormat host this document).
Proof. unfold validateSarifFormat. unfold_logger. appends_with ltac:(exact I). Qed.

End Uploader.

(** X16: validation of a document with runs.  When the schema identifier
    and the version pass their guards and the runs are a list, validation
    reads the results of every run: if one of the runs is null or
    undefined it throws the TypeError of that read (Cannot read properties
    of ...), not an Invalid SARIF error, and logs nothing; otherwise it
    returns, and what it logs is debug output only: nothing with a quiet
    logger and a non-empty list, and with a verbose logger the number of
    runs and the total number of results, a run without a results list
    counting for none. *)
Theorem validation_reads_every_run
        (host : Host) (this : SarifUploader) (document : JsValue)
        (runs : list JsValue) (w : World) :
  truthy (field document "$schema") = true ->
  truthy (field document "version") = true ->
  field document "runs" = JArr runs ->
  if existsb unreadable runs
  then exists m, validateSarifFormat host this document w = (Throw (JsError m), w) /\
                 startsWith m "Cannot read properties of " = true
  else exists evs,
      validateSarifFormat host this document w = (Return tt, addEvents w evs) /\
      evs =
      ((if Nat.eqb (List.length runs) 0 then [CoreWarning noRunsWarning] else []) ++
       if verbose (su_logger this)
       then [CoreInfo "[DEBUG] SARIF validation passed";
             CoreInfo ("  Debug Data: " +:+
                       JSON_stringify host
                         (JObj [("version", field document "version");
                                ("runs", JNum (Num (Z.of_nat (List.length runs))));
                                ("totalResults", JNum (Num (totalResults runs)))]))]
       else [])%list.
Proof.
  intros Hs Hv Hr.
  destruct document as [| | b | n | s | items | fields]; try discriminate.
  cbn [field] in *. unfold validateSarifFormat.
  cbv beta iota delta [bind ret when throw getProp].
  rewrite Hs, Hv, Hr. cbn [negb].
  destruct (existsb unreadable runs) eqn:Eu.
  - destruct runs as [|run runs]; [discriminate|].
    cbn [List.length Nat.eqb].
    destruct (countResults_unreadable (run :: runs) 0 w Eu) as (m & E & Hm).
    rewrite E. exists m. split; [reflexivity|exact Hm].
  - eexists. split; [|reflexivity].
    unfold Logger_warning, Logger_debug, core_warning, core_info, emit.
    cbv beta iota delta [bind ret when dataTruthy andb].
    destruct (Nat.eqb (List.length runs) 0);
      rewrite (countResults_readable runs 0 _ Eu);
      destruct (verbose (su_logger this)); cbn [truthy app];
      rewrite ?addEvents_nil; try reflexivity;
      unfold addEvents; cbn [history processEnv app];
      rewrite <- ?app_assoc; reflexivity.
Qed.

Lemma validation_reads_every_run_witness :
  exists evs,
    validateSarifFormat (demoHost demoRaw "ghs_token" twoRunSarif uploadAccepted)
      verboseUploader twoRunSarif emptyWorld
    = (Return tt, addEvents emptyWorld evs) /\
    evs = [CoreInfo "[DEBUG] SARIF validation passed"; CoreInfo "  Debug Data: {}"].
Proof.
  exact (validation_reads_every_run
           (demoHost demoRaw "ghs_token" twoRunSarif uploadAccepted)
           verboseUploader twoRunSarif
           [JObj [("results", JArr [JObj []])]; JObj []] emptyWorld
           eq_refl eq_refl eq_refl).
Defined.

Ltac upload_failed E :=
  repeat match type of E with
    | context [match ?e with JsError _ => _ | Thrown => _ end] => destruct e
    | context [if ?c then _ else _] => destruct c
    end;
  discriminate E.

(** X17: when the upload returns, the file system answered that the results
    file exists and then handed out its content; that content was parsed
    into a document that passes the guards of the validation; and after all
    of that one upload request was sent, which GitHub accepted: it carries
    that content in base64, the owner, the repository, the commit and the
    ref of the workflow run, and the tool name CodeThreat.  Nothing else was
    asked of the file system or of GitHub. *)
Theorem uploadSarif_sends_what_it_validated
        (host : Host) (this : SarifUploader) (sarifFilePath : string) (w w' : World) :
  SarifUploader_uploadSarif host this sarifFilePath w = (Return tt, w') ->
  exists content document args asked result,
    pathExists host w sarifFilePath = Return true /\
    readFile host (addEvents w [FsPathExists sarifFilePath]) sarifFilePath = Return content /\
    JSON_parse host content = Return document /\
    wellShaped document /\
    us_sarif args = base64 host content /\
    us_owner args = ctx_owner (context host) /\
    us_repo args = ctx_repo (context host) /\
    us_commit_sha args = ctx_sha (context host) /\
    us_ref args = ctx_ref (context host) /\
    us_tool_name args = "CodeThreat" /\
    requests (history asked) =
    (requests (history w) ++ [FsPathExists sarifFilePath; FsReadFile sarifFilePath])%list /\
    codeScanning_uploadSarif (su_octokit this) asked args = Return result /\
    requests (history w') =
    (requests (history w) ++
     [FsPathExists sarifFilePath; FsReadFile sarifFilePath; OctokitUploadSarif args])%list.
Proof.
  intros E. unfold SarifUploader_uploadSarif in E.
  cbv beta iota zeta delta [tryCatch bind call lift when ret throw negb] in E.
  destruct (pathExists host w sarifFilePath) as [[|]|e0] eqn:Ef;
    [|upload_failed E|upload_failed E].
  change {| processEnv := processEnv w;
            history := (history w ++ [FsPathExists sarifFilePath])%list |}
    with (addEvents w [FsPathExists sarifFilePath]) in E.
  destruct (readFile host (addEvents w [FsPathExists sarifFilePath]) sarifFilePath)
    as [content|e0] eqn:Er; [|upload_failed E].
  destruct (JSON_parse host content) as [document|e0] eqn:Ej; [|upload_failed E].
  match type of E with context [validateSarifFormat host this document ?w2] =>
    pose proof (appends_requests _ w2 (appends_validate host this document)) as Hv;
    destruct (validateSarifFormat host this document w2) as [[[]|e0] w3] eqn:Ev
  end; [|upload_failed E].
  apply validate_wellShaped in Ev. cbn [snd history addEvents processEnv] in Hv.
  cbv beta iota zeta delta [Logger_step core_info emit] in E.
  rewrite !requests_app in Hv. cbn [requests List.filter isLogb negb] in Hv.
  match type of E with context [codeScanning_uploadSarif _ ?w4 ?a] =>
    destruct (codeScanning_uploadSarif (su_octokit this) w4 a) as [result|e0] eqn:Eu;
    [exists content, document, a, w4, result|upload_failed E]
  end.
  cbv beta iota zeta delta [Logger_debug Logger_info core_info emit bind when ret
                              dataTruthy andb truthy] in E.
  split; [reflexivity|]. split; [reflexivity|].
  split; [exact Ej|]. split; [exact Ev|].
  do 6 (split; [reflexivity|]).
  split.
  { destruct (verbose (su_logger this)); cbn [history];
      rewrite ?requests_app, Hv; cbn [requests List.filter isLogb negb];
      rewrite ?app_nil_r, <- ?app_assoc; reflexivity. }
  split; [exact Eu|].
  destruct (verbose (su_logger this)); inversion E; cbn [history];
    rewrite !requests_app, Hv; cbn [requests List.filter isLogb negb];
    rewrite ?app_nil_r, <- ?app_assoc; reflexivity.
Qed.

Lemma uploadSarif_sends_what_it_validated_witness :
  let host := demoHost demoRaw "ghs_token" twoRunSarif uploadAccepted in
  let w' := snd (SarifUploader_uploadSarif host verboseUploader
                   "codethreat-results.sarif" emptyWorld) in
  exists content document args asked result,
    pathExists host emptyWorld "codethreat-results.sarif" = Return true /\
    readFile host (addEvents emptyWorld [FsPathExists "codethreat-results.sarif"])
      "codethreat-results.sarif" = Return content /\
    JSON_parse host content = Return document /\
    wellShaped document /\
    us_sarif args = base64 host content /\
    us_owner args = ctx_owner (context host) /\
    us_repo args = ctx_repo (context host) /\
    us_commit_sha args = ctx_sha (context host) /\
    us_ref args = ctx_ref (context host) /\
    us_tool_name args = "CodeThreat" /\
    requests (history asked) =
    (requests (history emptyWorld) ++
     [FsPathExists "codethreat-results.sarif"; FsReadFile "codethreat-results.sarif"])%list /\
    codeScanning_uploadSarif (su_octokit verboseUploader) asked args = Return result /\
    requests (history w') =
    (requests (history emptyWorld) ++
     [FsPathExists "codethreat-results.sarif"; FsReadFile "codethreat-results.sarif";
      OctokitUploadSarif args])%list.
Proof.
  intros host w'.
  exact (uploadSarif_sends_what_it_validated host verboseUploader
           "codethreat-results.sarif" emptyWorld w' eq_refl).
Defined.

(** X18: every exception that leaves the upload is an Error made by the
    uploader itself: either the advice to enable GitHub Advanced Security,
    or SARIF upload failed: followed by the message of the cause.  A
    results file that does not exist is such a failure, raised before
    anything is read or sent. *)
Theorem uploadSarif_failures_are_translated
        (host : Host) (this : SarifUploader) (sarifFilePath : string) (w : World) :
  (forall e w',
      SarifUploader_uploadSarif host this sarifFilePath w = (Throw e, w') ->
      e = JsError advancedSecurityMessage \/
      exists m, e = JsError ("SARIF upload failed: " +:+ m)) /\
  (pathExists host w sarifFilePath = Return false ->
   includes sarifFilePath "Advanced Security" = false ->
   SarifUploader_uploadSarif host this sarifFilePath w
   = (Throw (JsError ("SARIF upload failed: SARIF file not found: " +:+ sarifFilePath)),
      addEvents w [FsPathExists sarifFilePath])).
Proof.
  split.
  - intros e w' E. unfold SarifUploader_uploadSarif, tryCatch in E.
    match type of E with
    | match ?b with _ => _ end = _ => destruct b as [[a|cause] w1]
    end; [discriminate E|].
    destruct cause as [m|].
    + destruct (includes m "Advanced Security"); inversion E; eauto.
    + inversion E. eauto.
  - intros Hp Hi. unfold SarifUploader_uploadSarif.
    cbv beta iota zeta delta [tryCatch bind call lift when ret throw negb].
    rewrite Hp.
    assert (H : includes ("SARIF file not found: " +:+ sarifFilePath) "Advanced Security"
                = false) by (simpl; exact Hi).
    rewrite H. reflexivity.
Qed.

Lemma uploadSarif_failures_are_translated_witness :
  let host := demoHost demoRaw "ghs_token" emptySarif uploadRejected in
  (exists m, JsError "SARIF upload failed: Resource not accessible by integration"
             = JsError ("SARIF upload failed: " +:+ m)) /\
  SarifUploader_uploadSarif missingFileHost demoUploader "results.sarif" emptyWorld
  = (Throw (JsError "SARIF upload failed: SARIF file not found: results.sarif"),
     addEvents emptyWorld [FsPathExists "results.sarif"]).
Proof.
  intros host. split.
  - destruct (proj1 (uploadSarif_failures_are_translated host rejectingUploader
                       "codethreat-results.sarif" emptyWorld) _ _ eq_refl) as [H|H].
    + discriminate H.
    + exact H.
  - exact (proj2 (uploadSarif_failures_are_translated missingFileHost demoUploader
                    "results.sarif" emptyWorld) eq_refl eq_refl).
Defined.

(** X19: the check for GitHub Advanced Security never throws and asks
    GitHub once, for the alerts of the repository of the workflow run.  It
    answers yes when the request succeeds and also when it fails, unless
    the failure is an Error whose message mentions Advanced Security: a
    network failure or a refusal for any other reason counts as enabled. *)
Theorem advanced_security_check_fails_open
        (host : Host) (this : SarifUploader) (w : World) :
  let owner := ctx_owner (context host) in
  let repo := ctx_repo (context host) in
  exists enabled,
    SarifUploader_checkAdvancedSecurityStatus host this w
    = (Return enabled, addEvents w [OctokitListAlerts owner repo]) /\
    enabled =
    match codeScanning_listAlertsForRepo (su_octokit this) w owner repo with
    | Return _ => true
    | Throw (JsError message) => negb (includes message "Advanced Security")
    | Throw Thrown => true
    end.
Proof.
  intros owner repo. unfold SarifUploader_checkAdvancedSecurityStatus.
  cbv beta iota zeta delta [tryCatch bind call ret].
  fold owner repo.
  destruct (codeScanning_listAlertsForRepo (su_octokit this) w owner repo) as [[]|[m|]].
  - exists true. split; reflexivity.
  - destruct (includes m "Advanced Security"); eexists; split; reflexivity.
  - exists true. split; reflexivity.
Qed.

(** ** A whole run *)

Lemma quiet_log (e : Event) : isLog e -> quiet e.
Proof. destruct e; simpl; tauto. Qed.

Lemma local_log (e : Event) : isLog e -> ~ isPublishing e.
Proof. destruct e; simpl; tauto. Qed.

(** X20: unless upload-sarif is set and the output format is sarif, the
    pipeline never looks for the results file again, never reads it and
    never sends anything to GitHub, whatever the collaborators answer. *)
Theorem no_upload_unless_enabled (host : Host) (this : CodeThreatAction) :
  uploadSarif (inputs this) && String.eqb (outputFormat (inputs this)) "sarif" = false ->
  appends (fun e => ~ isPublishing e) (execute host this).
Proof.
  intros H. apply appends_stages.
  - apply local_log.
  - intros []; simpl; tauto.
  - rewrite H. discriminate.
Qed.

Lemma no_upload_unless_enabled_witness :
  appends (fun e => ~ isPublishing e)
    (execute (demoHost demoRawNoUpload "ghs_token" emptySarif uploadAccepted) quietAction).
Proof.
  apply (no_upload_unless_enabled
           (demoHost demoRawNoUpload "ghs_token" emptySarif uploadAccepted) quietAction).
  reflexivity.
Defined.

Section Environment.
Variable inputs : ActionInputs.
Variable w : World.

Lemma setupEnvironment_world :
  setupEnvironment inputs w =
  (Return tt,
   {| processEnv :=
        <["CT_COLORS" := "false"]>
          ((if verboseInput inputs then <["CT_VERBOSE" := "true"]> else fun env => env)
             (<["CT_ORG_SLUG" := organizationSlug inputs]>
                (<["CT_SERVER_URL" := serverUrl inputs]>
                   (<["CT_API_KEY" := apiKey inputs]> (processEnv w)))));
      history := history w |}).
Proof.
  unfold setupEnvironment, setEnv. cbv beta iota delta [bind when ret].
  destruct (verboseInput inputs); reflexivity.
Qed.

End Environment.

(** X21: the environment the action prepares for the CodeThreat client.
    Setting it up never fails and appends nothing to the history.
    Afterwards CT_API_KEY, CT_SERVER_URL and CT_ORG_SLUG hold the API key,
    the server URL and the organization of the configuration and CT_COLORS
    is false; CT_VERBOSE is true for a verbose configuration and is left as
    it was, set or not, for any other; every other variable keeps its
    value. *)
Theorem setupEnvironment_exports
        (inputs : ActionInputs) (w : World) :
  exists w',
    setupEnvironment inputs w = (Return tt, w') /\
    history w' = history w /\
    processEnv w' !! "CT_API_KEY" = Some (apiKey inputs) /\
    processEnv w' !! "CT_SERVER_URL" = Some (serverUrl inputs) /\
    processEnv w' !! "CT_ORG_SLUG" = Some (organizationSlug inputs) /\
    processEnv w' !! "CT_COLORS" = Some "false" /\
    processEnv w' !! "CT_VERBOSE"
    = (if verboseInput inputs then Some "true" else processEnv w !! "CT_VERBOSE") /\
    forall name,
      In name ["CT_API_KEY"; "CT_SERVER_URL"; "CT_ORG_SLUG"; "CT_VERBOSE"; "CT_COLORS"]
      \/ processEnv w' !! name = processEnv w !! name.
Proof.
  eexists. split; [apply setupEnvironment_world|]. cbn [history processEnv].
  split; [reflexivity|].
  destruct (verboseInput inputs).
  - repeat split;
      try (repeat (rewrite lookup_insert_ne by discriminate); apply lookup_insert_eq).
    intros name.
    destruct (String.eqb_spec name "CT_API_KEY"); [subst; simpl; tauto|].
    destruct (String.eqb_spec name "CT_SERVER_URL"); [subst; simpl; tauto|].
    destruct (String.eqb_spec name "CT_ORG_SLUG"); [subst; simpl; tauto|].
    destruct (String.eqb_spec name "CT_VERBOSE"); [subst; simpl; tauto|].
    destruct (String.eqb_spec name "CT_COLORS"); [subst; simpl; tauto|].
    right. repeat (rewrite lookup_insert_ne by congruence). reflexivity.
  - repeat split;
      try (repeat (rewrite lookup_insert_ne by discriminate); apply lookup_insert_eq).
    + repeat (rewrite lookup_insert_ne by discriminate). reflexivity.
    + intros name.
      destruct (String.eqb_spec name "CT_API_KEY"); [subst; simpl; tauto|].
      destruct (String.eqb_spec name "CT_SERVER_URL"); [subst; simpl; tauto|].
      destruct (String.eqb_spec name "CT_ORG_SLUG"); [subst; simpl; tauto|].
      destruct (String.eqb_spec name "CT_COLORS"); [subst; simpl; tauto|].
      right. repeat (rewrite lookup_insert_ne by congruence). reflexivity.
Qed.

(** X22: publishing the outputs never fails and does nothing but set
    outputs, between seven and eleven of them.  The scan id, the
    repository id and the five counts are always set, the counts as
    decimal text.  The security score and the scan duration are set
    whenever the results carry them, a score of 0 included; the results
    file and the scan URL are set only when they are there and not
    empty. *)
Theorem setOutputs_publishes (outputs : ActionOutputs) (w : World) :
  let r := results outputs in
  exists evs,
    setOutputs outputs w = (Return tt, addEvents w evs) /\
    Forall isSetOutput evs /\
    (7 <= List.length evs <= 11)%nat /\
    outputValue "scan-id" evs = Some (scanId outputs) /\
    outputValue "repository-id" evs = Some (repositoryId outputs) /\
    outputValue "violation-count" evs = Some (Number_toString (violationCount r)) /\
    outputValue "critical-count" evs = Some (Number_toString (criticalCount r)) /\
    outputValue "high-count" evs = Some (Number_toString (highCount r)) /\
    outputValue "medium-count" evs = Some (Number_toString (mediumCount r)) /\
    outputValue "low-count" evs = Some (Number_toString (lowCount r)) /\
    outputValue "results-file" evs = nonEmpty (resultsFile r) /\
    outputValue "security-score" evs = option_map Number_toString (securityScore r) /\
    outputValue "scan-duration" evs = option_map Number_toString (scanDuration r) /\
    outputValue "scan-url" evs = nonEmpty (scanUrl r).
Proof.
  intros r. unfold setOutputs. fold r.
  unfold core_setOutput, whenString, nonEmpty, emit.
  cbv beta iota delta [bind when ret].
  destruct (resultsFile r) as [file|]; [destruct (String.eqb file EmptyString)|];
    destruct (securityScore r) as [score|];
    destruct (scanDuration r) as [duration|];
    (destruct (scanUrl r) as [url|]; [destruct (String.eqb url EmptyString)|]);
    cbn [negb processEnv history];
    (eexists; split;
     [unfold addEvents; rewrite <- ?app_assoc; cbn [app]; reflexivity|]);
    (split; [repeat constructor|]);
    (split; [cbn [List.length]; lia|]);
    cbn [outputValue String.eqb Ascii.eqb Bool.eqb];
    repeat split.
Qed.

Lemma logged_whenString (s : option string) (body : string -> M unit) :
  (forall v, logged (body v)) -> logged (whenString s body).
Proof. intros H. destruct s; simpl; auto using logged_ret, logged_when. Qed.

Lemma logged_whenNumber (n : option jsnum) (body : jsnum -> M unit) :
  (forall v, logged (body v)) -> logged (whenNumber n body).
Proof. intros H. destruct n; simpl; auto using logged_ret, logged_when. Qed.

Lemma setOutputs_events (outputs : ActionOutputs) (w : World) :
  exists evs,
    setOutputs outputs w = (Return tt, addEvents w evs) /\
    Forall isSetOutput evs /\ (7 <= List.length evs)%nat.
Proof.
  unfold setOutputs, core_setOutput.
  repeat match goal with
    | |- context [bind (emit ?e) ?k w] => idtac
    end.
  assert (Ho : forall (name : string) (s : option string) (u : World),
             exists evs, whenString s (fun v => emit (CoreSetOutput name v)) u
                         = (Return tt, addEvents u evs) /\ Forall isSetOutput evs).
  { intros name [v|] u; simpl.
    - destruct (String.eqb v EmptyString); simpl.
      + exists []. rewrite addEvents_nil. split; [reflexivity|constructor].
      + exists [CoreSetOutput name v]. split; [reflexivity|]. repeat constructor.
    - exists []. rewrite addEvents_nil. split; [reflexivity|constructor]. }
  assert (Hn : forall (name : string) (n : option jsnum) (u : World),
             exists evs,
               match n with
               | Some v => emit (CoreSetOutput name (Number_toString v))
               | None => ret tt
               end u = (Return tt, addEvents u evs) /\ Forall isSetOutput evs).
  { intros name [v|] u.
    - eexists [_]. split; [reflexivity|]. repeat constructor.
    - exists []. rewrite addEvents_nil. split; [reflexivity|constructor]. }
  unfold bind at 1 2 3 4 5 6 7. unfold emit at 1 2 3 4 5 6 7.
  cbn [processEnv history].
  match goal with |- context [bind (whenString _ _) _ ?u] => set (w1 := u) end.
  unfold bind.
  destruct (Ho "results-file" (resultsFile (results outputs)) w1) as (e1 & E1 & F1).
  rewrite E1.
  destruct (Hn "security-score" (securityScore (results outputs)) (addEvents w1 e1))
    as (e2 & E2 & F2).
  rewrite E2.
  destruct (Hn "scan-duration" (scanDuration (results outputs))
              (addEvents (addEvents w1 e1) e2)) as (e3 & E3 & F3).
  rewrite E3.
  destruct (Ho "scan-url" (scanUrl (results outputs))
              (addEvents (addEvents (addEvents w1 e1) e2) e3)) as (e4 & E4 & F4).
  rewrite E4.
  eexists (_ :: _ :: _ :: _ :: _ :: _ :: _ :: e1 ++ e2 ++ e3 ++ e4)%list.
  split; [|split].
  - unfold w1, addEvents. cbn [processEnv history].
    rewrite <- !app_assoc. reflexivity.
  - repeat (constructor; [exact I|]). repeat (apply Forall_app; split); assumption.
  - cbn [List.length]. lia.
Qed.

Section Run.
Variable host : Host.
Variable l : Logger.

(** The [try] block of [run]. *)
Let body : M unit :=
  Logger_info host l "🚀 Starting CodeThreat Security Scan Action" None ;;
  Logger_info host l
    ("Repository: " +:+ ctx_owner (context host) +:+ "/" +:+ ctx_repo (context host)) None ;;
  Logger_info host l ("Branch: " +:+ ctx_ref (context host)) None ;;
  Logger_info host l ("Event: " +:+ ctx_eventName (context host)) None ;;
  let! inputs := parseInputs host in
  Logger_debug host l "Action inputs parsed successfully"
    (Some (JObj [("scanTypes", JArr (List.map JStr (scanTypes inputs)));
                 ("outputFormat", JStr (outputFormat inputs));
                 ("waitForCompletion", JBool (waitForCompletion inputs))])) ;;
  let! action := CodeThreatAction_new host inputs l in
  let! outputs := execute host action in
  setOutputs outputs ;;
  Logger_info host l "✅ CodeThreat Security Scan completed successfully" None ;;
  Logger_info host l ("Scan ID: " +:+ scanId outputs) None ;;
  Logger_info host l
    ("Violations: " +:+ Number_toString (violationCount (results outputs))
     +:+ " (Critical: " +:+ Number_toString (criticalCount (results outputs))
     +:+ ", High: " +:+ Number_toString (highCount (results outputs)) +:+ ")") None ;;
  whenNumber (securityScore (results outputs))
    (fun score =>
       Logger_info host l ("Security Score: " +:+ Number_toString score +:+ "/100") None) ;;
  whenString (resultsFile (results outputs))
    (fun file => Logger_info host l ("Results saved to: " +:+ file) None) ;;
  whenString (scanUrl (results outputs))
    (fun url => Logger_info host l ("View detailed results: " +:+ url) None).

(** The [catch] block of [run]. *)
Let handler (error : exn) : M unit :=
  let errorStack :=
    match error with
    | JsError _ => Error_stack host error
    | Thrown => JUndefined
    end in
  Logger_error host l "❌ CodeThreat Security Scan failed"
    (Some (JObj [("error", JStr (errorMessage error))])) ;;
  when (Logger_isDebugEnabled l)
    (Logger_debug host l "Error stack trace" (Some (JObj [("stack", errorStack)]))) ;;
  emit (CoreSetFailed (errorMessage error)).

Lemma run_unfold (w : World) :
  run host w =
  match getBooleanInput host "verbose" with
  | Return b =>
      if Bool.eqb b (verbose l) then tryCatch body handler w else run host w
  | Throw e => (Throw e, w)
  end.
Proof.
  destruct (getBooleanInput host "verbose") as [b|e] eqn:E.
  - destruct (Bool.eqb b (verbose l)) eqn:Eb; [|reflexivity].
    apply Bool.eqb_prop in Eb. subst b.
    unfold run, Logger_new. unfold bind at 1. unfold bind at 1.
    unfold lift at 1. rewrite E. destruct l. reflexivity.
  - unfold run, Logger_new. unfold bind at 1. unfold bind at 1.
    unfold lift at 1. rewrite E. reflexivity.
Qed.

Lemma phased_bind {A} (m : M A) (k : A -> M unit) :
  appends quiet m -> (forall a, phased (k a)) -> phased (bind m k).
Proof.
  intros Hm Hk w. destruct (Hm w) as (e1 & E1 & F1). unfold bind.
  destruct (m w) as [[a|e] w1]; cbn [snd] in E1.
  - destruct (Hk a w1) as (e2 & E2 & H2).
    exists (e1 ++ e2)%list. rewrite E2, E1, app_assoc. split; [reflexivity|].
    destruct (fst (k a w1)).
    + destruct H2 as (before & outs & after & -> & Hb & Ho & Hl & Ha).
      exists (e1 ++ before)%list, outs, after. rewrite app_assoc.
      repeat split; auto. apply Forall_app; auto.
    + apply Forall_app; auto.
  - exists e1. split; [exact E1|exact F1].
Qed.

Lemma phased_outputs (outputs : ActionOutputs) (after : M unit) :
  logged after -> phased (setOutputs outputs ;; after).
Proof.
  intros Ha w. destruct (setOutputs_events outputs w) as (outs & E & Fo & Hl).
  destruct (Ha (addEvents w outs)) as (evs & Ea & Fa).
  unfold bind. rewrite E, Ea. exists (outs ++ evs)%list.
  split; [simpl; rewrite app_assoc; reflexivity|].
  exists [], outs, evs. repeat split; auto.
Qed.

Lemma appends_parseInputs : appends quiet (parseInputs host).
Proof. unfold parseInputs. unfold_logger. appends_with ltac:(exact I). Qed.

Lemma appends_CodeThreatAction_new (inputs : ActionInputs) :
  appends quiet (CodeThreatAction_new host inputs l).
Proof.
  unfold CodeThreatAction_new, setupEnvironment, SarifUploader_new, resolveToken.
  unfold_logger.
  apply appends_bind; [appends_with ltac:(exact I)|intros _].
  apply appends_bind; [apply appends_silent; reflexivity|intros client].
  appends_with ltac:(exact I).
Qed.

Lemma appends_execute (this : CodeThreatAction) : appends quiet (execute host this).
Proof.
  apply appends_stages.
  - apply quiet_log.
  - intros []; exact I.
  - intros _ []; exact I.
Qed.

Lemma body_phased : phased body.
Proof.
  unfold body.
  do 4 (apply phased_bind;
        [unfold_logger; appends_with ltac:(exact I)|intros _]).
  apply phased_bind; [apply appends_parseInputs|intros inputs].
  apply phased_bind; [unfold_logger; appends_with ltac:(exact I)|intros _].
  apply phased_bind; [apply appends_CodeThreatAction_new|intros action].
  apply phased_bind; [apply appends_execute|intros outputs].
  apply phased_outputs.
  repeat match goal with
    | |- logged (bind _ _) => apply logged_bind; [|intros _]
    | |- logged (whenString _ _) => apply logged_whenString; intros ?
    | |- logged (whenNumber _ _) => apply logged_whenNumber; intros ?
    | |- logged _ => solve [auto with logs]
    end.
Qed.

Lemma handler_fails (error : exn) (w : World) :
  exists evs,
    handler error w = (Return tt, addEvents w (evs ++ [CoreSetFailed (errorMessage error)])%list)
    /\ Forall quiet evs.
Proof.
  unfold handler, Logger_isDebugEnabled, Logger_error, Logger_debug, core_error, core_info.
  cbv beta iota zeta delta [bind when emit ret dataTruthy truthy].
  cbn [processEnv history].
  destruct (verbose l); [eexists [_; _; _; _]|eexists [_; _]];
    (split; [unfold addEvents; cbn [processEnv history]; rewrite <- ?app_assoc;
             cbn [app]; reflexivity|]);
    repeat constructor.
Qed.

End Run.

(** X23: a run never rejects, and it ends in exactly one of three ways.
    Either it sets its outputs, all in one go and after everything else
    but log lines; or it sets no output and marks the step as failed, as
    the last thing it does; or, when not even the logger could be built,
    it prints the fatal error and exits with status 1 having done nothing
    else.  Outputs and failure never come together. *)
Theorem run_ends_one_of_three_ways (host : Host) (w : World) :
  exists w' evs,
    main host w = (Return tt, w') /\
    history w' = (history w ++ evs)%list /\
    (succeeded evs \/ failed evs \/ crashed evs).
Proof.
  unfold main.
  destruct (getBooleanInput host "verbose") as [b|e] eqn:Hb.
  - pose proof (run_unfold host {| verbose := b |} w) as Hr.
    rewrite Hb in Hr. cbn [verbose] in Hr. rewrite Bool.eqb_reflx in Hr.
    destruct (body_phased host {| verbose := b |} w) as (evs & Hh & Ho).
    match type of Hr with _ = tryCatch ?body ?handler w =>
      destruct (body w) as [[[]|err] w1] eqn:Eb
    end; cbn [fst snd] in Hh, Ho.
    + rewrite (tryCatch_return _ _ _ _ _ Eb) in Hr.
      exists w1, evs. rewrite (tryCatch_return _ _ _ _ _ Hr). auto.
    + rewrite (tryCatch_throw _ _ _ _ _ Eb) in Hr.
      destruct (handler_fails host {| verbose := b |} err w1) as (evs2 & E2 & F2).
      assert (Hr' : run host w
                    = (Return tt,
                       addEvents w1 (evs2 ++ [CoreSetFailed (errorMessage err)])%list))
        by (rewrite Hr; exact E2).
      clear Hr. rename Hr' into Hr.
      eexists. exists (evs ++ evs2 ++ [CoreSetFailed (errorMessage err)])%list.
      rewrite (tryCatch_return _ _ _ _ _ Hr). split; [reflexivity|]. split.
      * cbn [history addEvents]. rewrite Hh, <- !app_assoc. reflexivity.
      * right. left. exists (evs ++ evs2)%list, (errorMessage err).
        rewrite <- app_assoc. split; [reflexivity|]. apply Forall_app; auto.
  - pose proof (run_unfold host {| verbose := false |} w) as Hr. rewrite Hb in Hr.
    rewrite (tryCatch_throw _ _ _ _ _ Hr).
    eexists. eexists. split; [reflexivity|]. split.
    + cbn [history snd bind emit]. rewrite <- app_assoc. reflexivity.
    + right. right. exists e. reflexivity.
Qed.

(** *** Quiet runs *)

Lemma appends_bind_post {A B} (P : Event -> Prop) (Q : A -> Prop) (m : M A) (k : A -> M B) :
  returnsOnly Q m -> appends P m -> (forall a, Q a -> appends P (k a)) ->
  appends P (bind m k).
Proof.
  intros Hq Hm Hk w. destruct (Hm w) as (e1 & E1 & F1). unfold bind.
  destruct (m w) as [[a|e] w1] eqn:Em; simpl in E1.
  - destruct (Hk a (Hq w a w1 Em) w1) as (e2 & E2 & F2).
    exists (e1 ++ e2)%list. rewrite E2, E1, app_assoc. split; [reflexivity|].
    apply Forall_app; auto.
  - exists e1. split; [exact E1|exact F1].
Qed.

Ltac plain_event := first [exact I | repeat split; reflexivity].

Ltac appends_plain :=
  repeat match goal with
    | |- appends _ (when (_ && false) _) => rewrite andb_false_r; apply appends_ret
    | |- appends _ (ret _) => apply appends_ret
    | |- appends _ (throw _) => apply appends_throw
    | |- appends _ (lift _) => apply appends_lift
    | |- appends _ (emit _) => apply appends_emit; plain_event
    | |- appends _ (call _ _) => apply appends_call; plain_event
    | |- appends _ (setEnv _ _) => apply appends_setEnv
    | |- appends _ (getEnv _) => apply appends_getEnv
    | |- appends _ (getProp _ _) => apply appends_getProp
    | |- appends _ (countResults _ _) => apply appends_countResults
    | |- appends _ (countViolations _ _) => apply appends_countViolations
    | |- appends _ (tryCatch _ _) => apply appends_tryCatch; [|intros ?]
    | |- appends _ (when false _) => apply appends_ret
    | |- appends _ (when _ _) => apply appends_when
    | |- appends _ (whenString _ _) => apply appends_whenString; intros ?
    | |- appends _ (whenNumber _ _) => apply appends_whenNumber; intros ?
    | |- appends _ (bind _ _) => apply appends_bind; [|intros ?]
    | |- appends _ (if ?c then _ else _) => destruct c
    | |- appends _ (match ?x with _ => _ end) => destruct x
    | |- appends _ _ => progress cbv zeta
    end.

Section QuietRun.
Variable host : Host.
Hypothesis Hquiet : getBooleanInput host "verbose" = Return false.

Let l : Logger := {| verbose := false |}.

Lemma plain_logBreakdown (this : CodeThreatAction) (entries : list (string * Z)) :
  verbose (logger this) = false -> appends plain (logBreakdown host this entries).
Proof.
  intros Hv. induction entries as [|[t c] entries IH]; simpl.
  - apply appends_ret.
  - apply appends_bind; [|intros ?; exact IH].
    unfold_logger. rewrite Hv. appends_plain.
Qed.

Lemma plain_execute (this : CodeThreatAction) :
  verbose (logger this) = false -> verbose (su_logger (sarifUploader this)) = false ->
  appends plain (execute host this).
Proof.
  intros Hv Hu. unfold_stages. unfold_logger. rewrite ?Hv, ?Hu.
  repeat first
    [ match goal with
      | |- appends _ (logBreakdown _ _ _) => apply plain_logBreakdown, Hv
      end
    | progress appends_plain ].
Qed.

Lemma Logger_new_quiet : returnsOnly (fun x : Logger => verbose x = false) (Logger_new host None).
Proof.
  unfold Logger_new. rewrite Hquiet. intros w a w' E. inversion E. reflexivity.
Qed.

Lemma plain_Logger_new : appends plain (Logger_new host None).
Proof. unfold Logger_new. appends_plain. Qed.

Lemma plain_parseInputs : appends plain (parseInputs host).
Proof.
  unfold parseInputs.
  apply (appends_bind_post plain _ _ _ Logger_new_quiet plain_Logger_new).
  intros logger Hl. unfold_logger. rewrite ?Hl. appends_plain.
Qed.

Lemma SarifUploader_new_logger (logger : Logger) :
  returnsOnly (fun u => su_logger u = logger) (SarifUploader_new host logger).
Proof.
  unfold SarifUploader_new.
  apply returnsOnly_bind; intros input. apply returnsOnly_bind; intros env.
  destruct (resolveToken input env) as [t|]; [|intros w a w' E; discriminate E].
  destruct (String.eqb t EmptyString); [intros w a w' E; discriminate E|].
  apply returnsOnly_bind; intros octokit. apply returnsOnly_ret. reflexivity.
Qed.

Lemma CodeThreatAction_new_loggers (inputs : ActionInputs) (logger0 : Logger) :
  returnsOnly (fun this => logger this = logger0 /\
                           su_logger (sarifUploader this) = logger0)
    (CodeThreatAction_new host inputs logger0).
Proof.
  unfold CodeThreatAction_new.
  apply returnsOnly_bind; intros _. apply returnsOnly_bind; intros client.
  apply (returnsOnly_then _ _ _ _ (SarifUploader_new_logger logger0)).
  intros uploader Hu. apply returnsOnly_ret. split; [reflexivity|exact Hu].
Qed.

Lemma plain_CodeThreatAction_new (inputs : ActionInputs) (logger0 : Logger) :
  appends plain (CodeThreatAction_new host inputs logger0).
Proof.
  unfold CodeThreatAction_new, setupEnvironment, SarifUploader_new, resolveToken.
  unfold_logger.
  apply appends_bind; [appends_plain|intros _].
  apply appends_bind; [apply appends_silent; reflexivity|intros client].
  appends_plain.
Qed.

Lemma plain_run : appends plain (run host).
Proof.
  unfold run.
  apply (appends_bind_post plain _ _ _ Logger_new_quiet plain_Logger_new).
  intros logger0 Hl. apply appends_tryCatch.
  - do 4 (apply appends_bind; [unfold_logger; rewrite ?Hl; appends_plain|intros _]).
    apply appends_bind; [apply plain_parseInputs|intros inputs].
    apply appends_bind; [unfold_logger; rewrite ?Hl; appends_plain|intros _].
    apply (appends_bind_post plain _ _ _ (CodeThreatAction_new_loggers inputs logger0)
             (plain_CodeThreatAction_new inputs logger0)).
    intros action [Ha Hu].
    apply appends_bind; [apply plain_execute; rewrite ?Ha, ?Hu; exact Hl|intros outputs].
    unfold setOutputs. unfold_logger. rewrite ?Hl. appends_plain.
  - intros error. unfold Logger_isDebugEnabled. unfold_logger. rewrite ?Hl. appends_plain.
Qed.

End QuietRun.

(** X24: when the verbose input is off, a run prints no debug output and
    no logged data, from its first line to its last and whatever the
    collaborators answer: no line beginning with [DEBUG], Debug Data: or
    Data: is written by the entry point, the resolver, the pipeline or the
    uploader.  The only data a quiet run prints are the details of an
    error. *)
Theorem quiet_run_prints_no_data (host : Host) :
  getBooleanInput host "verbose" = Return false -> appends plain (main host).
Proof.
  intros Hq. unfold main. apply appends_tryCatch.
  - apply plain_run, Hq.
  - intros error. appends_plain.
Qed.

Lemma quiet_run_prints_no_data_witness :
  appends plain (main (demoHost quietRaw "ghs_token" emptySarif uploadAccepted)).
Proof.
  apply (quiet_run_prints_no_data (demoHost quietRaw "ghs_token" emptySarif uploadAccepted)).
  reflexivity.
Defined.
